(** * PayDoubleOrNothing: the settlement route and the statistics route

    A shallow embedding of the two server routes of the repository and
    the properties the specification states about them:
    - the settlement route, served at [/api/play] (the second part of
      [src/app/layout.tsx]): input checks, selection of an RPC endpoint,
      lookup of the transfer status, the 50/50 draw and the payout;
    - the statistics route [src/app/api/stats/route.ts]: reading and
      updating the aggregate counters and the game history.

    JavaScript numbers are IEEE 754 binary64 values: Rocq's primitive
    floats, with the operations of the kernel. A handler is a program over
    the external calls it makes (RPC node, random source, hosted store,
    clock, console): a finite tree of calls, which is run against an
    environment that answers them, or, for two requests in flight,
    interleaved with another handler at the calls. *)

From Stdlib Require Import ZArith List String Bool Floats Sorted Permutation
  Lia.
Import ListNotations.

Set Warnings "-inexact-float,-register-all".
Local Open Scope string_scope.
Local Open Scope list_scope.

(* ================================================================== *)
(** * JavaScript values *)
(* ================================================================== *)

Module JS.

(** What [request.json()] can produce, and [undefined] for an absent
    property. *)
Inductive value : Type :=
| VUndefined
| VNull
| VBool (b : bool)
| VNum (n : float)
| VStr (s : string)
| VArr (items : list value)
| VObj (fields : list (string * value)).

(** A thrown error, seen through the only property the handlers read:
    [error.message] (the empty string when there is none). *)
Record Thrown : Type := mkThrown { message : string }.

(** The parts of the language's coercions that the routes never compute
    themselves: the numeric reading of a string, and the string a number
    is written as. *)
Class Runtime : Type := {
  StringToNumber : string -> float;
  NumberToString : float -> string
}.

(** [!v] is [negb (truthy v)]. *)
Definition truthy (v : value) : bool :=
  match v with
  | VUndefined | VNull => false
  | VBool b => b
  | VNum n => negb (is_zero n || is_nan n)
  | VStr s => negb (s =? EmptyString)
  | VArr _ | VObj _ => true
  end.

(** The object has an own property of this name. *)
Definition has_own (key : string) (fields : list (string * value)) : bool :=
  existsb (fun kv => fst kv =? key) fields.

(** What the conversion of an object to a primitive throws when neither
    [valueOf] nor [toString] gives one. *)
Definition not_primitive : Thrown :=
  mkThrown "Cannot convert object to primitive value".

(** [String(v)]. A value parsed from JSON holds no function, so an
    object that has an own property [toString] has no callable one and
    cannot be converted; any other object is written by
    [Object.prototype.toString]. An array is joined with commas, [null]
    and [undefined] elements giving the empty string. *)
Fixpoint ToString `{Runtime} (v : value) : Thrown + string :=
  match v with
  | VUndefined => inr "undefined"
  | VNull => inr "null"
  | VBool true => inr "true"
  | VBool false => inr "false"
  | VNum n => inr (NumberToString n)
  | VStr s => inr s
  | VArr items =>
      (fix join (l : list value) : Thrown + string :=
         match l with
         | [] => inr EmptyString
         | x :: rest =>
             match match x with
                   | VUndefined | VNull => inr EmptyString
                   | _ => ToString x
                   end with
             | inl e => inl e
             | inr s =>
                 match rest with
                 | [] => inr s
                 | _ :: _ =>
                     match join rest with
                     | inl e => inl e
                     | inr t => inr (String.append s (String.append "," t))
                     end
                 end
             end
         end) items
  | VObj fields =>
      if has_own "toString" fields then inl not_primitive
      else inr "[object Object]"
  end.

(** [Number(v)], which is also how [v <= 0] and [v * 2] read [v]. The
    string an object without an own [toString] is written as is no
    number. *)
Definition ToNumber `{Runtime} (v : value) : Thrown + float :=
  match v with
  | VUndefined => inr nan
  | VNull => inr 0%float
  | VBool true => inr 1%float
  | VBool false => inr 0%float
  | VNum n => inr n
  | VStr s => inr (StringToNumber s)
  | VArr _ =>
      match ToString v with
      | inl e => inl e
      | inr s => inr (StringToNumber s)
      end
  | VObj fields =>
      if has_own "toString" fields then inl not_primitive else inr nan
  end.

(** [v <= 0] and [v * 2] on an arbitrary value. *)
Definition le_zero `{Runtime} (v : value) : Thrown + bool :=
  match ToNumber v with
  | inl e => inl e
  | inr n => inr (n <=? 0)%float
  end.
Definition times_two `{Runtime} (v : value) : Thrown + float :=
  match ToNumber v with
  | inl e => inl e
  | inr n => inr (n * 2)%float
  end.

(** [a || b] on strings and on numbers. *)
Definition str_or (a b : string) : string := if a =? EmptyString then b else a.
Definition num_or (a b : float) : float :=
  if is_zero a || is_nan a then b else a.

(** [v === 'lit']. *)
Definition is_str (v : value) (lit : string) : bool :=
  match v with VStr s => s =? lit | _ => false end.

Fixpoint assoc (key : string) (fields : list (string * value)) : value :=
  match fields with
  | [] => VUndefined
  | (k, v) :: rest => if k =? key then v else assoc key rest
  end.

(** Property read, as destructuring does it. None of the names the routes
    read exists on a string, number, boolean or array. *)
Definition get (v : value) (key : string) : value :=
  match v with
  | VObj fields => assoc key fields
  | _ => VUndefined
  end.

Definition nullish (v : value) : bool :=
  match v with VUndefined | VNull => true | _ => false end.

(** [v !== undefined]: the property is there. *)
Definition defined (v : value) : bool :=
  match v with VUndefined => false | _ => true end.

(** [Math.floor]. A binary64 value with a non-negative exponent is an
    integer already; otherwise the mantissa is shifted down, which rounds
    towards minus infinity, and the integer below 2^53 is exact. *)
Definition Math_floor (x : float) : float :=
  match Prim2SF x with
  | S754_finite s m e =>
      if (0 <=? e)%Z then x
      else
        let z := Z.shiftr (if s then Z.neg m else Z.pos m) (- e) in
        if (z =? 0)%Z then 0%float
        else SF2Prim (binary_normalize prec emax z 0 false)
  | _ => x
  end.

(** ** What a response carries

    The caller receives the JSON text of the value handed to
    [NextResponse.json]. A number that is NaN or infinite is written as
    [null], and both zeros as [0]; a property whose value is [undefined]
    is left out, and an [undefined] element of an array is written as
    [null]. *)
Definition json_number (n : float) : value :=
  if is_finite n then (if is_zero n then VNum 0 else VNum n) else VNull.

Fixpoint wire (v : value) : value :=
  match v with
  | VUndefined => VUndefined
  | VNull => VNull
  | VBool b => VBool b
  | VNum n => json_number n
  | VStr s => VStr s
  | VArr items =>
      VArr (map (fun x => match x with
                          | VUndefined => VNull
                          | _ => wire x
                          end) items)
  | VObj fields =>
      VObj ((fix kept (l : list (string * value)) : list (string * value) :=
               match l with
               | [] => []
               | (k, x) :: rest =>
                   match x with
                   | VUndefined => kept rest
                   | _ => (k, wire x) :: kept rest
                   end
               end) fields)
  end.

(** A number beyond the range of binary64, which is how [JSON.parse]
    reads a literal such as [1e999]: plus or minus infinity. *)
Definition unbounded (v : value) : bool :=
  match v with VNum n => is_infinity n | _ => false end.

(** The properties of an object, as the caller receives them. *)
Definition wire_fields (fields : list (string * value))
  : list (string * value) :=
  match wire (VObj fields) with
  | VObj kept => kept
  | _ => []
  end.

(** No name is written twice in an object literal of the routes. *)
Fixpoint unique_keys (fields : list (string * value)) : bool :=
  match fields with
  | [] => true
  | (k, _) :: rest => negb (has_own k rest) && unique_keys rest
  end.


End JS.

(* ================================================================== *)
(** * Programs over awaited calls *)
(* ================================================================== *)

Module Eff.
Import JS.

Section Prog.
Context {E : Type -> Type}.

(** A handler body: it returns, throws, or performs a call and goes on
    with the answer. *)
Inductive Prog (A : Type) : Type :=
| Ret (a : A)
| Throw (e : Thrown)
| Vis (X : Type) (op : E X) (k : X -> Prog A).

Arguments Ret {A} a.
Arguments Throw {A} e.
Arguments Vis {A X} op k.

Fixpoint bind {A B} (p : Prog A) (f : A -> Prog B) : Prog B :=
  match p with
  | Ret a => f a
  | Throw e => Throw e
  | Vis op k => Vis op (fun x => bind (k x) f)
  end.

(** [try { p } catch (e) { h e }]. *)
Fixpoint catch {A} (p : Prog A) (h : Thrown -> Prog A) : Prog A :=
  match p with
  | Ret a => Ret a
  | Throw e => h e
  | Vis op k => Vis op (fun x => catch (k x) h)
  end.

(** A call with no failure mode. *)
Definition perform {X} (op : E X) : Prog X := Vis op Ret.

(** A call that returns or throws. *)
Definition call {X} (op : E (Thrown + X)) : Prog X :=
  Vis op (fun r => match r with inl e => Throw e | inr x => Ret x end).

(** An expression that gives a value or throws. *)
Definition lift {A} (r : Thrown + A) : Prog A :=
  match r with inl e => Throw e | inr a => Ret a end.

(** One performed call with its answer. *)
Inductive Event : Type := Ev (X : Type) (op : E X) (answer : X).

Section Run.
Context {S : Type}.
(** The environment: it answers a call and moves on. *)
Variable answer : forall X, E X -> S -> X * S.

(** Running a handler to its end: the outcome, the environment left
    behind, and the calls made, oldest first. *)
Fixpoint run {A} (p : Prog A) (s : S) : (Thrown + A) * S * list Event :=
  match p with
  | Ret a => (inr a, s, [])
  | Throw e => (inl e, s, [])
  | Vis op k =>
      let '(x, s1) := answer _ op s in
      let '(r, s2, tr) := run (k x) s1 in
      (r, s2, Ev _ op x :: tr)
  end.

(** The run of [p] followed by the run of what comes after it. *)
Definition and_then {A B} (r : (Thrown + A) * S * list Event)
    (f : A -> S -> (Thrown + B) * S * list Event)
  : (Thrown + B) * S * list Event :=
  match r with
  | (inr a, s1, tr1) =>
      let '(r2, s2, tr2) := f a s1 in (r2, s2, tr1 ++ tr2)
  | (inl e, s1, tr1) => (inl e, s1, tr1)
  end.

(** The run of [p] with the run of its handler when it throws. *)
Definition or_else {A} (r : (Thrown + A) * S * list Event)
    (h : Thrown -> S -> (Thrown + A) * S * list Event)
  : (Thrown + A) * S * list Event :=
  match r with
  | (inl e, s1, tr1) =>
      let '(r2, s2, tr2) := h e s1 in (r2, s2, tr1 ++ tr2)
  | (inr a, s1, tr1) => (inr a, s1, tr1)
  end.

(** One call of a handler in flight. *)
Definition step {A} (p : Prog A) (s : S) : Prog A * S :=
  match p with
  | Vis op k => let '(x, s1) := answer _ op s in (k x, s1)
  | _ => (p, s)
  end.

Definition finished {A} (p : Prog A) : bool :=
  match p with Vis _ _ => false | _ => true end.

(** Two handlers in flight over one environment; the schedule says
    whose call is served next ([true]: the first one's). *)
Fixpoint interleave {A B} (sched : list bool) (p : Prog A) (q : Prog B)
    (s : S) : Prog A * Prog B * S :=
  match sched with
  | [] => (p, q, s)
  | true :: rest => let '(p1, s1) := step p s in interleave rest p1 q s1
  | false :: rest => let '(q1, s1) := step q s in interleave rest p q1 s1
  end.
End Run.
End Prog.

Arguments Prog E A : clear implicits.
Arguments Event E : clear implicits.
Arguments Ret {E A} a.
Arguments Throw {E A} e.
Arguments Vis {E A X} op k.
Arguments Ev {E X} op answer.

Declare Scope prog_scope.
Delimit Scope prog_scope with prog.
Notation "x <- p ;; q" := (bind p (fun x => q))
  (at level 61, p at next level, right associativity) : prog_scope.
Notation "' pat <- p ;; q" :=
  (bind p (fun x => match x with pat => q end))
  (at level 61, pat pattern, p at next level, right associativity)
  : prog_scope.
Notation "p ;; q" := (bind p (fun _ => q))
  (at level 61, right associativity) : prog_scope.

End Eff.

(* ================================================================== *)
(** * The settlement route ([POST /api/play]) *)
(* ================================================================== *)

Module Play.
Import JS Eff.
Local Open Scope prog_scope.

(** The variables of [process.env] the route reads. *)
Record ProcessEnv : Type := {
  SOLANA_RPC_ENDPOINT : option string;
  SOLANA_RPC_ENDPOINT_2 : option string;
  SOLANA_RPC_ENDPOINT_3 : option string;
  NEXT_PUBLIC_BANK_WALLET_ADDRESS : option string;
  BANK_WALLET_ADDRESS_env : option string;
  BANK_PRIVATE_KEY : option string
}.

Record Connection : Type := { rpcEndpoint : string }.
Record Keypair : Type := { publicKey : string }.

(** [status.value] of a signature status: whether [err] is set. *)
Record SignatureStatus : Type := {
  err : bool;
  confirmationStatus : string
}.

Record Transfer : Type := {
  fromPubkey : string;
  toPubkey : string;
  lamports : float
}.

Record Transaction : Type := {
  instruction : Transfer;
  recentBlockhash : string;
  feePayer : string
}.

(** The external calls of the route. *)
Inductive Op : Type -> Type :=
| DateNow : Op float
| NewConnection (endpoint : string) : Op (Thrown + Connection)
| GetSlot (conn : Connection) : Op (Thrown + float)
| GetSignatureStatus (conn : Connection) (signature : value)
    : Op (Thrown + option SignatureStatus)
| MathRandom : Op float
| Bs58Keypair (privateKey : string) : Op (Thrown + Keypair)
| JsonKeypair (privateKey : string) : Op (Thrown + Keypair)
| NewPublicKey (address : value) : Op (Thrown + string)
| SystemProgramTransfer (t : Transfer) : Op (Thrown + unit)
| GetLatestBlockhash (conn : Connection) : Op (Thrown + string)
| SignTransaction (tx : Transaction) (signer : Keypair) : Op (Thrown + unit)
| SerializeTransaction (tx : Transaction) : Op (Thrown + unit)
| SendRawTransaction (conn : Connection) (tx : Transaction)
    : Op (Thrown + string)
| ConsoleLog (msg : string) : Op unit
| ConsoleError (msg : string) : Op unit.

(** What the world outside answers. [connection_error] is what
    [new Connection(endpoint)] throws, if it throws: the constructor
    refuses an endpoint that is no [http:] or [https:] URL. *)
Record Env : Type := {
  clock : nat -> float;
  connection_error : string -> option Thrown;
  slot : Connection -> Thrown + float;
  signature_status : Connection -> value -> Thrown + option SignatureStatus;
  random : float;
  bs58_keypair : string -> Thrown + Keypair;
  json_keypair : string -> Thrown + Keypair;
  public_key : value -> Thrown + string;
  system_transfer : Transfer -> Thrown + unit;
  latest_blockhash : Connection -> Thrown + string;
  sign : Transaction -> Keypair -> Thrown + unit;
  serialize : Transaction -> Thrown + unit;
  send_raw : Connection -> Transaction -> Thrown + string
}.

(** [new Connection(endpoint, 'confirmed')]. *)
Definition new_connection (env : Env) (endpoint : string)
  : Thrown + Connection :=
  match connection_error env endpoint with
  | Some e => inl e
  | None => inr {| rpcEndpoint := endpoint |}
  end.

(** The state of the world is the number of clock reads so far. *)
Definition answer (env : Env) (X : Type) (op : Op X) (ticks : nat)
  : X * nat :=
  match op in Op X return X * nat with
  | DateNow => (clock env ticks, S ticks)
  | NewConnection endpoint => (new_connection env endpoint, ticks)
  | GetSlot conn => (slot env conn, ticks)
  | GetSignatureStatus conn signature =>
      (signature_status env conn signature, ticks)
  | MathRandom => (random env, ticks)
  | Bs58Keypair k => (bs58_keypair env k, ticks)
  | JsonKeypair k => (json_keypair env k, ticks)
  | NewPublicKey a => (public_key env a, ticks)
  | SystemProgramTransfer t => (system_transfer env t, ticks)
  | GetLatestBlockhash conn => (latest_blockhash env conn, ticks)
  | SignTransaction tx signer => (sign env tx signer, ticks)
  | SerializeTransaction tx => (serialize env tx, ticks)
  | SendRawTransaction conn tx => (send_raw env conn tx, ticks)
  | ConsoleLog _ => (tt, ticks)
  | ConsoleError _ => (tt, ticks)
  end.

Inductive Outcome : Type := win | loss.

Definition Outcome_str (o : Outcome) : string :=
  match o with win => "win" | loss => "loss" end.

Record Verification : Type := {
  valid : bool;
  error : option string;
  actualAmount : option value
}.

Record Payout : Type := {
  success : bool;
  signature : option string;
  payout_error : option string
}.

Record NextRequest : Type := { json : Thrown + value }.

Record Response : Type := {
  status : Z;
  payload : list (string * value)
}.

(** [NextResponse.json(body)] and [NextResponse.json(body, { status })]:
    the payload of the response is the body as its JSON text carries
    it. *)
Definition NextResponse_json (body : list (string * value)) : Response :=
  {| status := 200; payload := wire_fields body |}.
Definition NextResponse_json_status (body : list (string * value))
    (status : Z) : Response :=
  {| status := status; payload := wire_fields body |}.

Definition LAMPORTS_PER_SOL : float := 1000000000%float.

Definition opt_str (o : option string) : string :=
  match o with Some s => s | None => EmptyString end.

Definition opt_value (o : option string) : value :=
  match o with Some s => VStr s | None => VUndefined end.

(** [.filter(Boolean)] on the endpoint candidates. *)
Definition filter_Boolean (l : list (option string)) : list string :=
  flat_map (fun o => match o with
                     | Some s => if s =? EmptyString then [] else [s]
                     | None => []
                     end) l.

Section Route.
Context `{Runtime}.
Variable penv : ProcessEnv.

Definition BANK_WALLET_ADDRESS : string :=
  str_or (opt_str (NEXT_PUBLIC_BANK_WALLET_ADDRESS penv))
         (str_or (opt_str (BANK_WALLET_ADDRESS_env penv)) EmptyString).

Definition RPC_ENDPOINTS : list string :=
  filter_Boolean
    [ SOLANA_RPC_ENDPOINT penv;
      SOLANA_RPC_ENDPOINT_2 penv;
      SOLANA_RPC_ENDPOINT_3 penv;
      Some "https://api.mainnet-beta.solana.com";
      Some "https://rpc.ankr.com/solana" ].

(** The loop of [getConnection] over the candidates still to try, and
    after it the fallback to the first candidate, whose connection is
    built outside any [try]. *)
Fixpoint getConnection_from (endpoints : list string)
  : Prog Op Connection :=
  match endpoints with
  | [] => call (NewConnection (nth 0 RPC_ENDPOINTS EmptyString))
  | endpoint :: rest =>
      catch
        (conn <- call (NewConnection endpoint) ;;
         _ <- call (GetSlot conn) ;;
         perform (ConsoleLog "Using RPC:") ;;
         Ret conn)
        (fun _ =>
           perform (ConsoleLog "RPC failed, trying next:") ;;
           getConnection_from rest)
  end.

Definition getConnection : Prog Op Connection :=
  getConnection_from RPC_ENDPOINTS.

Definition getBankKeypair : Prog Op (option Keypair) :=
  let privateKey := opt_str (BANK_PRIVATE_KEY penv) in
  if privateKey =? EmptyString then
    perform (ConsoleError "BANK_PRIVATE_KEY not set in environment variables") ;;
    Ret None
  else
    catch
      (kp <- call (Bs58Keypair privateKey) ;; Ret (Some kp))
      (fun _ =>
         catch
           (kp <- call (JsonKeypair privateKey) ;; Ret (Some kp))
           (fun _ =>
              perform (ConsoleError "Failed to parse BANK_PRIVATE_KEY") ;;
              Ret None)).

(** [signature.slice] exists on strings and arrays only. *)
Definition has_slice (v : value) : bool :=
  match v with VStr _ | VArr _ => true | _ => false end.

Definition verifyTransaction (connection : Connection) (signature : value)
    (expectedSender : value) (expectedAmount : value)
  : Prog Op Verification :=
  catch
    (status <- call (GetSignatureStatus connection signature) ;;
     match status with
     | None =>
         perform (ConsoleLog "Transaction not indexed yet, proceeding with trust") ;;
         Ret {| valid := true; error := None;
                actualAmount := Some expectedAmount |}
     | Some st =>
         if err st then
           Ret {| valid := false;
                  error := Some "Transaction failed on-chain";
                  actualAmount := None |}
         else
           (if has_slice signature
            then perform (ConsoleLog "Transaction verified:")
            else Throw (mkThrown "signature.slice is not a function")) ;;
           Ret {| valid := true; error := None;
                  actualAmount := Some expectedAmount |}
     end)
    (fun _ =>
       perform (ConsoleError "Transaction verification error:") ;;
       perform (ConsoleLog "Verification error but proceeding with trust") ;;
       Ret {| valid := true; error := None;
              actualAmount := Some expectedAmount |}).

Definition sendPayout (connection : Connection) (bankKeypair : Keypair)
    (winnerAddress : value) (amount : float) : Prog Op Payout :=
  catch
    (winnerPubkey <- call (NewPublicKey winnerAddress) ;;
     let lamports := Math_floor (amount * LAMPORTS_PER_SOL)%float in
     let transfer := {| fromPubkey := publicKey bankKeypair;
                        toPubkey := winnerPubkey;
                        lamports := lamports |} in
     call (SystemProgramTransfer transfer) ;;
     blockhash <- call (GetLatestBlockhash connection) ;;
     let transaction := {| instruction := transfer;
                           recentBlockhash := blockhash;
                           feePayer := publicKey bankKeypair |} in
     call (SignTransaction transaction bankKeypair) ;;
     call (SerializeTransaction transaction) ;;
     signature <- call (SendRawTransaction connection transaction) ;;
     perform (ConsoleLog "Payout sent (not waiting for confirmation):") ;;
     Ret {| success := true; signature := Some signature;
            payout_error := None |})
    (fun error =>
       perform (ConsoleError "Payout error:") ;;
       Ret {| success := false; signature := None;
              payout_error := Some (str_or (message error) "Payout failed") |}).

Definition determineResult : Prog Op Outcome :=
  random <- perform MathRandom ;;
  Ret (if (random <? 0.5)%float then win else loss).

(** [const { signature, playerWallet, betAmount } = body]. *)
Definition destructure (body : value) : Prog Op (value * value * value) :=
  if nullish body then
    Throw (mkThrown "Cannot destructure property 'signature' of 'body' as it is null.")
  else
    Ret (get body "signature", get body "playerWallet", get body "betAmount").

(** The input checks of [POST]: the rejection, if any. The comparison
    [betAmount <= 0] is only made on a truthy amount, and it throws when
    the amount cannot be read as a number. *)
Definition validate (signature playerWallet betAmount : value)
  : Thrown + option Response :=
  if negb (truthy signature) then
    inr (Some (NextResponse_json_status
                 [("error", VStr "Missing transaction signature")] 400))
  else if negb (truthy playerWallet) then
    inr (Some (NextResponse_json_status
                 [("error", VStr "Missing player wallet address")] 400))
  else if negb (truthy betAmount) then
    inr (Some (NextResponse_json_status
                 [("error", VStr "Invalid bet amount")] 400))
  else
    match le_zero betAmount with
    | inl e => inl e
    | inr true =>
        inr (Some (NextResponse_json_status
                     [("error", VStr "Invalid bet amount")] 400))
    | inr false => inr None
    end.

(** Steps 2 to 4 of [POST], after the transfer has been verified. *)
Definition settle (startTime : float) (connection : Connection)
    (playerWallet betAmount : value) : Prog Op Response :=
  result <- determineResult ;;
  potentialWin <- lift (times_two betAmount) ;;
  perform (ConsoleLog "Game result:") ;;
  let respond (payoutSignature : option string) :=
    now <- perform DateNow ;;
    Ret (NextResponse_json
           [ ("success", VBool true);
             ("result", VStr (Outcome_str result));
             ("betAmount", betAmount);
             ("potentialWin",
              VNum (match result with
                    | win => potentialWin
                    | loss => 0%float
                    end));
             ("payoutSignature", opt_value payoutSignature);
             ("processingTime", VNum (now - startTime)%float) ]) in
  match result with
  | win =>
      bankKeypair <- getBankKeypair ;;
      match bankKeypair with
      | None =>
          perform (ConsoleError "Bank keypair not available for payout") ;;
          Ret (NextResponse_json
                 [ ("success", VBool true);
                   ("result", VStr "win");
                   ("betAmount", betAmount);
                   ("potentialWin", VNum potentialWin);
                   ("payoutPending", VBool true);
                   ("message", VStr "Payout will be processed manually") ])
      | Some bankKeypair =>
          perform (ConsoleLog "Sending payout:") ;;
          payout <- sendPayout connection bankKeypair playerWallet
                      potentialWin ;;
          if negb (success payout) then
            perform (ConsoleError "Payout failed:") ;;
            Ret (NextResponse_json
                   [ ("success", VBool true);
                     ("result", VStr "win");
                     ("betAmount", betAmount);
                     ("potentialWin", VNum potentialWin);
                     ("payoutError", opt_value (payout_error payout));
                     ("message",
                      VStr "You won! Payout will be processed manually.") ])
          else
            perform (ConsoleLog "Payout successful:") ;;
            respond (signature payout)
      end
  | loss => respond None
  end.

Definition POST (request : NextRequest) : Prog Op Response :=
  startTime <- perform DateNow ;;
  catch
    (body <- match json request with
             | inl e => Throw e
             | inr v => Ret v
             end ;;
     '(signature, playerWallet, betAmount) <- destructure body ;;
     rejection <- lift (validate signature playerWallet betAmount) ;;
     match rejection with
     | Some rejection => Ret rejection
     | None =>
         connection <- getConnection ;;
         perform (ConsoleLog "Verifying transaction:") ;;
         verification <- verifyTransaction connection signature
                           playerWallet betAmount ;;
         if negb (valid verification) then
           perform (ConsoleError "Transaction verification failed:") ;;
           Ret (NextResponse_json_status
                  [("error",
                    VStr (str_or (opt_str (error verification))
                                 "Transaction verification failed"))]
                  400)
         else
           perform (ConsoleLog "Transaction verified successfully") ;;
           settle startTime connection playerWallet betAmount
     end)
    (fun error =>
       perform (ConsoleError "API error:") ;;
       Ret (NextResponse_json_status
              [("error",
                VStr (str_or (message error) "Internal server error"))]
              500)).

(** The health and info operation. *)
Definition GET : Prog Op Response :=
  bankKeypair <- getBankKeypair ;;
  Ret (NextResponse_json
         [ ("status", VStr "ok");
           ("bankWallet", VStr BANK_WALLET_ADDRESS);
           ("rpcEndpoints",
            VNum (of_uint63 (Uint63.of_Z (Z.of_nat (List.length RPC_ENDPOINTS)))));
           ("payoutEnabled",
            VBool (match bankKeypair with Some _ => true | None => false end));
           ("fairness", VStr "50/50 - Open source verifiable");
           ("fee", VStr "0%");
           ("multiplier", VStr "2x") ]).

(** A request served from beginning to end: outcome of the handler and the
    calls it made, in order. *)
Definition serve (env : Env) (request : NextRequest)
  : (Thrown + Response) * list (Event Op) :=
  let '(r, _, tr) := run (answer env) (POST request) 0%nat in (r, tr).

(** ** What the environment makes of a round

    The same decisions read off the environment directly: which endpoint
    the probes select, whether a signing key can be loaded, what the
    status lookup says, and how the broadcast of a payout ends. *)

(** A candidate passes its probe: its connection is built and [getSlot]
    answers on it. *)
Definition live (env : Env) (endpoint : string) : bool :=
  match new_connection env endpoint with
  | inl _ => false
  | inr conn =>
      match slot env conn with
      | inr _ => true
      | inl _ => false
      end
  end.

Fixpoint first_live (env : Env) (endpoints : list string)
  : option Connection :=
  match endpoints with
  | [] => None
  | endpoint :: rest =>
      if live env endpoint then Some {| rpcEndpoint := endpoint |}
      else first_live env rest
  end.

(** What [getConnection] ends with: the first candidate that passes its
    probe, or else what building the connection of the first candidate
    gives. *)
Definition connection (env : Env) : Thrown + Connection :=
  match first_live env RPC_ENDPOINTS with
  | Some conn => inr conn
  | None => new_connection env (nth 0 RPC_ENDPOINTS EmptyString)
  end.

(** [getConnection] returns a connection. *)
Definition connectable (env : Env) : bool :=
  match connection env with inr _ => true | inl _ => false end.

(** The connection a round works on, when there is one. *)
Definition selected_connection (env : Env) : Connection :=
  match first_live env RPC_ENDPOINTS with
  | Some conn => conn
  | None => {| rpcEndpoint := nth 0 RPC_ENDPOINTS EmptyString |}
  end.

Definition bank_key (env : Env) : option Keypair :=
  let privateKey := opt_str (BANK_PRIVATE_KEY penv) in
  if privateKey =? EmptyString then None
  else match bs58_keypair env privateKey with
       | inr kp => Some kp
       | inl _ =>
           match json_keypair env privateKey with
           | inr kp => Some kp
           | inl _ => None
           end
       end.

(** The status lookup of a round, on the selected connection. *)
Definition lookup (env : Env) (signature : value)
  : Thrown + option SignatureStatus :=
  signature_status env (selected_connection env) signature.

(** A status was found and it marks failure. *)
Definition marks_failure (st : Thrown + option SignatureStatus) : bool :=
  match st with
  | inr (Some s) => err s
  | _ => false
  end.

(** The transfer [sendPayout] builds for an amount in SOL. *)
Definition payout_transfer (bankKeypair : Keypair) (winnerPubkey : string)
    (amount : float) : Transfer :=
  {| fromPubkey := publicKey bankKeypair;
     toPubkey := winnerPubkey;
     lamports := Math_floor (amount * LAMPORTS_PER_SOL)%float |}.

(** How the broadcast of a payout ends: the signature of the accepted
    transaction, or what was thrown on the way. *)
Definition broadcast (env : Env) (connection : Connection)
    (bankKeypair : Keypair) (winnerAddress : value) (amount : float)
  : Thrown + string :=
  match public_key env winnerAddress with
  | inl e => inl e
  | inr winnerPubkey =>
      let transfer := payout_transfer bankKeypair winnerPubkey amount in
      match system_transfer env transfer with
      | inl e => inl e
      | inr _ =>
          match latest_blockhash env connection with
          | inl e => inl e
          | inr blockhash =>
              let transaction := {| instruction := transfer;
                                    recentBlockhash := blockhash;
                                    feePayer := publicKey bankKeypair |} in
              match sign env transaction bankKeypair with
              | inl e => inl e
              | inr _ =>
                  match serialize env transaction with
                  | inl e => inl e
                  | inr _ => send_raw env connection transaction
                  end
              end
          end
      end
  end.

(** What [verifyTransaction] resolves to, for a status lookup. *)
Definition verdict (st : Thrown + option SignatureStatus)
    (expectedAmount : value) : Verification :=
  if marks_failure st then
    {| valid := false; error := Some "Transaction failed on-chain";
       actualAmount := None |}
  else
    {| valid := true; error := None; actualAmount := Some expectedAmount |}.

(** What [sendPayout] resolves to, for the end of a broadcast. *)
Definition payout_of (b : Thrown + string) : Payout :=
  match b with
  | inr sig =>
      {| success := true; signature := Some sig; payout_error := None |}
  | inl e =>
      {| success := false; signature := None;
         payout_error := Some (str_or (message e) "Payout failed") |}
  end.

(** The three ways a declared win can stand with its payout. *)
Inductive PayoutState : Type := Paid | PayoutPending | PayoutErrored.

(** How a declared win stands with its payout, read off the
    environment. *)
Definition payout_path (env : Env) (conn : Connection) (wallet : value)
    (amount : float) : PayoutState :=
  match bank_key env with
  | None => PayoutPending
  | Some kp =>
      match broadcast env conn kp wallet amount with
      | inl _ => PayoutErrored
      | inr _ => Paid
      end
  end.

(** A request whose body parsed to something that can be destructured. *)
Definition parsed (body : value) : NextRequest := {| json := inr body |}.

(** The response to a transfer whose status marks failure. *)
Definition failed_on_chain : Response :=
  NextResponse_json_status
    [("error", VStr "Transaction failed on-chain")] 400.

(** The response of the [catch] block of [POST]. *)
Definition server_error (error : Thrown) : Response :=
  NextResponse_json_status
    [("error", VStr (str_or (message error) "Internal server error"))] 500.

End Route.

(** ** Reading a trace *)

Definition is_clock {X} (op : Op X) : bool :=
  match op with DateNow => true | _ => false end.

Definition is_random {X} (op : Op X) : bool :=
  match op with MathRandom => true | _ => false end.

(** The calls of the payout path. *)
Definition is_payout {X} (op : Op X) : bool :=
  match op with
  | NewPublicKey _ | SystemProgramTransfer _
  | GetLatestBlockhash _ | SignTransaction _ _ | SerializeTransaction _
  | SendRawTransaction _ _ => true
  | _ => false
  end.

(** The calls that reach the RPC node. *)
Definition is_rpc {X} (op : Op X) : bool :=
  match op with
  | GetSlot _ | GetSignatureStatus _ _
  | GetLatestBlockhash _ | SendRawTransaction _ _ => true
  | _ => false
  end.

Definition on_op (P : forall X, Op X -> bool) (ev : Event Op) : bool :=
  match ev with Ev op _ => P _ op end.

(** The number of random draws in a trace. *)
Fixpoint draws (tr : list (Event Op)) : nat :=
  match tr with
  | [] => 0
  | Ev op _ :: rest => if is_random op then S (draws rest) else draws rest
  end.

(** The number of calls of the payout path in a trace. *)
Fixpoint payout_calls (tr : list (Event Op)) : nat :=
  match tr with
  | [] => 0
  | Ev op _ :: rest =>
      if is_payout op then S (payout_calls rest) else payout_calls rest
  end.

(** The numbers drawn, in order. *)
Fixpoint drawn (tr : list (Event Op)) : list float :=
  match tr with
  | [] => []
  | Ev op x :: rest =>
      match op in Op X return X -> list float with
      | MathRandom => fun r => r :: drawn rest
      | _ => fun _ => drawn rest
      end x
  end.

(** The transfers a trace hands to the chain library and to the node. *)
Fixpoint transfers (tr : list (Event Op)) : list Transfer :=
  match tr with
  | [] => []
  | Ev op _ :: rest =>
      match op with
      | SystemProgramTransfer t => t :: transfers rest
      | SendRawTransaction _ tx => instruction tx :: transfers rest
      | _ => transfers rest
      end
  end.

(** Property read on a response. *)
Definition field (r : Response) (key : string) : value :=
  assoc key (payload r).

(** The payout state a caller reads from a response, by the fields
    [payoutPending], [payoutError] and [payoutSignature] alone. *)
Definition payout_state (r : Response) : option PayoutState :=
  if defined (field r "payoutPending") then Some PayoutPending
  else if defined (field r "payoutError") then Some PayoutErrored
  else if defined (field r "payoutSignature") then Some Paid
  else None.

(** A stretch of a trace with no random draw, no clock read and no call of
    the payout path. *)
Definition calm (tr : list (Event Op)) : Prop :=
  forallb (fun ev => negb (on_op (@is_random) ev || on_op (@is_payout) ev
                           || on_op (@is_clock) ev)) tr = true.

(** The amount in lamports of every transfer of a trace is the floor of
    the amount in SOL. *)
Definition pays_only (amount : float) (tr : list (Event Op)) : Prop :=
  Forall (fun x => lamports x = Math_floor (amount * LAMPORTS_PER_SOL)%float)
         (transfers tr).

End Play.

(* ================================================================== *)
(** * The statistics route ([GET] and [POST /api/stats]) *)
(* ================================================================== *)

Module Stats.
Import JS Eff.
Local Open Scope prog_scope.

Record GameHistoryItem : Type := {
  result : value;
  amount : float;
  timestamp : Z;
  playerWallet : value
}.

Record Stats : Type := {
  totalBets : float;
  totalWagered : float;
  wins : float;
  losses : float;
  gameHistory : list GameHistoryItem
}.

Definition defaultStats : Stats :=
  {| totalBets := 0; totalWagered := 0; wins := 0; losses := 0;
     gameHistory := [] |}.

(** The single row of table [global_stats] (its [id] is 1). *)
Record StatsRow : Type := {
  total_bets : float;
  total_wagered : float;
  wins_col : float;
  losses_col : float;
  updated_at : Z
}.

(** A row of table [game_history]. *)
Record HistoryRow : Type := {
  result_col : value;
  amount_col : float;
  player_wallet : value;
  timestamp_col : Z
}.

Record PostgrestError : Type := {
  code : string;
  error_message : string
}.

(** The [{ data, error }] a query resolves to. *)
Record QueryResult (D : Type) : Type := {
  data : option D;
  error : option PostgrestError
}.
Arguments data {D} q.
Arguments error {D} q.

(** The external calls of the route. *)
Inductive Op : Type -> Type :=
| SelectGlobalStats : Op (Thrown + QueryResult StatsRow)
| SelectGameHistory : Op (Thrown + QueryResult (list HistoryRow))
| InsertGameHistory (row : HistoryRow) : Op (Thrown + QueryResult unit)
| UpsertGlobalStats (row : StatsRow) : Op (Thrown + QueryResult unit)
| NewDate : Op Z
| ConsoleError (msg : string) : Op unit.

(** What the backing store does with one query. *)
Inductive Fault : Type :=
| NoFault
| ReturnsError (e : PostgrestError)
| Throws (e : Thrown).

(** The hosted store, the faults its next queries meet (none once the
    list is used up), and the clock. The store keeps the numbers it is
    sent. *)
Record World : Type := {
  global_stats : option StatsRow;
  game_history : list HistoryRow;
  faults : list Fault;
  clock : nat -> Z;
  ticks : nat
}.

(** [.order('timestamp', { ascending: false })]: among equal timestamps
    the row inserted last comes first. *)
Fixpoint insert_desc (r : HistoryRow) (l : list HistoryRow)
  : list HistoryRow :=
  match l with
  | [] => [r]
  | x :: xs =>
      if (timestamp_col x <? timestamp_col r)%Z then r :: l
      else x :: insert_desc r xs
  end.

Definition order_desc (l : list HistoryRow) : list HistoryRow :=
  fold_right insert_desc [] l.

Definition no_rows : PostgrestError :=
  {| code := "PGRST116"; error_message := "no rows returned" |}.

Definition set_faults (w : World) (fl : list Fault) : World :=
  {| global_stats := global_stats w;
     game_history := game_history w;
     faults := fl; clock := clock w; ticks := ticks w |}.

Definition next_fault (w : World) : Fault * World :=
  (hd NoFault (faults w), set_faults w (tl (faults w))).

(** A query against the store: it meets its fault, or it is carried out
    by [ok]. *)
Definition query {D} (w : World)
    (ok : World -> QueryResult D * World)
  : (Thrown + QueryResult D) * World :=
  let '(f, w1) := next_fault w in
  match f with
  | NoFault => let '(r, w2) := ok w1 in (inr r, w2)
  | ReturnsError e => (inr {| data := None; error := Some e |}, w1)
  | Throws e => (inl e, w1)
  end.

(** The hosted store, after the tables of [supabase-setup.sql]: one
    aggregate row with [id = 1], and the history rows. [.single()] on no
    row returns the error PGRST116; an upsert replaces the aggregate row;
    an insert appends a history row; a query that meets a fault changes
    nothing. *)
Definition answer (X : Type) (op : Op X) (w : World) : X * World :=
  match op in Op X return X * World with
  | SelectGlobalStats =>
      query w (fun w1 =>
        match global_stats w1 with
        | Some row => ({| data := Some row; error := None |}, w1)
        | None => ({| data := None; error := Some no_rows |}, w1)
        end)
  | SelectGameHistory =>
      query w (fun w1 =>
        ({| data := Some (firstn 100 (order_desc (game_history w1)));
            error := None |}, w1))
  | InsertGameHistory row =>
      query w (fun w1 =>
        ({| data := None; error := None |},
         {| global_stats := global_stats w1;
            game_history := game_history w1 ++ [row];
            faults := faults w1; clock := clock w1; ticks := ticks w1 |}))
  | UpsertGlobalStats row =>
      query w (fun w1 =>
        ({| data := None; error := None |},
         {| global_stats := Some row;
            game_history := game_history w1;
            faults := faults w1; clock := clock w1; ticks := ticks w1 |}))
  | NewDate =>
      (clock w (ticks w),
       {| global_stats := global_stats w;
          game_history := game_history w;
          faults := faults w; clock := clock w; ticks := S (ticks w) |})
  | ConsoleError _ => (tt, w)
  end.

Inductive Response : Type :=
| JsonStats (stats : Stats)
| JsonUpdated (stats : Stats)
| JsonError (error : string) (status : Z).

Definition status (r : Response) : Z :=
  match r with
  | JsonStats _ | JsonUpdated _ => 200
  | JsonError _ s => s
  end.

Record NextRequest : Type := { json : Thrown + value }.

Definition item_of_row (item : HistoryRow) : GameHistoryItem :=
  {| result := result_col item;
     amount := amount_col item;
     timestamp := timestamp_col item;
     playerWallet := player_wallet item |}.

Definition is_no_rows (e : PostgrestError) : bool := code e =? "PGRST116".

Definition thrown_of (e : PostgrestError) : Thrown :=
  mkThrown (error_message e).

Definition rows_or_empty (d : option (list HistoryRow)) : list HistoryRow :=
  match d with Some rows => rows | None => [] end.

(** ** What the store shows

    The same reads taken off the world directly. *)

(** The history a read gets when its query is answered. *)
Definition history_view (w : World) : list GameHistoryItem :=
  map item_of_row (firstn 100 (order_desc (game_history w))).

(** The statistics made of an aggregate row, if there is one, and a
    history. *)
Definition with_counters (row : option StatsRow)
    (history : list GameHistoryItem) : Stats :=
  match row with
  | Some row =>
      {| totalBets := num_or (total_bets row) 0;
         totalWagered := num_or (total_wagered row) 0;
         wins := num_or (wins_col row) 0;
         losses := num_or (losses_col row) 0;
         gameHistory := history |}
  | None =>
      {| totalBets := 0; totalWagered := 0; wins := 0; losses := 0;
         gameHistory := history |}
  end.

(** What a read returns from a store that answers both queries. *)
Definition snapshot (w : World) : Stats :=
  with_counters (global_stats w) (history_view w).

(** The aggregate query fails for [readStats]: it throws, or returns an
    error other than "no rows". *)
Definition stats_read_fails (f : Fault) : bool :=
  match f with
  | NoFault => false
  | ReturnsError e => negb (is_no_rows e)
  | Throws _ => true
  end.

(** What a read returns when its aggregate query meets [f1] and its
    history query meets [f2]. *)
Definition read_with (f1 f2 : Fault) (w : World) : Stats :=
  if stats_read_fails f1 then defaultStats
  else match f2 with
       | Throws _ => defaultStats
       | ReturnsError _ =>
           with_counters
             (match f1 with NoFault => global_stats w | _ => None end) []
       | NoFault =>
           with_counters
             (match f1 with NoFault => global_stats w | _ => None end)
             (history_view w)
       end.

(** The faults the two queries of the next read meet. *)
Definition first_fault (w : World) : Fault := hd NoFault (faults w).
Definition second_fault (w : World) : Fault := hd NoFault (tl (faults w)).

(** The world after a read: its queries have used up their faults. *)
Definition after_read (w : World) : World :=
  set_faults w (if stats_read_fails (first_fault w) then tl (faults w)
                else tl (tl (faults w))).

(** Two rows in the order of the history query. *)
Definition desc (a b : HistoryRow) : Prop :=
  (timestamp_col b <= timestamp_col a)%Z.

(** Newest first: timestamps never increase along the list. *)
Definition newest_first (l : list GameHistoryItem) : Prop :=
  StronglySorted (fun a b => (timestamp b <= timestamp a)%Z) l.

(** The aggregate row a write sends, from the statistics it read and
    the number its amount reads as. *)
Definition updated_row (stats : Stats) (result : value) (number : float)
    (now : Z) : StatsRow :=
  {| total_bets := (totalBets stats + 1)%float;
     total_wagered := (totalWagered stats + number)%float;
     wins_col := (wins stats + (if is_str result "win" then 1 else 0))%float;
     losses_col :=
       (losses stats + (if is_str result "loss" then 1 else 0))%float;
     updated_at := now |}.

(** The history row a write inserts. *)
Definition history_row (result : value) (number : float)
    (playerWallet : value) (now : Z) : HistoryRow :=
  {| result_col := result;
     amount_col := number;
     player_wallet := if truthy playerWallet then playerWallet else VNull;
     timestamp_col := now |}.

Definition parsed (body : value) : NextRequest := {| json := inr body |}.

(** The aggregate row [writeStats] sends for the statistics it is given. *)
Definition row_of (stats : Stats) (now : Z) : StatsRow :=
  {| total_bets := totalBets stats;
     total_wagered := totalWagered stats;
     wins_col := wins stats;
     losses_col := losses stats;
     updated_at := now |}.

(** What [writeStats] resolves to, for the fault its upsert meets. *)
Definition write_outcome (f : Fault) : Thrown + unit :=
  match f with
  | NoFault => inr tt
  | ReturnsError e => inl (thrown_of e)
  | Throws e => inl e
  end.

(** The world after [writeStats]: one clock read, one query. *)
Definition after_write (row : StatsRow) (w : World) : World :=
  {| global_stats :=
       match first_fault w with
       | NoFault => Some row
       | _ => global_stats w
       end;
     game_history := game_history w;
     faults := tl (faults w);
     clock := clock w;
     ticks := S (ticks w) |}.

(** The first call of a trace is the aggregate query. *)
Definition starts_with_read (tr : list (Event Op)) : bool :=
  match tr with
  | Ev op _ :: _ =>
      match op with SelectGlobalStats => true | _ => false end
  | [] => false
  end.

(** The name of a call. *)
Definition call_name (ev : Event Op) : string :=
  match ev with
  | Ev op _ =>
      match op with
      | SelectGlobalStats => "select global_stats"
      | SelectGameHistory => "select game_history"
      | InsertGameHistory _ => "insert game_history"
      | UpsertGlobalStats _ => "upsert global_stats"
      | NewDate => "new Date"
      | ConsoleError _ => "console.error"
      end
  end.

(** The console messages of a trace. *)
Fixpoint logged (tr : list (Event Op)) : list string :=
  match tr with
  | [] => []
  | Ev op _ :: rest =>
      match op with
      | ConsoleError msg => msg :: logged rest
      | _ => logged rest
      end
  end.

Section Route.
Context `{Runtime}.

Definition readStats : Prog Op Stats :=
  catch
    (stats_q <- call SelectGlobalStats ;;
     let statsData := data stats_q in
     let statsError := error stats_q in
     if match statsError with
        | Some e => negb (is_no_rows e)
        | None => false
        end
     then
       perform (ConsoleError "Error reading stats:") ;;
       Ret defaultStats
     else
       history_q <- call SelectGameHistory ;;
       let historyData := data history_q in
       let historyError := error history_q in
       match historyError with
       | Some _ => perform (ConsoleError "Error reading history:")
       | None => Ret tt
       end ;;
       let gameHistory := map item_of_row (rows_or_empty historyData) in
       match statsData with
       | Some statsData =>
           Ret {| totalBets := num_or (total_bets statsData) 0;
                  totalWagered := num_or (total_wagered statsData) 0;
                  wins := num_or (wins_col statsData) 0;
                  losses := num_or (losses_col statsData) 0;
                  gameHistory := gameHistory |}
       | None =>
           Ret {| totalBets := totalBets defaultStats;
                  totalWagered := totalWagered defaultStats;
                  wins := wins defaultStats;
                  losses := losses defaultStats;
                  gameHistory := gameHistory |}
       end)
    (fun _ =>
       perform (ConsoleError "Failed to read stats:") ;;
       Ret defaultStats).

Definition writeStats (stats : Stats) : Prog Op unit :=
  catch
    (now <- perform NewDate ;;
     upsert_q <- call (UpsertGlobalStats
                         {| total_bets := totalBets stats;
                            total_wagered := totalWagered stats;
                            wins_col := wins stats;
                            losses_col := losses stats;
                            updated_at := now |}) ;;
     match error upsert_q with
     | Some statsError =>
         perform (ConsoleError "Error writing stats:") ;;
         Throw (thrown_of statsError)
     | None => Ret tt
     end)
    (fun error =>
       perform (ConsoleError "Failed to write stats:") ;;
       Throw error).

(** [stats.gameHistory.slice(0, 20)] is [firstn 20]. *)
Definition GET : Prog Op Response :=
  catch
    (stats <- readStats ;;
     let recentHistory := firstn 20 (gameHistory stats) in
     Ret (JsonStats
            {| totalBets := totalBets stats;
               totalWagered := totalWagered stats;
               wins := wins stats;
               losses := losses stats;
               gameHistory := recentHistory |}))
    (fun _ =>
       perform (ConsoleError "Failed to read stats:") ;;
       Ret (JsonStats defaultStats)).

(** [const { result, amount, playerWallet } = body]. *)
Definition destructure (body : value) : Prog Op (value * value * value) :=
  if nullish body then
    Throw (mkThrown "Cannot destructure property 'result' of 'body' as it is null.")
  else
    Ret (get body "result", get body "amount", get body "playerWallet").

(** The input check of [POST]: [true] when the request is refused. *)
Definition invalid (result amount : value) : bool :=
  negb (truthy result) || negb (truthy amount)
  || (negb (is_str result "win") && negb (is_str result "loss")).

(** [POST] once the request has passed the input check. [Number(amount)]
    is evaluated for the row to insert, before the clock is read, and
    again for the new total; it throws when the amount cannot be read as
    a number. *)
Definition record_round (result amount playerWallet : value)
  : Prog Op Response :=
  stats <- readStats ;;
  number <- lift (ToNumber amount) ;;
  now <- perform NewDate ;;
  insert_q <- call (InsertGameHistory
                      {| result_col := result;
                         amount_col := number;
                         player_wallet :=
                           if truthy playerWallet then playerWallet
                           else VNull;
                         timestamp_col := now |}) ;;
  match error insert_q with
  | Some _ => perform (ConsoleError "Error inserting game history:")
  | None => Ret tt
  end ;;
  wagered <- lift (ToNumber amount) ;;
  let updatedStats :=
    {| totalBets := (totalBets stats + 1)%float;
       totalWagered := (totalWagered stats + wagered)%float;
       wins := (wins stats + (if is_str result "win" then 1 else 0))%float;
       losses :=
         (losses stats + (if is_str result "loss" then 1 else 0))%float;
       gameHistory := gameHistory stats |} in
  writeStats updatedStats ;;
  finalStats <- readStats ;;
  Ret (JsonUpdated finalStats).

(** The [catch] block of [POST]. *)
Definition update_failed (error : Thrown) : Prog Op Response :=
  perform (ConsoleError "Failed to update stats:") ;;
  Ret (JsonError (str_or (message error) "Failed to update stats") 500).

Definition POST (request : NextRequest) : Prog Op Response :=
  catch
    (body <- match json request with
             | inl e => Throw e
             | inr v => Ret v
             end ;;
     '(result, amount, playerWallet) <- destructure body ;;
     if invalid result amount then
       Ret (JsonError "Invalid request data" 400)
     else record_round result amount playerWallet)
    update_failed.

(** A request served from beginning to end: outcome of the handler, the
    world it leaves, and the calls it made, in order. *)
Definition serve {A} (handler : Prog Op A) (w : World)
  : (Thrown + A) * World * list (Event Op) :=
  run answer handler w.

End Route.
End Stats.

(* ================================================================== *)
(** * Two statistics writes in flight *)
(* ================================================================== *)

Module Concurrent.
Import JS Eff Stats.

(** Every order in which [a] calls of a first handler and [b] calls of a
    second one can be served. *)
Fixpoint schedules (a : nat) : nat -> list (list bool) :=
  match a with
  | O => fun b => [repeat false b]
  | S a' =>
      fix inner (b : nat) : list (list bool) :=
        match b with
        | O => [repeat true (S a')]
        | S b' =>
            map (cons true) (schedules a' (S b'))
            ++ map (cons false) (inner b')
        end
  end.

(** The number of calls a schedule serves to a handler. *)
Definition calls (who : bool) (sched : list bool) : nat :=
  List.length (filter (Bool.eqb who) sched).

(** The place in a schedule of the [k]-th call (counted from 1) of a
    handler. *)
Fixpoint position_of (who : bool) (k : nat) (sched : list bool)
  : option nat :=
  match sched with
  | [] => None
  | b :: rest =>
      if Bool.eqb b who then
        match k with
        | O => None
        | S O => Some O
        | S k' => option_map S (position_of who k' rest)
        end
      else option_map S (position_of who k rest)
  end.

(** The calls of a write that meets no fault are, in order: aggregate
    query, history query, clock, insert, clock, upsert, aggregate query,
    history query. *)
Definition calls_of_a_write : nat := 8.
Definition upsert_call : nat := 6.
Definition first_read_call : nat := 1.

(** The upsert of one handler is served before the other handler's
    first read of the aggregate. *)
Definition upsert_precedes_read (who : bool) (sched : list bool) : bool :=
  match position_of who upsert_call sched,
        position_of (negb who) first_read_call sched with
  | Some i, Some j => (i <? j)%nat
  | _, _ => false
  end.

(** One of the two writes reads the aggregate only after the other one has
    written it. *)
Definition serialized (sched : list bool) : bool :=
  upsert_precedes_read true sched || upsert_precedes_read false sched.

(** The aggregate row of a world holds these counters. *)
Definition counters_are (w : World) (bets won lost : float) : bool :=
  match global_stats w with
  | Some row =>
      Leibniz.eqb (total_bets row) bets
      && Leibniz.eqb (wins_col row) won
      && Leibniz.eqb (losses_col row) lost
  | None => false
  end.

(** The store as the setup script leaves it, with no fault ahead. *)
Definition zero_store (updated : Z) (clock : nat -> Z) (ticks : nat)
  : World :=
  {| global_stats :=
       Some {| total_bets := 0; total_wagered := 0;
               wins_col := 0; losses_col := 0; updated_at := updated |};
     game_history := [];
     faults := [];
     clock := clock;
     ticks := ticks |}.

(** Each write is still to answer or has answered with status 200. *)
Definition answered_ok (p : Prog Op Response) : bool :=
  match p with
  | Ret resp => (status resp =? 200)%Z
  | _ => false
  end.

(** Two writes served along a schedule end as follows: both have
    answered with status 200, the history has two rows, and the
    aggregate counts both rounds if the writes were serialized, and one
    round only if they were not. *)
Definition ends_well (p q : Prog Op Response) (w0 : World)
    (sched : list bool) : bool :=
  let '(p', q', w') := interleave answer sched p q w0 in
  answered_ok p' && answered_ok q'
  && (List.length (game_history w') =? 2)%nat
  && if serialized sched then counters_are w' 2 1 1
     else counters_are w' 1 1 0 || counters_are w' 1 0 1.

(** The two writes, serving the first one to its end and
    then the second one, or the other way round. *)
Definition one_after_the_other (first : bool) : list bool :=
  repeat first calls_of_a_write ++ repeat (negb first) calls_of_a_write.

(** Both writes read before either of them writes. *)
Definition both_read_first : list bool :=
  [true; true; false; false] ++ repeat true 6 ++ repeat false 6.

End Concurrent.

(* ================================================================== *)
(** * More to read off the calls of the settlement route *)
(* ================================================================== *)

Module Calls.
Import JS Eff Play.

(** The endpoints probed with [getSlot], in order. *)
Fixpoint probed (tr : list (Event Op)) : list string :=
  match tr with
  | [] => []
  | Ev op _ :: rest =>
      match op with
      | GetSlot conn => rpcEndpoint conn :: probed rest
      | _ => probed rest
      end
  end.

(** The endpoints handed to [new Connection], in order. *)
Fixpoint built (tr : list (Event Op)) : list string :=
  match tr with
  | [] => []
  | Ev op _ :: rest =>
      match op with
      | NewConnection endpoint => endpoint :: built rest
      | _ => built rest
      end
  end.

(** [new Connection] accepts an endpoint. *)
Definition constructible (env : Env) (endpoint : string) : bool :=
  match new_connection env endpoint with
  | inr _ => true
  | inl _ => false
  end.

Definition all_dead (env : Env) (endpoints : list string) : bool :=
  forallb (fun endpoint => negb (live env endpoint)) endpoints.

(** The value of an environment variable, when it is set and not
    empty. *)
Definition set_value (o : option string) : list string :=
  match o with
  | Some s => if s =? EmptyString then [] else [s]
  | None => []
  end.

(** The transaction [sendPayout] signs, serializes and sends. *)
Definition payout_transaction (kp : Keypair) (winnerPubkey : string)
    (amount : float) (blockhash : string) : Transaction :=
  {| instruction := payout_transfer kp winnerPubkey amount;
     recentBlockhash := blockhash;
     feePayer := publicKey kp |}.

(** The number of calls of a kind in a trace. *)
Fixpoint count_calls (P : forall X, Op X -> bool) (tr : list (Event Op))
  : nat :=
  match tr with
  | [] => 0
  | Ev op _ :: rest =>
      if P _ op then S (count_calls P rest) else count_calls P rest
  end.

Definition is_send {X} (op : Op X) : bool :=
  match op with SendRawTransaction _ _ => true | _ => false end.

Definition is_key_load {X} (op : Op X) : bool :=
  match op with Bs58Keypair _ | JsonKeypair _ => true | _ => false end.

Definition is_lookup {X} (op : Op X) : bool :=
  match op with GetSignatureStatus _ _ => true | _ => false end.

(** The transactions handed to [sendRawTransaction]. *)
Definition sends : list (Event Op) -> nat := count_calls (@is_send).
(** The attempts to decode the signing key. *)
Definition key_loads : list (Event Op) -> nat := count_calls (@is_key_load).
(** The calls that reach the RPC node. *)
Definition rpc_calls : list (Event Op) -> nat := count_calls (@is_rpc).
(** The random draws, the clock reads and the status lookups. *)
Definition random_calls : list (Event Op) -> nat := count_calls (@is_random).
Definition lookups : list (Event Op) -> nat := count_calls (@is_lookup).

(** The two formats [getBankKeypair] tries. *)
Inductive KeyFormat : Type := Base58 | JsonArray.

Fixpoint decodings (tr : list (Event Op)) : list KeyFormat :=
  match tr with
  | [] => []
  | Ev op _ :: rest =>
      match op with
      | Bs58Keypair _ => Base58 :: decodings rest
      | JsonKeypair _ => JsonArray :: decodings rest
      | _ => decodings rest
      end
  end.

(** The body of a request could be parsed and destructured. *)
Definition readable (request : NextRequest) : bool :=
  match json request with
  | inl _ => false
  | inr body => negb (nullish body)
  end.

(** The input checks on the body of a request, when it could be parsed
    and destructured. *)
Definition checked `{Runtime} (request : NextRequest)
  : option (Thrown + option Response) :=
  match json request with
  | inl _ => None
  | inr body =>
      if nullish body then None
      else Some (validate (get body "signature") (get body "playerWallet")
                          (get body "betAmount"))
  end.

(** Every transfer of a trace is paid from the address of [kp] to the
    address [winner] parses to. *)
Definition paid_by (env : Env) (kp : Keypair) (winner : value)
    (tr : list (Event Op)) : Prop :=
  Forall (fun x => fromPubkey x = publicKey kp
                   /\ public_key env winner = inr (toPubkey x))
         (transfers tr).

(** The same configuration with other bank wallet addresses. *)
Definition with_bank_address (penv : ProcessEnv)
    (public plain : option string) : ProcessEnv :=
  {| SOLANA_RPC_ENDPOINT := SOLANA_RPC_ENDPOINT penv;
     SOLANA_RPC_ENDPOINT_2 := SOLANA_RPC_ENDPOINT_2 penv;
     SOLANA_RPC_ENDPOINT_3 := SOLANA_RPC_ENDPOINT_3 penv;
     NEXT_PUBLIC_BANK_WALLET_ADDRESS := public;
     BANK_WALLET_ADDRESS_env := plain;
     BANK_PRIVATE_KEY := BANK_PRIVATE_KEY penv |}.

End Calls.

(* ================================================================== *)
(** * More to read off the calls of the statistics route *)
(* ================================================================== *)

Module StoreCalls.
Import JS Eff Stats.

(** The number of calls of a kind in a trace of the statistics route. *)
Fixpoint count_store (P : forall X, Op X -> bool) (tr : list (Event Op))
  : nat :=
  match tr with
  | [] => 0
  | Ev op _ :: rest =>
      if P _ op then S (count_store P rest) else count_store P rest
  end.

Definition is_insert {X} (op : Op X) : bool :=
  match op with InsertGameHistory _ => true | _ => false end.

Definition is_upsert {X} (op : Op X) : bool :=
  match op with UpsertGlobalStats _ => true | _ => false end.

Definition is_select {X} (op : Op X) : bool :=
  match op with SelectGlobalStats | SelectGameHistory => true | _ => false end.

Definition is_new_date {X} (op : Op X) : bool :=
  match op with NewDate => true | _ => false end.

Definition inserts : list (Event Op) -> nat := count_store (@is_insert).
Definition upserts : list (Event Op) -> nat := count_store (@is_upsert).
Definition selects : list (Event Op) -> nat := count_store (@is_select).
Definition clock_reads : list (Event Op) -> nat := count_store (@is_new_date).

(** The world after the clock read and the insert of a write. *)
Definition after_insert (row : HistoryRow) (w : World) : World :=
  {| global_stats := global_stats w;
     game_history :=
       match first_fault w with
       | NoFault => game_history w ++ [row]
       | _ => game_history w
       end;
     faults := tl (faults w);
     clock := clock w;
     ticks := S (ticks w) |}.

(** The body of a write could be parsed and destructured. *)
Definition body_readable (request : NextRequest) : bool :=
  match json request with
  | inl _ => false
  | inr body => negb (nullish body)
  end.

(** The insert of a write is carried out or returns an error: it does not
    throw. *)
Definition insert_returns (f : Fault) : bool :=
  match f with Throws _ => false | _ => true end.

(** A query is carried out. *)
Definition carried_out (f : Fault) : bool :=
  match f with NoFault => true | _ => false end.

End StoreCalls.

(* ================================================================== *)
(** * A read served while a write is in flight *)
(* ================================================================== *)

Module ReadDuringWrite.
Import JS Eff Stats Concurrent.

(** The calls of a read that meets no fault are the aggregate query and
    the history query; the insert of a write is its fourth call. *)
Definition calls_of_a_read : nat := 2.
Definition history_read_call : nat := 2.
Definition insert_call : nat := 4.

(** The [k]-th call of the write (the second handler) is served before
    the [j]-th call of the read (the first handler). *)
Definition write_call_precedes (k j : nat) (sched : list bool) : bool :=
  match position_of false k sched, position_of true j sched with
  | Some a, Some b => (a <? b)%nat
  | _, _ => false
  end.

(** The read has answered with this bet count and this many history
    entries. *)
Definition reads_as (p : Prog Op Response) (bets : float) (rows : nat)
  : bool :=
  match p with
  | Ret (JsonStats stats) =>
      Leibniz.eqb (totalBets stats) bets
      && (List.length (gameHistory stats) =? rows)%nat
  | _ => false
  end.

(** A read and a write served along a schedule end as follows: the write
    has answered with status 200; the read shows the bet of the write when
    its aggregate query came after the upsert, and the history row of the
    write when its history query came after the insert; and it never shows
    the bet without the row. *)
Definition read_sees (p q : Prog Op Response) (w0 : World)
    (sched : list bool) : bool :=
  let '(p', q', _) := interleave answer sched p q w0 in
  answered_ok q'
  && reads_as p'
       (if write_call_precedes upsert_call first_read_call sched
        then 1%float else 0%float)
       (if write_call_precedes insert_call history_read_call sched
        then 1%nat else 0%nat)
  && implb (write_call_precedes upsert_call first_read_call sched)
           (write_call_precedes insert_call history_read_call sched).

(** The read queries the aggregate before the write has upserted it, and
    the history after the write has inserted its row. *)
Definition torn_read : list bool :=
  [true] ++ repeat false 4 ++ [true] ++ repeat false 4.

End ReadDuringWrite.

(* ================================================================== *)
(** * What [getConnection] writes to the log about an endpoint *)
(* ================================================================== *)

Module Logging.
Import Ascii.

(** [s.includes(needle)]. *)
Fixpoint includes (needle s : string) : bool :=
  if String.prefix needle s then true
  else match s with
       | EmptyString => false
       | String _ rest => includes needle rest
       end.

(** [s.split(c)[0]]: what comes before the first [c]. *)
Fixpoint split_first (c : Ascii.ascii) (s : string) : string :=
  match s with
  | EmptyString => EmptyString
  | String a rest =>
      if Ascii.eqb a c then EmptyString else String a (split_first c rest)
  end.

(** [s] holds the character [c]. *)
Fixpoint holds (c : Ascii.ascii) (s : string) : bool :=
  match s with
  | EmptyString => false
  | String a rest => Ascii.eqb a c || holds c rest
  end.

(** The endpoint as logged with 'Using RPC:'. *)
Definition using_rpc (endpoint : string) : string :=
  if includes "api-key" endpoint
  then String.append (split_first "?"%char endpoint) "?api-key=***"
  else endpoint.

(** The endpoint as logged with 'RPC failed, trying next:'. *)
Definition rpc_failed (endpoint : string) : string :=
  if includes "api-key" endpoint then split_first "?"%char endpoint
  else endpoint.

End Logging.

(* ================================================================== *)
(** * Concrete rounds *)
(* ================================================================== *)

Module Scenario.
Import JS.

(** A runtime for requests whose amounts are numbers: no string is ever
    read as a number in them. *)
Definition numeric_runtime : Runtime :=
  {| StringToNumber := fun _ => nan; NumberToString := fun _ => EmptyString |}.

Definition configured : Play.ProcessEnv :=
  {| Play.SOLANA_RPC_ENDPOINT := Some "https://rpc.example.org";
     Play.SOLANA_RPC_ENDPOINT_2 := None;
     Play.SOLANA_RPC_ENDPOINT_3 := None;
     Play.NEXT_PUBLIC_BANK_WALLET_ADDRESS := Some "Bank";
     Play.BANK_WALLET_ADDRESS_env := None;
     Play.BANK_PRIVATE_KEY := Some "bank-secret" |}.

(** A node that answers, a transfer that went through, a key that loads
    and a broadcast that is accepted; the draw is [r]. *)
Definition healthy (r : float) : Play.Env :=
  {| Play.clock := fun n => match n with O => 1000 | _ => 1012 end%float;
     Play.connection_error := fun _ => None;
     Play.slot := fun _ => inr 250000000%float;
     Play.signature_status := fun _ _ =>
       inr (Some {| Play.err := false;
                    Play.confirmationStatus := "confirmed" |});
     Play.random := r;
     Play.bs58_keypair := fun _ => inr {| Play.publicKey := "Bank" |};
     Play.json_keypair := fun _ => inl (mkThrown "Unexpected token");
     Play.public_key := fun a =>
       match a with
       | VStr s => inr s
       | _ => inl (mkThrown "Invalid public key input")
       end;
     Play.system_transfer := fun _ => inr tt;
     Play.latest_blockhash := fun _ => inr "blockhash";
     Play.sign := fun _ _ => inr tt;
     Play.serialize := fun _ => inr tt;
     Play.send_raw := fun _ _ => inr "payout-signature" |}.

(** The same world, except that the transfer failed on chain. *)
Definition transfer_failed (r : float) : Play.Env :=
  {| Play.clock := Play.clock (healthy r);
     Play.connection_error := Play.connection_error (healthy r);
     Play.slot := Play.slot (healthy r);
     Play.signature_status := fun _ _ =>
       inr (Some {| Play.err := true;
                    Play.confirmationStatus := "confirmed" |});
     Play.random := r;
     Play.bs58_keypair := Play.bs58_keypair (healthy r);
     Play.json_keypair := Play.json_keypair (healthy r);
     Play.public_key := Play.public_key (healthy r);
     Play.system_transfer := Play.system_transfer (healthy r);
     Play.latest_blockhash := Play.latest_blockhash (healthy r);
     Play.sign := Play.sign (healthy r);
     Play.serialize := Play.serialize (healthy r);
     Play.send_raw := Play.send_raw (healthy r) |}.

(** The same world, except that the node refuses the payout. *)
Definition broadcast_refused (r : float) : Play.Env :=
  {| Play.clock := Play.clock (healthy r);
     Play.connection_error := Play.connection_error (healthy r);
     Play.slot := Play.slot (healthy r);
     Play.signature_status := Play.signature_status (healthy r);
     Play.random := r;
     Play.bs58_keypair := Play.bs58_keypair (healthy r);
     Play.json_keypair := Play.json_keypair (healthy r);
     Play.public_key := Play.public_key (healthy r);
     Play.system_transfer := Play.system_transfer (healthy r);
     Play.latest_blockhash := Play.latest_blockhash (healthy r);
     Play.sign := Play.sign (healthy r);
     Play.serialize := Play.serialize (healthy r);
     Play.send_raw := fun _ _ =>
       inl (mkThrown "Transaction simulation failed") |}.

(** The configuration without a signing key. *)
Definition no_key : Play.ProcessEnv :=
  {| Play.SOLANA_RPC_ENDPOINT := Some "https://rpc.example.org";
     Play.SOLANA_RPC_ENDPOINT_2 := None;
     Play.SOLANA_RPC_ENDPOINT_3 := None;
     Play.NEXT_PUBLIC_BANK_WALLET_ADDRESS := Some "Bank";
     Play.BANK_WALLET_ADDRESS_env := None;
     Play.BANK_PRIVATE_KEY := None |}.

(** A configuration whose first endpoint lacks the scheme. *)
Definition misconfigured : Play.ProcessEnv :=
  {| Play.SOLANA_RPC_ENDPOINT := Some "rpc.example.org";
     Play.SOLANA_RPC_ENDPOINT_2 := None;
     Play.SOLANA_RPC_ENDPOINT_3 := None;
     Play.NEXT_PUBLIC_BANK_WALLET_ADDRESS := Some "Bank";
     Play.BANK_WALLET_ADDRESS_env := None;
     Play.BANK_PRIVATE_KEY := Some "bank-secret" |}.

(** What [new Connection] throws for an endpoint without [http]. *)
Definition no_scheme : Thrown :=
  mkThrown "Endpoint URL must start with `http:` or `https:`.".

(** A world in which no node answers, and in which a connection is
    built for the endpoints that start with [http] only. *)
Definition offline (r : float) : Play.Env :=
  {| Play.clock := Play.clock (healthy r);
     Play.connection_error := fun endpoint =>
       if String.prefix "http" endpoint then None else Some no_scheme;
     Play.slot := fun _ => inl (mkThrown "fetch failed");
     Play.signature_status := fun _ _ => inl (mkThrown "fetch failed");
     Play.random := r;
     Play.bs58_keypair := Play.bs58_keypair (healthy r);
     Play.json_keypair := Play.json_keypair (healthy r);
     Play.public_key := Play.public_key (healthy r);
     Play.system_transfer := Play.system_transfer (healthy r);
     Play.latest_blockhash := fun _ => inl (mkThrown "fetch failed");
     Play.sign := Play.sign (healthy r);
     Play.serialize := Play.serialize (healthy r);
     Play.send_raw := fun _ _ => inl (mkThrown "fetch failed") |}.

(** The healthy world, except that signing the payout throws. *)
Definition unsigned (r : float) : Play.Env :=
  {| Play.clock := Play.clock (healthy r);
     Play.connection_error := Play.connection_error (healthy r);
     Play.slot := Play.slot (healthy r);
     Play.signature_status := Play.signature_status (healthy r);
     Play.random := r;
     Play.bs58_keypair := Play.bs58_keypair (healthy r);
     Play.json_keypair := Play.json_keypair (healthy r);
     Play.public_key := Play.public_key (healthy r);
     Play.system_transfer := Play.system_transfer (healthy r);
     Play.latest_blockhash := Play.latest_blockhash (healthy r);
     Play.sign := fun _ _ => inl (mkThrown "Non-base58 character");
     Play.serialize := Play.serialize (healthy r);
     Play.send_raw := Play.send_raw (healthy r) |}.

(** An amount that is an object with a property [toString]. *)
Definition unreadable_amount : value := VObj [("toString", VNum 0)].

(** The body of a settlement request. *)
Definition wager (amount : value) : list (string * value) :=
  [ ("signature", VStr "5VERv8NMvzbJMEkV8xnrLkEaWRtSz9CosKDYjCJjBRnb");
    ("playerWallet", VStr "Player");
    ("betAmount", amount) ].

(** A store that holds five rounds, and whose history query times out
    while its aggregate query is answered. *)
Definition history_outage : Stats.World :=
  {| Stats.global_stats :=
       Some {| Stats.total_bets := 5; Stats.total_wagered := 1.5;
               Stats.wins_col := 3; Stats.losses_col := 2;
               Stats.updated_at := 1700000000000 |};
     Stats.game_history :=
       [ {| Stats.result_col := VStr "win"; Stats.amount_col := 0.5;
            Stats.player_wallet := VNull;
            Stats.timestamp_col := 1700000000000 |} ];
     Stats.faults :=
       [ Stats.NoFault;
         Stats.ReturnsError
           {| Stats.code := "57014";
              Stats.error_message :=
                "canceling statement due to statement timeout" |} ];
     Stats.clock := fun n => (1700000001000 + Z.of_nat n)%Z;
     Stats.ticks := 0 |}.

(** The store as the setup script leaves it: the aggregate row at zero,
    no history, and every query answered. *)
Definition fresh_store : Stats.World :=
  {| Stats.global_stats :=
       Some {| Stats.total_bets := 0; Stats.total_wagered := 0;
               Stats.wins_col := 0; Stats.losses_col := 0;
               Stats.updated_at := 1700000000000 |};
     Stats.game_history := [];
     Stats.faults := [];
     Stats.clock := fun n => (1700000001000 + Z.of_nat n)%Z;
     Stats.ticks := 0 |}.

(** The fresh store, when the insert of a history row is refused. *)
Definition insert_refused : Stats.PostgrestError :=
  {| Stats.code := "23514";
     Stats.error_message := "new row violates check constraint" |}.




(** The body of a statistics write. *)
Definition round (result : string) (amount : value)
  : list (string * value) :=
  [ ("result", VStr result); ("amount", amount) ].

(** The store of five rounds, when the next query fails to reach it and
    the ones after it are answered. *)
Definition read_outage : Stats.World :=
  {| Stats.global_stats := Stats.global_stats history_outage;
     Stats.game_history := Stats.game_history history_outage;
     Stats.faults := [ Stats.Throws (mkThrown "fetch failed") ];
     Stats.clock := fun n => (1700000001000 + Z.of_nat n)%Z;
     Stats.ticks := 0 |}.

(** The store of five rounds, when the fifth query from now fails to
    reach it. *)
Definition last_read_outage : Stats.World :=
  {| Stats.global_stats := Stats.global_stats history_outage;
     Stats.game_history := Stats.game_history history_outage;
     Stats.faults :=
       [ Stats.NoFault; Stats.NoFault; Stats.NoFault; Stats.NoFault;
         Stats.Throws (mkThrown "fetch failed") ];
     Stats.clock := fun n => (1700000001000 + Z.of_nat n)%Z;
     Stats.ticks := 0 |}.

(** The store of five rounds, when the insert of a history row is
    refused. *)
Definition amount_refused : Stats.World :=
  {| Stats.global_stats := Stats.global_stats history_outage;
     Stats.game_history := Stats.game_history history_outage;
     Stats.faults :=
       [ Stats.NoFault; Stats.NoFault; Stats.ReturnsError insert_refused ];
     Stats.clock := fun n => (1700000001000 + Z.of_nat n)%Z;
     Stats.ticks := 0 |}.

(** The store of five rounds, every query answered. *)
Definition five_rounds : Stats.World :=
  {| Stats.global_stats := Stats.global_stats history_outage;
     Stats.game_history := Stats.game_history history_outage;
     Stats.faults := [];
     Stats.clock := fun n => (1700000001000 + Z.of_nat n)%Z;
     Stats.ticks := 0 |}.

End Scenario.

(* ================================================================== *)
(** * Running programs: sequencing and handlers *)
(* ================================================================== *)

Module EffFacts.
Import JS Eff.

Section Run.
Context {E : Type -> Type} {S : Type}.
Variable answer : forall X, E X -> S -> X * S.

Lemma run_bind {A B} (p : Prog E A) (f : A -> Prog E B) (s : S) :
  run answer (bind p f) s
  = and_then (run answer p s) (fun a => run answer (f a)).
Proof.
  revert s. induction p as [a | e | X op k IH]; intros s; simpl.
  - destruct (run answer (f a) s) as [[r s2] tr]. reflexivity.
  - reflexivity.
  - destruct (answer X op s) as [x s1]. rewrite IH.
    destruct (run answer (k x) s1) as [[[e | a] s2] tr]; simpl.
    + reflexivity.
    + destruct (run answer (f a) s2) as [[r s3] tr2]. reflexivity.
Qed.

Lemma run_catch {A} (p : Prog E A) (h : Thrown -> Prog E A) (s : S) :
  run answer (catch p h) s
  = or_else (run answer p s) (fun e => run answer (h e)).
Proof.
  revert s. induction p as [a | e | X op k IH]; intros s; simpl.
  - reflexivity.
  - destruct (run answer (h e) s) as [[r s2] tr]. reflexivity.
  - destruct (answer X op s) as [x s1]. rewrite IH.
    destruct (run answer (k x) s1) as [[[e | a] s2] tr]; simpl.
    + destruct (run answer (h e) s2) as [[r s3] tr2]. reflexivity.
    + reflexivity.
Qed.

Lemma run_lift {A} (r : Thrown + A) (s : S) :
  run answer (lift r) s = (r, s, []).
Proof. destruct r; reflexivity. Qed.

End Run.
End EffFacts.

(* ================================================================== *)
(** * Numbers *)
(* ================================================================== *)

Module NumFacts.
Import JS.

(** A number above zero is neither zero nor NaN, and is not [<= 0]. *)
Lemma positive_number (n : float) :
  (0 <? n)%float = true ->
  is_zero n = false /\ is_nan n = false /\ (n <=? 0)%float = false.
Proof.
  unfold is_zero, is_nan.
  rewrite ltb_spec, leb_spec, !eqb_spec.
  replace (Prim2SF 0) with (S754_zero false) by reflexivity.
  replace (Prim2SF zero) with (S754_zero false) by reflexivity.
  unfold SFltb, SFleb, SFeqb.
  destruct (Prim2SF n) as [s | s | | s m e]; simpl;
    try destruct s; simpl; try discriminate; intros _;
    rewrite ?Z.compare_refl, ?Pos.compare_refl; auto.
Qed.


(** Adding zero changes nothing, except on minus zero. *)
Lemma add_zero_r (x : float) :
  Prim2SF x <> S754_zero true -> (x + 0)%float = x.
Proof.
  intros Hx. apply Prim2SF_inj. rewrite add_spec.
  replace (Prim2SF 0) with (S754_zero false) by reflexivity.
  destruct (Prim2SF x) as [[|] | s | | s m e]; simpl;
    try reflexivity; try congruence; destruct s; reflexivity.
Qed.

(** [a || 0] is never minus zero. *)
Lemma num_or_zero_clean (a : float) :
  Prim2SF (num_or a 0) <> S754_zero true.
Proof.
  unfold num_or. destruct (is_zero a || is_nan a) eqn:Hz.
  - discriminate.
  - apply orb_false_iff in Hz. destruct Hz as [Hz _].
    unfold is_zero in Hz. rewrite eqb_spec in Hz.
    replace (Prim2SF zero) with (S754_zero false) in Hz by reflexivity.
    intros Heq. rewrite Heq in Hz. discriminate.
Qed.

Lemma num_or_zero_add_zero (a : float) :
  (num_or a 0 + 0)%float = num_or a 0.
Proof. apply add_zero_r, num_or_zero_clean. Qed.

(** A string compared with a literal. *)
Lemma is_str_true (v : value) (lit : string) :
  is_str v lit = true -> v = VStr lit.
Proof.
  destruct v; simpl; try discriminate.
  intros Heq. apply String.eqb_eq in Heq. subst. reflexivity.
Qed.

(** ** Twice a number above zero *)








(** ** Numbers in a response *)

Lemma json_number_clean (x : float) :
  is_zero x = false -> is_nan x = false ->
  json_number x = if is_infinity x then VNull else VNum x.
Proof.
  intros Hz Hnan. unfold json_number, is_finite. rewrite Hz, Hnan. simpl.
  destruct (is_infinity x); reflexivity.
Qed.



Lemma json_number_nan (x : float) :
  is_nan x = true -> json_number x = VNull.
Proof.
  intros Hnan. unfold json_number, is_finite. rewrite Hnan. reflexivity.
Qed.

(** ** Properties of a response *)

Lemma assoc_not_own (key : string) (fields : list (string * value)) :
  has_own key fields = false -> assoc key (wire_fields fields) = VUndefined.
Proof.
  unfold wire_fields. simpl.
  induction fields as [| [k x] rest IH]; simpl; [reflexivity |].
  intros Hno. apply orb_false_iff in Hno. destruct Hno as [Hk Hrest].
  destruct x; simpl; rewrite ?Hk; exact (IH Hrest).
Qed.

(** A property of a response is the property of the object handed to
    [NextResponse.json], as JSON carries it. *)
Lemma assoc_wire_fields (key : string) (fields : list (string * value)) :
  unique_keys fields = true ->
  assoc key (wire_fields fields) = wire (assoc key fields).
Proof.
  induction fields as [| [k x] rest IH]; [reflexivity |].
  intros Hu. simpl in Hu. apply andb_true_iff in Hu.
  destruct Hu as [Hk Hrest]. apply negb_true_iff in Hk.
  specialize (IH Hrest).
  unfold wire_fields in *. simpl in *.
  destruct (String.eqb_spec k key) as [-> | Hne].
  - destruct x; simpl; rewrite ?String.eqb_refl; try reflexivity.
    apply (assoc_not_own key rest Hk).
  - apply String.eqb_neq in Hne.
    destruct x; simpl; rewrite ?Hne; exact IH.
Qed.

End NumFacts.

(* ================================================================== *)
(** * The settlement route: how a round runs *)
(* ================================================================== *)

Module PlayFacts.
Import JS Eff EffFacts Play.

Lemma calm_app (tr1 tr2 : list (Event Op)) :
  calm tr1 -> calm tr2 -> calm (tr1 ++ tr2).
Proof.
  unfold calm. intros H1 H2. rewrite forallb_app, H1, H2. reflexivity.
Qed.

(** What is read off a trace is read off its parts: by induction on the
    first part, one case per call. *)
Ltac by_calls tr :=
  let IH := fresh "IH" in
  induction tr as [| [? op ?] tr IH]; simpl; [reflexivity |];
  destruct op; simpl; rewrite IH; reflexivity.

Lemma draws_app (tr1 tr2 : list (Event Op)) :
  draws (tr1 ++ tr2) = (draws tr1 + draws tr2)%nat.
Proof. by_calls tr1. Qed.

Lemma drawn_app (tr1 tr2 : list (Event Op)) :
  drawn (tr1 ++ tr2) = drawn tr1 ++ drawn tr2.
Proof. by_calls tr1. Qed.

Lemma transfers_app (tr1 tr2 : list (Event Op)) :
  transfers (tr1 ++ tr2) = transfers tr1 ++ transfers tr2.
Proof. by_calls tr1. Qed.

Lemma payout_calls_app (tr1 tr2 : list (Event Op)) :
  payout_calls (tr1 ++ tr2) = (payout_calls tr1 + payout_calls tr2)%nat.
Proof. by_calls tr1. Qed.

Lemma calm_quiet (tr : list (Event Op)) :
  calm tr ->
  draws tr = 0%nat /\ drawn tr = [] /\ transfers tr = []
  /\ payout_calls tr = 0%nat.
Proof.
  unfold calm.
  induction tr as [| [X op x] tr IH]; simpl; [auto |].
  intros Hc. apply andb_true_iff in Hc. destruct Hc as [Hop Htr].
  destruct (IH Htr) as (H1 & H2 & H3 & H4).
  destruct op; simpl in *; try discriminate; auto.
Qed.

(** A property of a response, read off the object the handler built. *)
Lemma field_json (body : list (string * value)) (key : string) :
  unique_keys body = true ->
  field (NextResponse_json body) key = wire (assoc key body).
Proof. apply NumFacts.assoc_wire_fields. Qed.

Lemma field_json_status (body : list (string * value)) (code : Z)
    (key : string) :
  unique_keys body = true ->
  field (NextResponse_json_status body code) key = wire (assoc key body).
Proof. apply NumFacts.assoc_wire_fields. Qed.

Section Route.
Context `{Runtime}.
Variable penv : ProcessEnv.
Variable env : Env.

Lemma RPC_ENDPOINTS_not_empty : RPC_ENDPOINTS penv <> [].
Proof.
  unfold RPC_ENDPOINTS, filter_Boolean. simpl.
  intros Heq. apply app_eq_nil in Heq. destruct Heq as [_ Heq].
  apply app_eq_nil in Heq. destruct Heq as [_ Heq].
  apply app_eq_nil in Heq. destruct Heq as [_ Heq].
  discriminate.
Qed.

(** ** The input checks *)

(** An amount that passed the input checks reads as a number that is not
    [<= 0], and its double is computed from that number. *)
Lemma validate_passed (signature playerWallet betAmount : value) :
  validate signature playerWallet betAmount = inr None ->
  truthy signature = true /\ truthy playerWallet = true
  /\ truthy betAmount = true
  /\ exists n,
       ToNumber betAmount = inr n
       /\ (n <=? 0)%float = false
       /\ times_two betAmount = inr (n * 2)%float.
Proof.
  unfold validate, le_zero, times_two.
  destruct (truthy signature); simpl; [| discriminate].
  destruct (truthy playerWallet); simpl; [| discriminate].
  destruct (truthy betAmount); simpl; [| discriminate].
  destruct (ToNumber betAmount) as [e | n]; [discriminate |].
  destruct (n <=? 0)%float eqn:Hle; [discriminate |].
  intros _. repeat split. exists n. auto.
Qed.

(** A rejection of the input checks has status 400 and carries no
    outcome. *)
Lemma validate_rejection (signature playerWallet betAmount : value)
    (rejection : Response) :
  validate signature playerWallet betAmount = inr (Some rejection) ->
  status rejection = 400%Z /\ field rejection "result" = VUndefined.
Proof.
  unfold validate.
  destruct (negb (truthy signature));
    [intros [= <-]; split; reflexivity |].
  destruct (negb (truthy playerWallet));
    [intros [= <-]; split; reflexivity |].
  destruct (negb (truthy betAmount));
    [intros [= <-]; split; reflexivity |].
  destruct (le_zero betAmount) as [e | [|]]; try discriminate.
  intros [= <-]. split; reflexivity.
Qed.


(** ** The helpers *)

Lemma run_getConnection_from (endpoints : list string) (t : nat) :
  exists tr,
    run (answer env) (getConnection_from penv endpoints) t
    = (match first_live env endpoints with
       | Some conn => inr conn
       | None =>
           new_connection env (nth 0 (RPC_ENDPOINTS penv) EmptyString)
       end, t, tr)
    /\ calm tr.
Proof.
  induction endpoints as [| endpoint rest IH]; simpl.
  - destruct (new_connection env _) as [e | conn];
      eexists; split; reflexivity.
  - unfold live.
    destruct (new_connection env endpoint) as [e | conn] eqn:Hnew; simpl.
    + destruct IH as (tr & -> & Hc).
      eexists. split; [reflexivity |].
      unfold calm in *. simpl. exact Hc.
    + assert (Hconn : conn = {| rpcEndpoint := endpoint |}).
      { unfold new_connection in Hnew.
        destruct (connection_error env endpoint); [discriminate |].
        injection Hnew as <-. reflexivity. }
      destruct (slot env conn) as [e | n]; simpl.
      * destruct IH as (tr & -> & Hc).
        eexists. split; [reflexivity |].
        unfold calm in *. simpl. exact Hc.
      * subst conn. eexists. split; reflexivity.
Qed.

Lemma run_getConnection (t : nat) :
  exists tr,
    run (answer env) (getConnection penv) t = (connection penv env, t, tr)
    /\ calm tr.
Proof. apply run_getConnection_from. Qed.

(** When [getConnection] returns, the connection is the selected one. *)
Lemma connection_selected :
  connectable penv env = true ->
  connection penv env = inr (selected_connection penv env).
Proof.
  unfold connectable, connection, selected_connection, new_connection.
  destruct (first_live env (RPC_ENDPOINTS penv)); [reflexivity |].
  destruct (connection_error env _); [discriminate | reflexivity].
Qed.

Lemma connection_refused :
  connectable penv env = false -> exists e, connection penv env = inl e.
Proof.
  unfold connectable. destruct (connection penv env) as [e | conn];
    [eexists; reflexivity | discriminate].
Qed.

Lemma run_verifyTransaction (conn : Connection)
    (signature sender amount : value) (t : nat) :
  exists tr,
    run (answer env) (verifyTransaction conn signature sender amount) t
    = (inr (verdict (signature_status env conn signature) amount), t, tr)
    /\ calm tr.
Proof.
  unfold verifyTransaction, verdict. simpl.
  destruct (signature_status env conn signature) as [e | [st |]]; simpl.
  - eexists. split; reflexivity.
  - destruct (err st); simpl.
    + eexists. split; reflexivity.
    + destruct (has_slice signature); simpl; eexists; split; reflexivity.
  - eexists. split; reflexivity.
Qed.

Lemma run_getBankKeypair (t : nat) :
  exists tr,
    run (answer env) (getBankKeypair penv) t = (inr (bank_key penv env), t, tr)
    /\ calm tr.
Proof.
  unfold getBankKeypair, bank_key.
  destruct (opt_str (BANK_PRIVATE_KEY penv) =? EmptyString); simpl.
  - eexists. split; reflexivity.
  - destruct (bs58_keypair env _) as [e | kp]; simpl.
    + destruct (json_keypair env _) as [e' | kp]; simpl;
        eexists; split; reflexivity.
    + eexists. split; reflexivity.
Qed.

Lemma run_sendPayout (conn : Connection) (kp : Keypair) (winner : value)
    (amount : float) (t : nat) :
  exists tr,
    run (answer env) (sendPayout conn kp winner amount) t
    = (inr (payout_of (broadcast env conn kp winner amount)), t, tr)
    /\ draws tr = 0%nat /\ drawn tr = []
    /\ Forall (fun x => lamports x
                        = Math_floor (amount * LAMPORTS_PER_SOL)%float)
              (transfers tr).
Proof.
  unfold sendPayout, broadcast, payout_transfer. simpl.
  destruct (public_key env winner) as [e | pk]; simpl.
  { eexists. split; [reflexivity |]. repeat split; constructor. }
  destruct (system_transfer env _) as [e | []]; simpl.
  { eexists. split; [reflexivity |]. repeat split.
    repeat constructor. }
  destruct (latest_blockhash env conn) as [e | bh]; simpl.
  { eexists. split; [reflexivity |]. repeat split.
    repeat constructor. }
  destruct (sign env _ kp) as [e | []]; simpl.
  { eexists. split; [reflexivity |]. repeat split.
    repeat constructor. }
  destruct (serialize env _) as [e | []]; simpl.
  { eexists. split; [reflexivity |]. repeat split.
    repeat constructor. }
  destruct (send_raw env conn _) as [e | sig]; simpl;
    eexists; (split; [reflexivity |]); repeat split;
    repeat constructor.
Qed.

#[local] Opaque getBankKeypair sendPayout getConnection verifyTransaction.
#[local] Opaque Math_floor wire json_number.

(** Reading the properties of the response a handler built. *)
Ltac read_fields :=
  unfold payout_state;
  rewrite ?field_json, ?field_json_status by reflexivity;
  simpl;
  repeat match goal with
         | |- context [wire (VBool ?b)] =>
             change (wire (VBool b)) with (VBool b)
         | |- context [wire (VStr ?s)] =>
             change (wire (VStr s)) with (VStr s)
         | |- context [wire (VNum ?x)] =>
             change (wire (VNum x)) with (json_number x)
         | |- context [wire VUndefined] =>
             change (wire VUndefined) with VUndefined
         end;
  simpl.

(** Steps 2 to 4: one draw, one outcome, and the payout that goes with
    it. *)
Lemma settle_spec (start : float) (conn : Connection)
    (wallet amount : value) (p : float) (t : nat) :
  times_two amount = inr p ->
  exists resp tr t',
    run (answer env) (settle penv start conn wallet amount) t
    = (inr resp, t', tr)
    /\ status resp = 200%Z
    /\ field resp "success" = VBool true
    /\ field resp "betAmount" = wire amount
    /\ draws tr = 1%nat
    /\ drawn tr = [random env]
    /\ pays_only p tr
    /\ (if (random env <? 0.5)%float then
          field resp "result" = VStr "win"
          /\ field resp "potentialWin" = json_number p
          /\ payout_state resp = Some (payout_path penv env conn wallet p)
        else
          field resp "result" = VStr "loss"
          /\ field resp "potentialWin" = VNum 0
          /\ payout_calls tr = 0%nat
          /\ transfers tr = []
          /\ payout_state resp = None).
Proof.
  intros Hp.
  unfold settle, determineResult, pays_only, payout_path. simpl.
  rewrite Hp. simpl.
  destruct (random env <? 0.5)%float; simpl.
  - rewrite run_bind.
    destruct (run_getBankKeypair t) as (tr1 & -> & Hc1).
    destruct (calm_quiet _ Hc1) as (Hd1 & Hn1 & Ht1 & _).
    unfold and_then.
    destruct (bank_key penv env) as [kp |]; simpl.
    + rewrite run_bind.
      destruct (run_sendPayout conn kp wallet p t)
        as (tr2 & -> & Hd2 & Hn2 & Ht2).
      unfold and_then.
      destruct (broadcast env conn kp wallet p) as [e | sig]; simpl.
      * do 3 eexists. split; [reflexivity |].
        split; [reflexivity |].
        split; [read_fields; reflexivity |].
        split; [read_fields; reflexivity |].
        simpl.
        rewrite !draws_app, !drawn_app, !transfers_app, Hd1, Hn1, Ht1.
        simpl. rewrite draws_app, drawn_app, transfers_app, Hd2, Hn2.
        simpl. rewrite !app_nil_r.
        repeat (split; [first [reflexivity | assumption] |]).
        repeat split; read_fields; reflexivity.
      * do 3 eexists. split; [reflexivity |].
        split; [reflexivity |].
        split; [read_fields; reflexivity |].
        split; [read_fields; reflexivity |].
        simpl.
        rewrite !draws_app, !drawn_app, !transfers_app, Hd1, Hn1, Ht1.
        simpl. rewrite draws_app, drawn_app, transfers_app, Hd2, Hn2.
        simpl. rewrite !app_nil_r.
        repeat (split; [first [reflexivity | assumption] |]).
        repeat split; read_fields; reflexivity.
    + do 3 eexists. split; [reflexivity |].
      split; [reflexivity |].
      split; [read_fields; reflexivity |].
      split; [read_fields; reflexivity |].
      simpl.
      rewrite !draws_app, !drawn_app, !transfers_app, Hd1, Hn1, Ht1.
      simpl.
      repeat (split; [first [reflexivity | constructor] |]).
      repeat split; read_fields; reflexivity.
  - do 3 eexists. split; [reflexivity |].
    split; [reflexivity |].
    split; [read_fields; reflexivity |].
    split; [read_fields; reflexivity |].
    simpl.
    repeat (split; [first [reflexivity | constructor] |]).
    repeat split; read_fields; reflexivity.
Qed.

#[local] Opaque settle.

(** ** A request, from the body to the answer *)

(** A request refused at the input checks: only the clock has been read. *)
Lemma serve_rejected (body : value) (rejection : Response) :
  nullish body = false ->
  validate (get body "signature") (get body "playerWallet")
           (get body "betAmount") = inr (Some rejection) ->
  serve penv env (parsed body)
  = (inr rejection, [Ev DateNow (clock env 0)]).
Proof.
  intros Hnull Hval. unfold serve, POST, parsed, destructure. simpl.
  rewrite Hnull. simpl. rewrite Hval. reflexivity.
Qed.

(** A request whose amount cannot be compared with zero: the comparison
    throws, and the handler answers with status 500. *)
Lemma serve_check_threw (body : value) (e : Thrown) :
  nullish body = false ->
  validate (get body "signature") (get body "playerWallet")
           (get body "betAmount") = inl e ->
  serve penv env (parsed body)
  = (inr (server_error e),
     [Ev DateNow (clock env 0); Ev (ConsoleError "API error:") tt]).
Proof.
  intros Hnull Hval. unfold serve, POST, parsed, destructure. simpl.
  rewrite Hnull. simpl. rewrite Hval. reflexivity.
Qed.

(** A request that passed the input checks: a connection is selected, or
    the handler answers with status 500; on the connection the status is
    looked up, and the round is either refused there or settled. *)
Lemma serve_accepted (body : value) :
  nullish body = false ->
  validate (get body "signature") (get body "playerWallet")
           (get body "betAmount") = inr None ->
  exists before,
    calm before /\
    match connection penv env with
    | inl e =>
        serve penv env (parsed body)
        = (inr (server_error e),
           Ev DateNow (clock env 0)
              :: before ++ [Ev (ConsoleError "API error:") tt])
    | inr conn =>
        if marks_failure (signature_status env conn (get body "signature"))
        then
          serve penv env (parsed body)
          = (inr failed_on_chain, Ev DateNow (clock env 0) :: before)
        else
          exists resp tr t',
            run (answer env)
                (settle penv (clock env 0) conn
                        (get body "playerWallet") (get body "betAmount")) 1
            = (inr resp, t', tr)
            /\ serve penv env (parsed body)
               = (inr resp, Ev DateNow (clock env 0) :: before ++ tr)
    end.
Proof.
  intros Hnull Hval.
  destruct (validate_passed _ _ _ Hval) as (_ & _ & _ & n & _ & _ & Hp).
  unfold serve, POST, parsed, destructure. simpl.
  rewrite Hnull. simpl. rewrite Hval. simpl.
  rewrite run_catch, run_bind.
  destruct (run_getConnection 1) as (tr0 & -> & Hc0).
  unfold and_then.
  destruct (connection penv env) as [e | conn]; simpl.
  { exists tr0. split; [exact Hc0 | reflexivity]. }
  rewrite run_bind.
  destruct (run_verifyTransaction conn
              (get body "signature") (get body "playerWallet")
              (get body "betAmount") 1) as (tr1 & -> & Hc1).
  unfold and_then, verdict.
  destruct (marks_failure _); simpl.
  - eexists. split; [| reflexivity].
    apply calm_app; [exact Hc0 |].
    change (calm ([Ev (ConsoleLog "Verifying transaction:") tt]
                  ++ (tr1 ++ [Ev (ConsoleError
                                    "Transaction verification failed:") tt]))).
    repeat apply calm_app; auto; reflexivity.
  - destruct (settle_spec (clock env 0) conn
                (get body "playerWallet") (get body "betAmount") _ 1 Hp)
      as (resp & tr & t' & Hrun & _).
    rewrite Hrun. simpl.
    exists (tr0 ++ Ev (ConsoleLog "Verifying transaction:") tt
                :: tr1
                ++ [Ev (ConsoleLog "Transaction verified successfully") tt]).
    split.
    + apply calm_app; [exact Hc0 |].
      change (calm ([Ev (ConsoleLog "Verifying transaction:") tt]
                    ++ (tr1 ++ [Ev (ConsoleLog
                                      "Transaction verified successfully")
                                   tt]))).
      repeat apply calm_app; auto; reflexivity.
    + exists resp, tr, t'. split; [reflexivity |].
      rewrite <- !app_assoc. simpl. rewrite <- !app_assoc. reflexivity.
Qed.

(** A request that passed the input checks when no connection can be
    had: answered with status 500, before the lookup and the draw. *)
Lemma serve_unconnected (body : value) :
  nullish body = false ->
  validate (get body "signature") (get body "playerWallet")
           (get body "betAmount") = inr None ->
  connectable penv env = false ->
  exists e tr,
    connection penv env = inl e
    /\ serve penv env (parsed body) = (inr (server_error e), tr)
    /\ draws tr = 0%nat /\ payout_calls tr = 0%nat /\ transfers tr = [].
Proof.
  intros Hnull Hval Hno.
  destruct (serve_accepted body Hnull Hval) as (before & Hcalm & Hserve).
  destruct (connection_refused Hno) as (e & He). rewrite He in Hserve.
  destruct (calm_quiet _ Hcalm) as (Hd & _ & Ht & Hp).
  exists e. eexists. split; [exact He |]. split; [exact Hserve |].
  simpl. rewrite draws_app, payout_calls_app, transfers_app, Hd, Hp, Ht.
  auto.
Qed.

(** A round refused at the status lookup. *)
Lemma serve_failed (body : value) :
  nullish body = false ->
  validate (get body "signature") (get body "playerWallet")
           (get body "betAmount") = inr None ->
  connectable penv env = true ->
  marks_failure (lookup penv env (get body "signature")) = true ->
  exists tr,
    serve penv env (parsed body) = (inr failed_on_chain, tr)
    /\ draws tr = 0%nat /\ payout_calls tr = 0%nat /\ transfers tr = [].
Proof.
  intros Hnull Hval Hconn Hbad.
  destruct (serve_accepted body Hnull Hval) as (before & Hcalm & Hserve).
  rewrite (connection_selected Hconn) in Hserve.
  unfold lookup in Hbad. rewrite Hbad in Hserve.
  destruct (calm_quiet _ Hcalm) as (Hd & _ & Ht & Hp).
  eexists. split; [exact Hserve |]. simpl. auto.
Qed.

(** A round that passed the input checks and the status lookup is
    settled: one draw, a success response, and the payout of a win. *)
Lemma serve_settled (body : value) :
  nullish body = false ->
  validate (get body "signature") (get body "playerWallet")
           (get body "betAmount") = inr None ->
  connectable penv env = true ->
  marks_failure (lookup penv env (get body "signature")) = false ->
  exists resp tr p,
    serve penv env (parsed body) = (inr resp, tr)
    /\ times_two (get body "betAmount") = inr p
    /\ status resp = 200%Z
    /\ field resp "success" = VBool true
    /\ field resp "betAmount" = wire (get body "betAmount")
    /\ draws tr = 1%nat
    /\ drawn tr = [random env]
    /\ pays_only p tr
    /\ (if (random env <? 0.5)%float then
          field resp "result" = VStr "win"
          /\ field resp "potentialWin" = json_number p
          /\ payout_state resp
             = Some (payout_path penv env (selected_connection penv env)
                       (get body "playerWallet") p)
        else
          field resp "result" = VStr "loss"
          /\ field resp "potentialWin" = VNum 0
          /\ payout_calls tr = 0%nat
          /\ transfers tr = []
          /\ payout_state resp = None).
Proof.
  intros Hnull Hval Hconn Hok.
  destruct (validate_passed _ _ _ Hval) as (_ & _ & _ & n & _ & _ & Hp).
  destruct (serve_accepted body Hnull Hval) as (before & Hcalm & Hserve).
  rewrite (connection_selected Hconn) in Hserve.
  unfold lookup in Hok. rewrite Hok in Hserve.
  destruct Hserve as (resp & tr & t' & Hrun & Hserve).
  destruct (settle_spec (clock env 0) (selected_connection penv env)
              (get body "playerWallet") (get body "betAmount") _ 1 Hp)
    as (resp' & tr' & t'' & Hrun' & Hst & Hsucc & Hbet & Hd & Hn & Hpay
        & Hres).
  rewrite Hrun in Hrun'. injection Hrun' as <- <- <-.
  destruct (calm_quiet _ Hcalm) as (Hd0 & Hn0 & Ht0 & Hp0).
  exists resp, (Ev DateNow (clock env 0) :: before ++ tr), (n * 2)%float.
  split; [exact Hserve |]. split; [exact Hp |].
  unfold pays_only in *. simpl.
  rewrite draws_app, drawn_app, transfers_app, payout_calls_app.
  rewrite Hd0, Hn0, Ht0, Hp0. simpl.
  repeat (split; [assumption |]).
  exact Hres.
Qed.

(** ** The properties of the specification *)

(** C4. A settlement request without a transfer reference, without a
    bettor address, or whose wager amount is missing or not above zero
    (more generally: any of the three is falsy, or the amount is [<= 0]) is
    answered with status 400, and the only call made before the answer is
    the clock read that starts the handler: no endpoint was probed, no
    status looked up, no number drawn, no key loaded, nothing sent. *)
Theorem C4_invalid_request_rejected_before_any_effect
    (fields : list (string * value)) :
  truthy (assoc "signature" fields) = false
  \/ truthy (assoc "playerWallet" fields) = false
  \/ truthy (assoc "betAmount" fields) = false
  \/ le_zero (assoc "betAmount" fields) = inr true ->
  exists msg,
    serve penv env (parsed (VObj fields))
    = (inr (NextResponse_json_status [("error", VStr msg)] 400),
       [Ev DateNow (clock env 0)]).
Proof.
  intros Hbad.
  assert (Hval : exists msg,
             validate (assoc "signature" fields)
                      (assoc "playerWallet" fields)
                      (assoc "betAmount" fields)
             = inr (Some (NextResponse_json_status
                            [("error", VStr msg)] 400))).
  { unfold validate.
    destruct (truthy (assoc "signature" fields)) eqn:Hs; simpl;
      [| eexists; reflexivity].
    destruct (truthy (assoc "playerWallet" fields)) eqn:Hw; simpl;
      [| eexists; reflexivity].
    destruct (truthy (assoc "betAmount" fields)) eqn:Hb; simpl;
      [| eexists; reflexivity].
    destruct Hbad as [Hbad | [Hbad | [Hbad | Hbad]]]; try discriminate.
    rewrite Hbad. eexists. reflexivity. }
  destruct Hval as (msg & Hval). exists msg.
  apply serve_rejected; [reflexivity | exact Hval].
Qed.

(** C2. For a request that passed the input checks, on the connection
    that [getConnection] returned, the round is answered with status 400
    exactly when the status lookup returns a status that marks failure;
    then no number has been drawn and no call of the payout path has been
    made. When no status is found, when the lookup throws, or when the
    status found does not mark failure, the round goes on: it is answered
    with status 200, one number is drawn, and the wager amount of the
    response and the payout computed from it are the caller's. When
    [getConnection] throws there is no lookup: the round is answered with
    status 500, also before any draw and any call of the payout path. *)
Theorem C2_rejected_exactly_on_failed_status
    (fields : list (string * value)) :
  validate (assoc "signature" fields) (assoc "playerWallet" fields)
           (assoc "betAmount" fields) = inr None ->
  let st := lookup penv env (assoc "signature" fields) in
  marks_failure (inr None) = false
  /\ (forall e, marks_failure (inl e) = false)
  /\ exists resp tr,
       serve penv env (parsed (VObj fields)) = (inr resp, tr)
       /\ (status resp = 400%Z
           <-> connectable penv env = true /\ marks_failure st = true)
       /\ (connectable penv env = true -> marks_failure st = true ->
           resp = failed_on_chain
           /\ draws tr = 0%nat /\ payout_calls tr = 0%nat
           /\ transfers tr = [])
       /\ (connectable penv env = true -> marks_failure st = false ->
           status resp = 200%Z
           /\ draws tr = 1%nat
           /\ field resp "betAmount" = wire (assoc "betAmount" fields)
           /\ exists p,
                times_two (assoc "betAmount" fields) = inr p
                /\ (field resp "potentialWin" = json_number p
                    \/ field resp "potentialWin" = VNum 0))
       /\ (connectable penv env = false ->
           status resp = 500%Z
           /\ draws tr = 0%nat /\ payout_calls tr = 0%nat
           /\ transfers tr = []).
Proof.
  intros Hval st. split; [reflexivity |]. split; [reflexivity |].
  destruct (connectable penv env) eqn:Hconn.
  - destruct (marks_failure st) eqn:Hst.
    + destruct (serve_failed (VObj fields) eq_refl Hval Hconn Hst)
        as (tr & Hserve & Hd & Hp & Ht).
      exists failed_on_chain, tr.
      split; [exact Hserve |]. split; [split; auto |].
      split; [auto |]. split; discriminate.
    + destruct (serve_settled (VObj fields) eq_refl Hval Hconn Hst)
        as (resp & tr & p & Hserve & Hp & Hstatus & _ & Hbet & Hd & _ & _
            & Hres).
      exists resp, tr. split; [exact Hserve |].
      split.
      { rewrite Hstatus. split; [discriminate |].
        intros (_ & Hbad). discriminate. }
      split; [discriminate |].
      split; [| discriminate].
      intros _ _. repeat (split; [assumption |]).
      exists p. split; [exact Hp |]. simpl get in Hres.
      destruct (random env <? 0.5)%float.
      * left. apply Hres.
      * right. apply Hres.
  - destruct (serve_unconnected (VObj fields) eq_refl Hval Hconn)
      as (e & tr & _ & Hserve & Hd & Hp & Ht).
    exists (server_error e), tr. split; [exact Hserve |].
    split.
    { split; [discriminate |]. intros (Hbad & _). discriminate. }
    split; [discriminate |]. split; [discriminate |].
    intros _. auto.
Qed.


(** C3. A win is always answered with status 200, [success: true] and
    [result: "win"], whatever happens on the payout path, and the
    response tells the three cases apart by the field it carries:
    [payoutPending] when no signing key could be loaded, [payoutError]
    when the payout threw at any of its steps, [payoutSignature] when the
    node accepted it. A win is a round that passed the input checks, for
    which [getConnection] returned a connection, that was not refused at
    the status lookup, and whose draw is below 0.5. *)
Theorem C3_win_reported_with_payout_state
    (fields : list (string * value)) :
  validate (assoc "signature" fields) (assoc "playerWallet" fields)
           (assoc "betAmount" fields) = inr None ->
  connectable penv env = true ->
  marks_failure (lookup penv env (assoc "signature" fields)) = false ->
  (random env <? 0.5)%float = true ->
  exists resp tr p,
    serve penv env (parsed (VObj fields)) = (inr resp, tr)
    /\ times_two (assoc "betAmount" fields) = inr p
    /\ status resp = 200%Z
    /\ field resp "success" = VBool true
    /\ field resp "result" = VStr "win"
    /\ payout_state resp
       = Some match bank_key penv env with
              | None => PayoutPending
              | Some kp =>
                  match broadcast env (selected_connection penv env) kp
                          (assoc "playerWallet" fields) p with
                  | inl _ => PayoutErrored
                  | inr _ => Paid
                  end
              end.
Proof.
  intros Hval Hconn Hok Hwin.
  destruct (serve_settled (VObj fields) eq_refl Hval Hconn Hok)
    as (resp & tr & p & Hserve & Hp & Hstatus & Hsucc & _ & _ & _ & _
        & Hres).
  rewrite Hwin in Hres. destruct Hres as (Hr & _ & Hstate).
  exists resp, tr, p. repeat (split; [assumption |]). exact Hstate.
Qed.

(** C5. [determineResult] makes one draw and answers win exactly when the
    number drawn is below 0.5; a settled round, that is one that passed
    the input checks, got a connection and was not refused at the status
    lookup, contains that draw and no other, and reports its outcome. *)
Theorem C5_one_draw_win_below_half
    (fields : list (string * value)) :
  validate (assoc "signature" fields) (assoc "playerWallet" fields)
           (assoc "betAmount" fields) = inr None ->
  connectable penv env = true ->
  marks_failure (lookup penv env (assoc "signature" fields)) = false ->
  (forall t,
      run (answer env) determineResult t
      = (inr (if (random env <? 0.5)%float then win else loss), t,
         [Ev MathRandom (random env)]))
  /\ exists resp tr,
       serve penv env (parsed (VObj fields)) = (inr resp, tr)
       /\ draws tr = 1%nat
       /\ drawn tr = [random env]
       /\ (field resp "result" = VStr "win"
           <-> (random env <? 0.5)%float = true)
       /\ (field resp "result" = VStr "loss"
           <-> (random env <? 0.5)%float = false).
Proof.
  intros Hval Hconn Hok. split; [reflexivity |].
  destruct (serve_settled (VObj fields) eq_refl Hval Hconn Hok)
    as (resp & tr & p & Hserve & _ & _ & _ & _ & Hd & Hn & _ & Hres).
  exists resp, tr. repeat (split; [assumption |]).
  destruct (random env <? 0.5)%float; destruct Hres as (-> & _);
    repeat split; intros; try reflexivity; discriminate.
Qed.

End Route.

(** ** The properties at concrete rounds *)

(** C4 at a request with no transfer reference. *)
Lemma C4_witness :
  truthy (assoc "signature"
            [("playerWallet", VStr "Player"); ("betAmount", VNum 1)])
  = false
  /\ exists msg,
       serve (H := Scenario.numeric_runtime) Scenario.configured
             (Scenario.healthy 0.25)
             (parsed (VObj [("playerWallet", VStr "Player");
                            ("betAmount", VNum 1)]))
       = (inr (NextResponse_json_status [("error", VStr msg)] 400),
          [Ev DateNow 1000%float]).
Proof.
  split; [reflexivity |].
  apply (@C4_invalid_request_rejected_before_any_effect
           Scenario.numeric_runtime Scenario.configured
           (Scenario.healthy 0.25)
           [("playerWallet", VStr "Player"); ("betAmount", VNum 1)]).
  left. reflexivity.
Defined.

(** C2 at a round whose transfer went through. *)
Lemma C2_witness :
  validate (H := Scenario.numeric_runtime)
    (assoc "signature" (Scenario.wager (VNum 0.5)))
    (assoc "playerWallet" (Scenario.wager (VNum 0.5)))
    (assoc "betAmount" (Scenario.wager (VNum 0.5))) = inr None
  /\ exists resp tr,
       serve (H := Scenario.numeric_runtime) Scenario.configured
             (Scenario.healthy 0.75)
             (parsed (VObj (Scenario.wager (VNum 0.5))))
       = (inr resp, tr)
       /\ status resp = 200%Z
       /\ draws tr = 1%nat.
Proof.
  split; [reflexivity |].
  destruct (@C2_rejected_exactly_on_failed_status
              Scenario.numeric_runtime Scenario.configured
              (Scenario.healthy 0.75) (Scenario.wager (VNum 0.5))
              eq_refl)
    as (_ & _ & resp & tr & Hserve & _ & _ & Hgo & _).
  destruct (Hgo eq_refl eq_refl) as (Hstatus & Hdraws & _).
  exists resp, tr. auto.
Defined.


(** C3 at a win that is paid, at a win with no signing key, and at a win
    whose payout throws, at the broadcast and at the signature. *)
Lemma C3_witness :
  (0.25 <? 0.5)%float = true
  /\ (exists resp tr,
        serve (H := Scenario.numeric_runtime) Scenario.configured
              (Scenario.healthy 0.25)
              (parsed (VObj (Scenario.wager (VNum 0.2))))
        = (inr resp, tr)
        /\ status resp = 200%Z
        /\ field resp "result" = VStr "win"
        /\ payout_state resp = Some Paid)
  /\ (exists resp tr,
        serve (H := Scenario.numeric_runtime) Scenario.no_key
              (Scenario.healthy 0.25)
              (parsed (VObj (Scenario.wager (VNum 0.2))))
        = (inr resp, tr)
        /\ status resp = 200%Z
        /\ field resp "result" = VStr "win"
        /\ payout_state resp = Some PayoutPending)
  /\ (exists resp tr,
        serve (H := Scenario.numeric_runtime) Scenario.configured
              (Scenario.broadcast_refused 0.25)
              (parsed (VObj (Scenario.wager (VNum 0.2))))
        = (inr resp, tr)
        /\ status resp = 200%Z
        /\ field resp "result" = VStr "win"
        /\ payout_state resp = Some PayoutErrored)
  /\ (exists resp tr,
        serve (H := Scenario.numeric_runtime) Scenario.configured
              (Scenario.unsigned 0.25)
              (parsed (VObj (Scenario.wager (VNum 0.2))))
        = (inr resp, tr)
        /\ status resp = 200%Z
        /\ field resp "result" = VStr "win"
        /\ payout_state resp = Some PayoutErrored).
Proof.
  split; [reflexivity |].
  split.
  { destruct (@C3_win_reported_with_payout_state
                Scenario.numeric_runtime Scenario.configured
                (Scenario.healthy 0.25) (Scenario.wager (VNum 0.2))
                eq_refl eq_refl eq_refl eq_refl)
      as (resp & tr & p & Hserve & Hp & Hstatus & _ & Hwin & Hstate).
    injection Hp as <-. exists resp, tr. auto. }
  split.
  { destruct (@C3_win_reported_with_payout_state
                Scenario.numeric_runtime Scenario.no_key
                (Scenario.healthy 0.25) (Scenario.wager (VNum 0.2))
                eq_refl eq_refl eq_refl eq_refl)
      as (resp & tr & p & Hserve & Hp & Hstatus & _ & Hwin & Hstate).
    injection Hp as <-. exists resp, tr. auto. }
  split.
  { destruct (@C3_win_reported_with_payout_state
                Scenario.numeric_runtime Scenario.configured
                (Scenario.broadcast_refused 0.25)
                (Scenario.wager (VNum 0.2))
                eq_refl eq_refl eq_refl eq_refl)
      as (resp & tr & p & Hserve & Hp & Hstatus & _ & Hwin & Hstate).
    injection Hp as <-. exists resp, tr. auto. }
  destruct (@C3_win_reported_with_payout_state
              Scenario.numeric_runtime Scenario.configured
              (Scenario.unsigned 0.25) (Scenario.wager (VNum 0.2))
              eq_refl eq_refl eq_refl eq_refl)
    as (resp & tr & p & Hserve & Hp & Hstatus & _ & Hwin & Hstate).
  injection Hp as <-. exists resp, tr. auto.
Defined.

(** C5 at a draw of 0.75. *)
Lemma C5_witness :
  marks_failure
    (lookup Scenario.configured (Scenario.healthy 0.75)
            (assoc "signature" (Scenario.wager (VNum 0.2)))) = false
  /\ exists resp tr,
       serve (H := Scenario.numeric_runtime) Scenario.configured
             (Scenario.healthy 0.75)
             (parsed (VObj (Scenario.wager (VNum 0.2))))
       = (inr resp, tr)
       /\ draws tr = 1%nat
       /\ drawn tr = [0.75%float]
       /\ (field resp "result" = VStr "win" <-> (0.75 <? 0.5)%float = true)
       /\ (field resp "result" = VStr "loss"
           <-> (0.75 <? 0.5)%float = false).
Proof.
  split; [reflexivity |].
  apply (@C5_one_draw_win_below_half
           Scenario.numeric_runtime Scenario.configured
           (Scenario.healthy 0.75) (Scenario.wager (VNum 0.2)));
    reflexivity.
Defined.

(** The rounds above, run. *)
Example healthy_win :
  serve (H := Scenario.numeric_runtime) Scenario.configured
        (Scenario.healthy 0.25)
        (parsed (VObj (Scenario.wager (VNum 0.2))))
  = (inr {| status := 200;
            payload :=
              [ ("success", VBool true);
                ("result", VStr "win");
                ("betAmount", VNum 0.2);
                ("potentialWin", VNum 0.4);
                ("payoutSignature", VStr "payout-signature");
                ("processingTime", VNum 12) ] |},
     [ Ev DateNow 1000%float;
       Ev (NewConnection "https://rpc.example.org")
          (inr {| rpcEndpoint := "https://rpc.example.org" |});
       Ev (GetSlot {| rpcEndpoint := "https://rpc.example.org" |})
          (inr 250000000%float);
       Ev (ConsoleLog "Using RPC:") tt;
       Ev (ConsoleLog "Verifying transaction:") tt;
       Ev (GetSignatureStatus
             {| rpcEndpoint := "https://rpc.example.org" |}
             (VStr "5VERv8NMvzbJMEkV8xnrLkEaWRtSz9CosKDYjCJjBRnb"))
          (inr (Some {| err := false; confirmationStatus := "confirmed" |}));
       Ev (ConsoleLog "Transaction verified:") tt;
       Ev (ConsoleLog "Transaction verified successfully") tt;
       Ev MathRandom 0.25%float;
       Ev (ConsoleLog "Game result:") tt;
       Ev (Bs58Keypair "bank-secret") (inr {| publicKey := "Bank" |});
       Ev (ConsoleLog "Sending payout:") tt;
       Ev (NewPublicKey (VStr "Player")) (inr "Player");
       Ev (SystemProgramTransfer
             {| fromPubkey := "Bank"; toPubkey := "Player";
                lamports := 400000000 |}) (inr tt);
       Ev (GetLatestBlockhash
             {| rpcEndpoint := "https://rpc.example.org" |})
          (inr "blockhash");
       Ev (SignTransaction
             {| instruction :=
                  {| fromPubkey := "Bank"; toPubkey := "Player";
                     lamports := 400000000 |};
                recentBlockhash := "blockhash";
                feePayer := "Bank" |}
             {| publicKey := "Bank" |}) (inr tt);
       Ev (SerializeTransaction
             {| instruction :=
                  {| fromPubkey := "Bank"; toPubkey := "Player";
                     lamports := 400000000 |};
                recentBlockhash := "blockhash";
                feePayer := "Bank" |}) (inr tt);
       Ev (SendRawTransaction
             {| rpcEndpoint := "https://rpc.example.org" |}
             {| instruction :=
                  {| fromPubkey := "Bank"; toPubkey := "Player";
                     lamports := 400000000 |};
                recentBlockhash := "blockhash";
                feePayer := "Bank" |})
          (inr "payout-signature");
       Ev (ConsoleLog "Payout sent (not waiting for confirmation):") tt;
       Ev (ConsoleLog "Payout successful:") tt;
       Ev DateNow 1012%float ]).
Proof. vm_compute. reflexivity. Qed.

(** A loss: the response carries no payout signature. *)
Example healthy_loss :
  fst (serve (H := Scenario.numeric_runtime) Scenario.configured
             (Scenario.healthy 0.5)
             (parsed (VObj (Scenario.wager (VNum 0.2)))))
  = inr {| status := 200;
           payload :=
             [ ("success", VBool true);
               ("result", VStr "loss");
               ("betAmount", VNum 0.2);
               ("potentialWin", VNum 0);
               ("processingTime", VNum 12) ] |}.
Proof. vm_compute. reflexivity. Qed.

(** A transfer that failed on chain: refused before the draw. *)
Example failed_transfer_refused :
  serve (H := Scenario.numeric_runtime) Scenario.configured
        (Scenario.transfer_failed 0.25)
        (parsed (VObj (Scenario.wager (VNum 0.2))))
  = (inr failed_on_chain,
     [ Ev DateNow 1000%float;
       Ev (NewConnection "https://rpc.example.org")
          (inr {| rpcEndpoint := "https://rpc.example.org" |});
       Ev (GetSlot {| rpcEndpoint := "https://rpc.example.org" |})
          (inr 250000000%float);
       Ev (ConsoleLog "Using RPC:") tt;
       Ev (ConsoleLog "Verifying transaction:") tt;
       Ev (GetSignatureStatus
             {| rpcEndpoint := "https://rpc.example.org" |}
             (VStr "5VERv8NMvzbJMEkV8xnrLkEaWRtSz9CosKDYjCJjBRnb"))
          (inr (Some {| err := true; confirmationStatus := "confirmed" |}));
       Ev (ConsoleError "Transaction verification failed:") tt ]).
Proof. vm_compute. reflexivity. Qed.

(** A win without a signing key: reported, payout pending. *)
Example win_without_key :
  fst (serve (H := Scenario.numeric_runtime) Scenario.no_key
             (Scenario.healthy 0.25)
             (parsed (VObj (Scenario.wager (VNum 0.2)))))
  = inr {| status := 200;
           payload :=
             [ ("success", VBool true);
               ("result", VStr "win");
               ("betAmount", VNum 0.2);
               ("potentialWin", VNum 0.4);
               ("payoutPending", VBool true);
               ("message", VStr "Payout will be processed manually") ] |}.
Proof. vm_compute. reflexivity. Qed.

(** A win whose broadcast is refused: reported, payout errored. *)
Example win_with_refused_broadcast :
  fst (serve (H := Scenario.numeric_runtime) Scenario.configured
             (Scenario.broadcast_refused 0.25)
             (parsed (VObj (Scenario.wager (VNum 0.2)))))
  = inr {| status := 200;
           payload :=
             [ ("success", VBool true);
               ("result", VStr "win");
               ("betAmount", VNum 0.2);
               ("potentialWin", VNum 0.4);
               ("payoutError", VStr "Transaction simulation failed");
               ("message",
                VStr "You won! Payout will be processed manually.") ] |}.
Proof. vm_compute. reflexivity. Qed.

(** A body that is [null] cannot be destructured: the handler answers 500,
    having done nothing but read the clock. *)
Example null_body :
  serve (H := Scenario.numeric_runtime) Scenario.configured
        (Scenario.healthy 0.25) (parsed VNull)
  = (inr (server_error
            (mkThrown "Cannot destructure property 'signature' of 'body' as it is null.")),
     [Ev DateNow 1000%float; Ev (ConsoleError "API error:") tt]).
Proof. vm_compute. reflexivity. Qed.

(** An amount that is an object with a property [toString] cannot be
    compared with zero: the comparison throws a TypeError and the handler
    answers 500, having done nothing but read the clock. *)
Example unreadable_amount_refused :
  serve (H := Scenario.numeric_runtime) Scenario.configured
        (Scenario.healthy 0.25)
        (parsed (VObj (Scenario.wager Scenario.unreadable_amount)))
  = (inr {| status := 500;
            payload :=
              [("error", VStr "Cannot convert object to primitive value")] |},
     [Ev DateNow 1000%float; Ev (ConsoleError "API error:") tt]).
Proof. vm_compute. reflexivity. Qed.

(** No node answers and the first candidate has no scheme: its connection
    is not built in the loop, so it is not probed, and the fallback, which
    builds it again outside the [try], throws: the handler answers 500. *)
Example malformed_first_endpoint :
  serve (H := Scenario.numeric_runtime) Scenario.misconfigured
        (Scenario.offline 0.25)
        (parsed (VObj (Scenario.wager (VNum 0.2))))
  = (inr (server_error Scenario.no_scheme),
     [ Ev DateNow 1000%float;
       Ev (NewConnection "rpc.example.org") (inl Scenario.no_scheme);
       Ev (ConsoleLog "RPC failed, trying next:") tt;
       Ev (NewConnection "https://api.mainnet-beta.solana.com")
          (inr {| rpcEndpoint := "https://api.mainnet-beta.solana.com" |});
       Ev (GetSlot {| rpcEndpoint := "https://api.mainnet-beta.solana.com" |})
          (inl (mkThrown "fetch failed"));
       Ev (ConsoleLog "RPC failed, trying next:") tt;
       Ev (NewConnection "https://rpc.ankr.com/solana")
          (inr {| rpcEndpoint := "https://rpc.ankr.com/solana" |});
       Ev (GetSlot {| rpcEndpoint := "https://rpc.ankr.com/solana" |})
          (inl (mkThrown "fetch failed"));
       Ev (ConsoleLog "RPC failed, trying next:") tt;
       Ev (NewConnection "rpc.example.org") (inl Scenario.no_scheme);
       Ev (ConsoleError "API error:") tt ]).
Proof. vm_compute. reflexivity. Qed.

(** A wager whose double is not a finite number: the transfer is handed
    infinitely many lamports, and the payout of the response, which JSON
    cannot carry, is [null]. *)
Example overflowing_wager :
  is_infinity (0x1p1023 * 2) = true
  /\ payload
       (match fst (serve (H := Scenario.numeric_runtime)
                     Scenario.configured (Scenario.healthy 0.25)
                     (parsed (VObj (Scenario.wager (VNum 0x1p1023))))) with
        | inr resp => resp
        | inl e => server_error e
        end)
     = [ ("success", VBool true);
         ("result", VStr "win");
         ("betAmount", VNum 0x1p1023);
         ("potentialWin", VNull);
         ("payoutSignature", VStr "payout-signature");
         ("processingTime", VNum 12) ].
Proof. split; vm_compute; reflexivity. Qed.

End PlayFacts.
(* ================================================================== *)
(** * The statistics route: how a read and a write run *)
(* ================================================================== *)

Module StatsFacts.
Import JS Eff EffFacts Stats StoreCalls.

(** ** Ordering of the history *)

Lemma insert_desc_In (r x : HistoryRow) (l : list HistoryRow) :
  In x (insert_desc r l) -> x = r \/ In x l.
Proof.
  induction l as [| y l IH]; simpl.
  - intros [<- | []]. left. reflexivity.
  - destruct (timestamp_col y <? timestamp_col r)%Z; simpl.
    + intros [<- | [<- | Hin]]; auto.
    + intros [<- | Hin]; auto. destruct (IH Hin); auto.
Qed.

Lemma insert_desc_sorted (r : HistoryRow) (l : list HistoryRow) :
  StronglySorted desc l -> StronglySorted desc (insert_desc r l).
Proof.
  induction 1 as [| y l Hs IH Hall]; simpl.
  - constructor; constructor.
  - destruct (Z.ltb_spec (timestamp_col y) (timestamp_col r)) as [Hlt | Hge].
    + constructor; [constructor; assumption |].
      constructor; [unfold desc; lia |].
      rewrite Forall_forall in *. intros x Hx.
      specialize (Hall x Hx). unfold desc in *. lia.
    + constructor; [exact IH |].
      rewrite Forall_forall in *. intros x Hx.
      destruct (insert_desc_In _ _ _ Hx) as [-> | Hin].
      * exact Hge.
      * exact (Hall x Hin).
Qed.

Lemma order_desc_sorted (l : list HistoryRow) :
  StronglySorted desc (order_desc l).
Proof.
  induction l as [| r l IH]; simpl.
  - constructor.
  - apply insert_desc_sorted. exact IH.
Qed.

Lemma In_firstn {A} (x : A) (n : nat) (l : list A) :
  In x (firstn n l) -> In x l.
Proof.
  revert l. induction n as [| n IH]; intros [| y l]; simpl; try tauto.
  intros [Hx | Hx]; [left; exact Hx | right; exact (IH l Hx)].
Qed.

Lemma firstn_sorted {A} (R : A -> A -> Prop) (n : nat) (l : list A) :
  StronglySorted R l -> StronglySorted R (firstn n l).
Proof.
  intros Hs. revert n.
  induction Hs as [| x l Hs IH Hall]; intros [| n]; simpl;
    try constructor.
  - apply IH.
  - rewrite Forall_forall in *. intros y Hy.
    apply Hall. exact (In_firstn _ _ _ Hy).
Qed.

Lemma map_item_sorted (l : list HistoryRow) :
  StronglySorted desc l -> newest_first (map item_of_row l).
Proof.
  unfold newest_first.
  induction 1 as [| x l Hs IH Hall]; simpl; constructor.
  - exact IH.
  - rewrite Forall_forall in *. intros y Hy.
    apply in_map_iff in Hy. destruct Hy as (r & <- & Hr).
    exact (Hall r Hr).
Qed.

Lemma history_view_newest_first (w : World) : newest_first (history_view w).
Proof.
  unfold history_view. apply map_item_sorted, firstn_sorted, order_desc_sorted.
Qed.

Lemma newest_first_firstn (n : nat) (l : list GameHistoryItem) :
  newest_first l -> newest_first (firstn n l).
Proof. apply firstn_sorted. Qed.

Lemma history_view_length (w : World) :
  (List.length (history_view w) <= 100)%nat.
Proof.
  unfold history_view. rewrite length_map. apply firstn_le_length.
Qed.

(** ** Reading a trace *)

Lemma count_store_app (P : forall X, Op X -> bool)
    (tr1 tr2 : list (Event Op)) :
  count_store P (tr1 ++ tr2)
  = (count_store P tr1 + count_store P tr2)%nat.
Proof.
  induction tr1 as [| [X op x] tr1 IH]; simpl; [reflexivity |].
  destruct (P X op); simpl; rewrite IH; reflexivity.
Qed.

Lemma logged_app (tr1 tr2 : list (Event Op)) :
  logged (tr1 ++ tr2) = logged tr1 ++ logged tr2.
Proof.
  induction tr1 as [| [X op x] tr1 IH]; simpl; [reflexivity |].
  destruct op; simpl; rewrite IH; reflexivity.
Qed.

Lemma starts_with_read_app (tr1 tr2 : list (Event Op)) :
  starts_with_read tr1 = true -> starts_with_read (tr1 ++ tr2) = true.
Proof. destruct tr1; [discriminate | intros Hs; exact Hs]. Qed.

(** ** The two helpers *)

Section Route.
Context `{Runtime}.

(** [readStats] always resolves: to what the store shows, or to the
    defaults. It asks the store one or two queries and nothing else. *)
Lemma readStats_calls (w : World) :
  exists tr,
    run answer readStats w
    = (inr (read_with (first_fault w) (second_fault w) w), after_read w, tr)
    /\ starts_with_read tr = true
    /\ inserts tr = 0%nat /\ upserts tr = 0%nat /\ clock_reads tr = 0%nat
    /\ selects tr = (if stats_read_fails (first_fault w) then 1 else 2)%nat
    /\ ~ In "Error inserting game history:" (logged tr).
Proof.
  destruct w as [gs gh fl ck tk].
  unfold readStats, read_with, first_fault, second_fault, after_read,
    set_faults. simpl.
  destruct fl as [| [| e1 | e1] fl]; simpl.
  - destruct gs as [row |]; simpl; eexists;
      repeat (split; [reflexivity |]); simpl; intuition discriminate.
  - destruct gs as [row |]; simpl;
      destruct fl as [| [| e2 | e2] fl]; simpl;
      eexists; repeat (split; [reflexivity |]); simpl;
      intuition discriminate.
  - destruct (is_no_rows e1); simpl.
    + destruct fl as [| [| e2 | e2] fl]; simpl;
        eexists; repeat (split; [reflexivity |]); simpl;
        intuition discriminate.
    + eexists; repeat (split; [reflexivity |]); simpl;
        intuition discriminate.
  - eexists; repeat (split; [reflexivity |]); simpl;
      intuition discriminate.
Qed.

Lemma run_readStats (w : World) :
  exists tr,
    run answer readStats w
    = (inr (read_with (first_fault w) (second_fault w) w), after_read w, tr)
    /\ starts_with_read tr = true.
Proof.
  destruct (readStats_calls w) as (tr & Hrun & Hstart & _).
  exists tr. auto.
Qed.

(** [writeStats] resolves when its upsert is carried out, and throws
    otherwise. It reads the clock and asks the store one upsert. *)
Lemma writeStats_calls (stats : Stats) (w : World) :
  exists tr,
    run answer (writeStats stats) w
    = (write_outcome (first_fault w),
       after_write (row_of stats (clock w (ticks w))) w, tr)
    /\ inserts tr = 0%nat /\ upserts tr = 1%nat /\ selects tr = 0%nat
    /\ clock_reads tr = 1%nat
    /\ ~ In "Error inserting game history:" (logged tr).
Proof.
  destruct w as [gs gh fl ck tk].
  unfold writeStats, write_outcome, first_fault, after_write, row_of.
  simpl.
  destruct fl as [| [| e | e] fl]; simpl; eexists;
    repeat (split; [reflexivity |]); simpl; intuition discriminate.
Qed.

Lemma run_writeStats (stats : Stats) (w : World) :
  exists tr,
    run answer (writeStats stats) w
    = (write_outcome (first_fault w),
       after_write (row_of stats (clock w (ticks w))) w, tr).
Proof.
  destruct (writeStats_calls stats w) as (tr & Hrun & _).
  exists tr. exact Hrun.
Qed.

Lemma history_view_nil (w : World) :
  game_history w = [] -> history_view w = [].
Proof. unfold history_view. intros ->. reflexivity. Qed.

(** The counters of a read add zero without change. *)
Lemma with_counters_add_zero (row : option StatsRow)
    (history : list GameHistoryItem) :
  let stats := with_counters row history in
  (wins stats + 0)%float = wins stats
  /\ (losses stats + 0)%float = losses stats.
Proof.
  destruct row as [row |]; simpl.
  - split; apply NumFacts.num_or_zero_add_zero.
  - split; reflexivity.
Qed.

(** The input check of a write, read on its two fields. *)
Lemma invalid_iff (result amount : value) :
  invalid result amount = true
  <-> (is_str result "win" || is_str result "loss") = false
      \/ truthy amount = false.
Proof.
  unfold invalid.
  destruct (is_str result "win") eqn:Hw.
  { apply NumFacts.is_str_true in Hw. subst result. simpl.
    destruct (truthy amount); simpl; split; intros Hx;
      try discriminate; try reflexivity; try (right; reflexivity);
      destruct Hx; discriminate. }
  destruct (is_str result "loss") eqn:Hl.
  { apply NumFacts.is_str_true in Hl. subst result. simpl.
    destruct (truthy amount); simpl; split; intros Hx;
      try discriminate; try reflexivity; try (right; reflexivity);
      destruct Hx; discriminate. }
  simpl. split; [intros _; left; reflexivity |].
  intros _. destruct (truthy result), (truthy amount); reflexivity.
Qed.

(** A request that passed the input check has the outcome "win" or the
    outcome "loss", not both. *)
Lemma valid_outcome (result amount : value) :
  invalid result amount = false ->
  (is_str result "win" = true /\ is_str result "loss" = false)
  \/ (is_str result "win" = false /\ is_str result "loss" = true).
Proof.
  intros Hvalid.
  destruct (is_str result "win") eqn:Hw.
  - left. apply NumFacts.is_str_true in Hw. rewrite Hw. auto.
  - right. split; [reflexivity |].
    destruct (is_str result "loss") eqn:Hl; [reflexivity |].
    assert (Hbad : invalid result amount = true).
    { apply invalid_iff. left. rewrite Hw, Hl. reflexivity. }
    congruence.
Qed.

#[local] Opaque readStats writeStats history_view num_or.

(** The statistics [GET] answers with, for what [readStats] returned. *)
Lemma run_GET (w : World) :
  exists tr,
    serve GET w
    = (inr (JsonStats
              (let stats := read_with (first_fault w) (second_fault w) w in
               {| totalBets := totalBets stats;
                  totalWagered := totalWagered stats;
                  wins := wins stats;
                  losses := losses stats;
                  gameHistory := firstn 20 (gameHistory stats) |})),
       after_read w, tr).
Proof.
  unfold serve, GET. rewrite run_catch, run_bind.
  destruct (run_readStats w) as (tr & -> & _).
  unfold and_then, or_else. simpl. eexists. reflexivity.
Qed.

(** ** A write, call by call *)

Ltac no_log :=
  rewrite ?in_app_iff; simpl;
  split; [intuition discriminate | intros (? & ? & _ & He); discriminate].

Ltac has_log n e :=
  rewrite ?in_app_iff; simpl;
  split; [intros _; exists n, e; auto | intros _; auto 10].

(** A write that passed the input check, against any store: the read;
    the amount read as a number, which may throw; the clock, the insert,
    the clock and the upsert; the second read. *)
Lemma run_record_round (result amount playerWallet : value) (w : World) :
  let w1 := after_read w in
  let stats := read_with (first_fault w) (second_fault w) w in
  exists tr,
    run answer (record_round result amount playerWallet) w
    = match ToNumber amount with
      | inl e => (inl e, w1, tr)
      | inr n =>
          let w2 := after_insert
                      (history_row result n playerWallet
                         (clock w1 (ticks w1))) w1 in
          let w3 := after_write
                      (updated_row stats result n (clock w2 (ticks w2)))
                      w2 in
          match first_fault w1 with
          | Throws e => (inl e, w2, tr)
          | _ =>
              match write_outcome (first_fault w2) with
              | inl e => (inl e, w3, tr)
              | inr _ =>
                  (inr (JsonUpdated
                          (read_with (first_fault w3) (second_fault w3)
                             w3)),
                   after_read w3, tr)
              end
          end
      end
    /\ starts_with_read tr = true
    /\ inserts tr
       = match ToNumber amount with inl _ => 0%nat | inr _ => 1%nat end
    /\ upserts tr
       = match ToNumber amount with
         | inl _ => 0%nat
         | inr _ => if insert_returns (first_fault w1) then 1%nat else 0%nat
         end
    /\ (In "Error inserting game history:" (logged tr)
        <-> exists n e,
              ToNumber amount = inr n /\ first_fault w1 = ReturnsError e).
Proof.
  intros w1 stats. subst stats.
  unfold record_round. rewrite run_bind.
  destruct (readStats_calls w) as (tr1 & -> & Hstart & Hi1 & Hu1 & _ & _ & Hl1).
  fold w1. remember (read_with (first_fault w) (second_fault w) w) as stats
    eqn:Hstats. clear Hstats.
  clearbody w1. unfold and_then.
  destruct (ToNumber amount) as [thrown | n]; simpl.
  { eexists. split; [reflexivity |].
    split; [apply starts_with_read_app; exact Hstart |].
    unfold inserts, upserts in *.
    rewrite !count_store_app, logged_app, Hi1, Hu1, app_nil_r. simpl.
    split; [reflexivity |]. split; [reflexivity |].
    split; [intros Hin; destruct (Hl1 Hin) |].
    intros (n & e & Hn & _). discriminate. }
  destruct w1 as [gs gh fl ck tk].
  unfold query, next_fault, first_fault. simpl.
  destruct fl as [| [| e | e] fl]; simpl.
  - rewrite run_bind.
    match goal with
    | |- context [run answer (writeStats ?st) ?w1] =>
        destruct (writeStats_calls st w1)
          as (tr2 & -> & Hi2 & Hu2 & _ & _ & Hl2)
    end.
    unfold and_then, first_fault, after_insert. simpl.
    rewrite run_bind.
    match goal with
    | |- context [run answer readStats ?w1] =>
        destruct (readStats_calls w1)
          as (tr3 & -> & _ & Hi3 & Hu3 & _ & _ & Hl3)
    end.
    unfold and_then. simpl. eexists. split; [reflexivity |].
    split; [apply starts_with_read_app; exact Hstart |].
    unfold inserts, upserts in *.
    repeat (progress (simpl; rewrite ?count_store_app, ?logged_app)).
    rewrite ?Hi1, ?Hu1, ?Hi2, ?Hu2, ?Hi3, ?Hu3, ?app_nil_r.
    split; [reflexivity |]. split; [reflexivity |].
    no_log.
  - rewrite run_bind.
    match goal with
    | |- context [run answer (writeStats ?st) ?w1] =>
        destruct (writeStats_calls st w1)
          as (tr2 & -> & Hi2 & Hu2 & _ & _ & Hl2)
    end.
    unfold and_then, first_fault, after_insert, write_outcome. simpl.
    destruct fl as [| [| e' | e'] fl]; simpl.
    + rewrite run_bind.
      match goal with
      | |- context [run answer readStats ?w1] =>
          destruct (readStats_calls w1)
            as (tr3 & -> & _ & Hi3 & Hu3 & _ & _ & Hl3)
      end.
      unfold and_then. simpl. eexists. split; [reflexivity |].
      split; [apply starts_with_read_app; exact Hstart |].
      unfold inserts, upserts in *.
      repeat (progress (simpl; rewrite ?count_store_app, ?logged_app)).
      rewrite ?Hi1, ?Hu1, ?Hi2, ?Hu2, ?Hi3, ?Hu3, ?app_nil_r.
      split; [reflexivity |]. split; [reflexivity |].
      no_log.
    + rewrite run_bind.
      match goal with
      | |- context [run answer readStats ?w1] =>
          destruct (readStats_calls w1)
            as (tr3 & -> & _ & Hi3 & Hu3 & _ & _ & Hl3)
      end.
      unfold and_then. simpl. eexists. split; [reflexivity |].
      split; [apply starts_with_read_app; exact Hstart |].
      unfold inserts, upserts in *.
      repeat (progress (simpl; rewrite ?count_store_app, ?logged_app)).
      rewrite ?Hi1, ?Hu1, ?Hi2, ?Hu2, ?Hi3, ?Hu3, ?app_nil_r.
      split; [reflexivity |]. split; [reflexivity |].
      no_log.
    + eexists. split; [reflexivity |].
      split; [apply starts_with_read_app; exact Hstart |].
      unfold inserts, upserts in *.
      repeat (progress (simpl; rewrite ?count_store_app, ?logged_app)).
      rewrite ?Hi1, ?Hu1, ?Hi2, ?Hu2, ?app_nil_r.
      split; [reflexivity |]. split; [reflexivity |].
      no_log.
    + eexists. split; [reflexivity |].
      split; [apply starts_with_read_app; exact Hstart |].
      unfold inserts, upserts in *.
      repeat (progress (simpl; rewrite ?count_store_app, ?logged_app)).
      rewrite ?Hi1, ?Hu1, ?Hi2, ?Hu2, ?app_nil_r.
      split; [reflexivity |]. split; [reflexivity |].
      no_log.
  - rewrite run_bind.
    match goal with
    | |- context [run answer (writeStats ?st) ?w1] =>
        destruct (writeStats_calls st w1)
          as (tr2 & -> & Hi2 & Hu2 & _ & _ & Hl2)
    end.
    unfold and_then, first_fault, after_insert, write_outcome. simpl.
    destruct fl as [| [| e' | e'] fl]; simpl.
    + rewrite run_bind.
      match goal with
      | |- context [run answer readStats ?w1] =>
          destruct (readStats_calls w1)
            as (tr3 & -> & _ & Hi3 & Hu3 & _ & _ & Hl3)
      end.
      unfold and_then. simpl. eexists. split; [reflexivity |].
      split; [apply starts_with_read_app; exact Hstart |].
      unfold inserts, upserts in *.
      repeat (progress (simpl; rewrite ?count_store_app, ?logged_app)).
      rewrite ?Hi1, ?Hu1, ?Hi2, ?Hu2, ?Hi3, ?Hu3, ?app_nil_r.
      split; [reflexivity |]. split; [reflexivity |].
      has_log n e.
    + rewrite run_bind.
      match goal with
      | |- context [run answer readStats ?w1] =>
          destruct (readStats_calls w1)
            as (tr3 & -> & _ & Hi3 & Hu3 & _ & _ & Hl3)
      end.
      unfold and_then. simpl. eexists. split; [reflexivity |].
      split; [apply starts_with_read_app; exact Hstart |].
      unfold inserts, upserts in *.
      repeat (progress (simpl; rewrite ?count_store_app, ?logged_app)).
      rewrite ?Hi1, ?Hu1, ?Hi2, ?Hu2, ?Hi3, ?Hu3, ?app_nil_r.
      split; [reflexivity |]. split; [reflexivity |].
      has_log n e.
    + eexists. split; [reflexivity |].
      split; [apply starts_with_read_app; exact Hstart |].
      unfold inserts, upserts in *.
      repeat (progress (simpl; rewrite ?count_store_app, ?logged_app)).
      rewrite ?Hi1, ?Hu1, ?Hi2, ?Hu2, ?app_nil_r.
      split; [reflexivity |]. split; [reflexivity |].
      has_log n e.
    + eexists. split; [reflexivity |].
      split; [apply starts_with_read_app; exact Hstart |].
      unfold inserts, upserts in *.
      repeat (progress (simpl; rewrite ?count_store_app, ?logged_app)).
      rewrite ?Hi1, ?Hu1, ?Hi2, ?Hu2, ?app_nil_r.
      split; [reflexivity |]. split; [reflexivity |].
      has_log n e.
  - eexists. split; [reflexivity |].
    split; [apply starts_with_read_app; exact Hstart |].
    unfold inserts, upserts in *.
    repeat (progress (simpl; rewrite ?count_store_app, ?logged_app)).
    rewrite ?Hi1, ?Hu1, ?app_nil_r.
    split; [reflexivity |]. split; [reflexivity |].
    no_log.
Qed.

(** Once past the input check, a write starts with a read of the store,
    and ends in a success response or in an exception. *)
Lemma record_round_shape (result amount playerWallet : value) (w : World) :
  exists out w' tr,
    run answer (record_round result amount playerWallet) w = (out, w', tr)
    /\ starts_with_read tr = true
    /\ match out with
       | inr resp => status resp = 200%Z
       | inl _ => True
       end.
Proof.
  destruct (run_record_round result amount playerWallet w)
    as (tr & Hrun & Hstart & _).
  cbv zeta in Hrun. rewrite Hrun.
  repeat match goal with
         | |- context [match ?x with _ => _ end] => destruct x
         end;
    do 3 eexists; (split; [reflexivity |]); (split; [exact Hstart |]);
    first [exact I | reflexivity].
Qed.

(** A write that passed the input check is answered with what
    [record_round] returns, or with status 500 and the message of what
    it threw. *)
Lemma serve_write (fields : list (string * value)) (w : World)
    (out : Thrown + Response) (w' : World) (tr : list (Event Op)) :
  invalid (assoc "result" fields) (assoc "amount" fields) = false ->
  run answer
    (record_round (assoc "result" fields) (assoc "amount" fields)
       (assoc "playerWallet" fields)) w = (out, w', tr) ->
  serve (POST (parsed (VObj fields))) w
  = match out with
    | inr resp => (inr resp, w', tr)
    | inl e =>
        (inr (JsonError (str_or (message e) "Failed to update stats") 500),
         w', tr ++ [Ev (ConsoleError "Failed to update stats:") tt])
    end.
Proof.
  intros Hvalid Hrun.
  unfold serve, POST, parsed, destructure. simpl. rewrite Hvalid.
  rewrite run_catch, Hrun. unfold or_else.
  destruct out as [e | resp]; simpl; rewrite ?app_nil_r; reflexivity.
Qed.

#[local] Opaque record_round.

(** ** The properties of the specification: reading *)

(** C8, as the code has it. The statistics read always answers with
    status 200 and statistics whose history has at most 20 entries,
    newest first. It answers with the zero-valued defaults and an empty
    history when the aggregate query throws or returns an error other
    than "no rows", when the history query throws, and against an empty
    store. When only the history query returns an error, it answers with
    the aggregate counters of the store and an empty history. When both
    queries are answered, it answers with the aggregate counters and the
    20 newest rows of the history. *)
Theorem C8_read_never_fails_and_is_bounded (w : World) :
  exists stats w' tr,
    serve GET w = (inr (JsonStats stats), w', tr)
    /\ status (JsonStats stats) = 200%Z
    /\ (List.length (gameHistory stats) <= 20)%nat
    /\ newest_first (gameHistory stats)
    /\ (stats_read_fails (first_fault w) = true -> stats = defaultStats)
    /\ (forall e,
          stats_read_fails (first_fault w) = false ->
          second_fault w = Throws e -> stats = defaultStats)
    /\ (global_stats w = None -> game_history w = [] ->
        stats = defaultStats)
    /\ (forall e,
          first_fault w = NoFault -> second_fault w = ReturnsError e ->
          stats = with_counters (global_stats w) [])
    /\ (first_fault w = NoFault -> second_fault w = NoFault ->
        stats = with_counters (global_stats w)
                  (firstn 20 (history_view w))).
Proof.
  destruct (run_GET w) as (tr & Hrun).
  cbv zeta in Hrun.
  do 3 eexists. split; [exact Hrun |]. split; [reflexivity |].
  cbn [gameHistory]. unfold read_with.
  split; [apply firstn_le_length |].
  split.
  { apply newest_first_firstn.
    destruct (stats_read_fails (first_fault w)); [constructor |].
    destruct (second_fault w); [| | constructor].
    - destruct (first_fault w); try destruct (global_stats w); simpl;
        apply history_view_newest_first.
    - destruct (first_fault w); try destruct (global_stats w); simpl;
        constructor. }
  split; [intros ->; reflexivity |].
  split; [intros e -> ->; reflexivity |].
  split.
  { intros Hgs Hgh.
    rewrite Hgs, (history_view_nil w Hgh).
    destruct (stats_read_fails (first_fault w)); [reflexivity |].
    destruct (second_fault w); destruct (first_fault w); reflexivity. }
  split.
  - intros e -> ->. simpl. destruct (global_stats w); reflexivity.
  - intros -> ->. simpl. destruct (global_stats w); reflexivity.
Qed.


(** ** The properties of the specification: writing *)

(** C9, as the code has it. A statistics write is answered with status
    400 exactly when its outcome is not the string "win" or "loss", or its
    amount is falsy (absent, [null], 0, NaN, [false] or the empty
    string); then nothing has been asked of the store. Every other
    request goes on to the store, its first call being the aggregate
    query. It is applied when its amount reads as a number and the store
    carries out every query: its history row is appended, the aggregate
    row is the one read with the round added, and the answer has status
    200 and shows the store as it then is. When its amount cannot be read
    as a number, the write is answered with status 500 after the first
    read, and neither an insert nor an upsert is sent. *)
Theorem C9_write_refused_exactly_on_bad_outcome_or_falsy_amount
    (fields : list (string * value)) (w : World) :
  let result := assoc "result" fields in
  let amount := assoc "amount" fields in
  exists resp w' tr,
    serve (POST (parsed (VObj fields))) w = (inr resp, w', tr)
    /\ (status resp = 400%Z
        <-> (is_str result "win" || is_str result "loss") = false
            \/ truthy amount = false)
    /\ (status resp = 400%Z ->
        resp = JsonError "Invalid request data" 400 /\ tr = [] /\ w' = w)
    /\ (status resp <> 400%Z -> starts_with_read tr = true)
    /\ (forall n,
          status resp <> 400%Z -> ToNumber amount = inr n ->
          faults w = [] ->
          resp = JsonUpdated (snapshot w')
          /\ status resp = 200%Z
          /\ inserts tr = 1%nat /\ upserts tr = 1%nat
          /\ game_history w'
             = game_history w
               ++ [history_row result n (assoc "playerWallet" fields)
                     (clock w (ticks w))]
          /\ global_stats w'
             = Some (updated_row (snapshot w) result n
                       (clock w (S (ticks w)))))
    /\ (forall thrown,
          status resp <> 400%Z -> ToNumber amount = inl thrown ->
          resp = JsonError (str_or (message thrown)
                              "Failed to update stats") 500
          /\ inserts tr = 0%nat /\ upserts tr = 0%nat
          /\ global_stats w' = global_stats w
          /\ game_history w' = game_history w).
Proof.
  intros result amount. subst result amount.
  destruct (invalid (assoc "result" fields) (assoc "amount" fields))
    eqn:Hinv.
  - unfold serve, POST, parsed, destructure. simpl. rewrite Hinv. simpl.
    do 3 eexists. split; [reflexivity |].
    split; [split; [intros _; apply invalid_iff; exact Hinv | reflexivity] |].
    split; [auto |].
    split; [intros Hne; exfalso; apply Hne; reflexivity |].
    split; [intros n Hne; exfalso; apply Hne; reflexivity |].
    intros thrown Hne; exfalso; apply Hne; reflexivity.
  - assert (Hno : ~ ((is_str (assoc "result" fields) "win"
                      || is_str (assoc "result" fields) "loss") = false
                     \/ truthy (assoc "amount" fields) = false)).
    { intros Hbad. apply invalid_iff in Hbad. congruence. }
    destruct (run_record_round (assoc "result" fields)
                (assoc "amount" fields) (assoc "playerWallet" fields) w)
      as (tr & Hrun & Hstart & Hins & Hups & _).
    cbv zeta in Hrun.
    destruct (run answer
                (record_round (assoc "result" fields)
                   (assoc "amount" fields) (assoc "playerWallet" fields))
                w) as [[out w'] tr'] eqn:Hrr.
    rewrite (serve_write fields w out w' tr' Hinv Hrr).
    destruct (ToNumber (assoc "amount" fields)) as [thrown | n] eqn:Hn.
    + injection Hrun as -> -> ->.
      do 3 eexists. split; [reflexivity |]. simpl.
      split; [split; [discriminate | intros Hbad; destruct (Hno Hbad)] |].
      split; [discriminate |].
      split; [intros _; apply starts_with_read_app; exact Hstart |].
      split; [intros n _ Hx; discriminate |].
      intros thrown' _ Hx. injection Hx as <-.
      unfold inserts, upserts in *.
      rewrite !count_store_app, Hins, Hups.
      destruct w as [gs gh fl ck tk].
      repeat split.
    + assert (Hcode : forall e : Thrown,
                status (JsonError (str_or (message e)
                                     "Failed to update stats") 500)
                = 400%Z -> False) by (intros e Hx; discriminate).
      assert (Htr : snd (out, w', tr') = tr).
      { rewrite Hrun.
        repeat match goal with
               | |- context [match ?x with _ => _ end] => destruct x
               end; reflexivity. }
      simpl in Htr. subst tr'.
      destruct w as [gs gh fl ck tk].
      destruct fl as [| f1 fl].
      * simpl in Hrun. injection Hrun as -> ->.
        do 3 eexists. split; [reflexivity |]. simpl.
        split; [split; [discriminate | intros Hbad; destruct (Hno Hbad)] |].
        split; [discriminate |].
        split; [intros _; exact Hstart |].
        split; [| intros thrown _ Hx; discriminate].
        intros n' _ Hx _. injection Hx as <-.
        simpl in Hins, Hups.
        split; [reflexivity |]. split; [reflexivity |].
        split; [exact Hins |]. split; [exact Hups |].
        split; reflexivity.
      * exists (match out with
                | inr resp => resp
                | inl e => JsonError (str_or (message e)
                                        "Failed to update stats") 500
                end).
        destruct out as [e | resp].
        { do 2 eexists. split; [reflexivity |].
          split; [split; [intros Hx; destruct (Hcode e Hx)
                         | intros Hbad; destruct (Hno Hbad)] |].
          split; [intros Hx; destruct (Hcode e Hx) |].
          split; [intros _; apply starts_with_read_app; exact Hstart |].
          split; [intros n' _ _ Hx; discriminate |].
          intros thrown _ Hx. discriminate. }
        { assert (Hok : status resp = 200%Z).
          { destruct (first_fault
                        (after_read
                           {| global_stats := gs; game_history := gh;
                              faults := f1 :: fl; clock := ck;
                              ticks := tk |}));
              try discriminate;
              match type of Hrun with
              | context [write_outcome ?f] => destruct (write_outcome f)
              end; try discriminate;
              injection Hrun as -> _; reflexivity. }
          do 2 eexists. split; [reflexivity |].
          split; [split; [rewrite Hok; discriminate
                         | intros Hbad; destruct (Hno Hbad)] |].
          split; [rewrite Hok; discriminate |].
          split; [intros _; exact Hstart |].
          split; [intros n' _ _ Hx; discriminate |].
          intros thrown _ Hx. discriminate. }
Qed.

(** C6. A write that passed the input check and whose amount reads as
    the number [n], against a store that answers every query, leaves an
    aggregate row whose bet count is the one read plus 1, whose wagered
    total is the one read plus [n], and in which exactly the counter of
    the outcome is one higher and the other one unchanged; it appends one
    row to the history; and it answers with the statistics the store then
    shows. In particular, from the aggregate at zero and an empty
    history, the write of a win of 0.2 yields 1 bet, 0.2 wagered, 1 win
    and 0 losses, and the history consists of the row of that win. *)
Theorem C6_write_adds_one_round :
  (forall (fields : list (string * value)) (w : World) (n : float),
     faults w = [] ->
     invalid (assoc "result" fields) (assoc "amount" fields) = false ->
     ToNumber (assoc "amount" fields) = inr n ->
     let result := assoc "result" fields in
     let before := snapshot w in
     exists resp w' tr row,
       serve (POST (parsed (VObj fields))) w = (inr resp, w', tr)
       /\ resp = JsonUpdated (snapshot w')
       /\ global_stats w' = Some row
       /\ total_bets row = (totalBets before + 1)%float
       /\ total_wagered row = (totalWagered before + n)%float
       /\ (is_str result "win" = true ->
           wins_col row = (wins before + 1)%float
           /\ losses_col row = losses before)
       /\ (is_str result "loss" = true ->
           losses_col row = (losses before + 1)%float
           /\ wins_col row = wins before)
       /\ (is_str result "win" = true \/ is_str result "loss" = true)
       /\ game_history w'
          = game_history w
            ++ [history_row result n (assoc "playerWallet" fields)
                  (clock w (ticks w))])
  /\ (forall (updated : Z) (clock : nat -> Z) (ticks : nat),
        let w0 := {| global_stats :=
                       Some {| total_bets := 0; total_wagered := 0;
                               wins_col := 0; losses_col := 0;
                               updated_at := updated |};
                     game_history := [];
                     faults := [];
                     clock := clock;
                     ticks := ticks |} in
        let served :=
          serve (POST (parsed (VObj [("result", VStr "win");
                                     ("amount", VNum 0.2)]))) w0 in
        fst (fst served)
        = inr (JsonUpdated
                 {| totalBets := 1; totalWagered := 0.2;
                    wins := 1; losses := 0;
                    gameHistory :=
                      [ {| result := VStr "win"; amount := 0.2;
                           timestamp := clock ticks;
                           playerWallet := VNull |} ] |})
        /\ global_stats (snd (fst served))
           = Some {| total_bets := 1; total_wagered := 0.2;
                     wins_col := 1; losses_col := 0;
                     updated_at := clock (S ticks) |}).
Proof.
  split.
  - intros fields w n Hf Hvalid Hn result before.
    destruct (valid_outcome _ _ Hvalid) as [(Hw & Hl) | (Hw & Hl)];
      fold result in Hw, Hl;
      destruct (with_counters_add_zero (global_stats w) (history_view w))
        as (Hwins0 & Hlosses0);
      fold (snapshot w) in Hwins0, Hlosses0;
      fold before in Hwins0, Hlosses0;
      destruct (run_record_round result (assoc "amount" fields)
                  (assoc "playerWallet" fields) w)
        as (tr & Hrun & _);
      cbv zeta in Hrun; rewrite Hn in Hrun;
      subst result before;
      destruct w as [gs gh fl ck tk]; simpl in Hf; subst fl;
      simpl in Hrun;
      rewrite (serve_write _ _ _ _ _ Hvalid Hrun);
      do 4 eexists; (split; [reflexivity |]);
      (split; [reflexivity |]); (split; [reflexivity |]);
      (split; [reflexivity |]); (split; [reflexivity |]);
      cbn [wins_col losses_col updated_row]; rewrite Hw, Hl;
      (split; [intros Hx; try discriminate;
               (split; [reflexivity | assumption]) |]);
      (split; [intros Hx; try discriminate;
               (split; [reflexivity | assumption]) |]);
      (split; [auto | reflexivity]).
  - intros updated ck tk w0 served. subst served w0.
    split; vm_compute; reflexivity.
Qed.


End Route.

(** C8, as the specification states it, fails: the history query of this store
    returns an error, and the read answers with the counters of the store
    (5 rounds), not with the zero-valued defaults. *)
Lemma C8_counterexample :
  (exists e, second_fault Scenario.history_outage = ReturnsError e)
  /\ fst (fst (serve GET Scenario.history_outage))
     = inr (JsonStats {| totalBets := 5; totalWagered := 1.5;
                         wins := 3; losses := 2; gameHistory := [] |})
  /\ JsonStats {| totalBets := 5; totalWagered := 1.5;
                  wins := 3; losses := 2; gameHistory := [] |}
     <> JsonStats defaultStats.
Proof.
  split; [eexists; reflexivity |].
  split; [vm_compute; reflexivity |].
  intros Heq.
  apply (f_equal (fun r => match r with
                           | JsonStats st => is_zero (totalBets st)
                           | _ => true
                           end)) in Heq.
  vm_compute in Heq. discriminate.
Qed.

(** C9, as the specification states it, fails: this write has the outcome "win"
    and carries an amount, the number 0, and it is refused with status
    400 without a call to the store. *)
Lemma C9_counterexample :
  is_str (assoc "result" (Scenario.round "win" (VNum 0))) "win" = true
  /\ defined (assoc "amount" (Scenario.round "win" (VNum 0))) = true
  /\ serve (POST (H := Scenario.numeric_runtime)
              (parsed (VObj (Scenario.round "win" (VNum 0)))))
           Scenario.fresh_store
     = (inr (JsonError "Invalid request data" 400),
        Scenario.fresh_store, []).
Proof. repeat split. Qed.


(** ** The properties at concrete stores *)

(** C6 at the write of a loss of 0.5 into the fresh store. *)
Lemma C6_witness :
  faults Scenario.fresh_store = []
  /\ exists resp w' tr row,
       serve (POST (H := Scenario.numeric_runtime)
                (parsed (VObj (Scenario.round "loss" (VNum 0.5)))))
             Scenario.fresh_store
       = (inr resp, w', tr)
       /\ resp = JsonUpdated (snapshot w')
       /\ global_stats w' = Some row
       /\ total_bets row = 1%float
       /\ total_wagered row = 0.5%float
       /\ List.length (game_history w') = 1%nat.
Proof.
  split; [reflexivity |].
  destruct (proj1 (@C6_write_adds_one_round Scenario.numeric_runtime)
              (Scenario.round "loss" (VNum 0.5)) Scenario.fresh_store
              0.5%float eq_refl eq_refl eq_refl)
    as (resp & w' & tr & row & Hserve & Hresp & Hrow & Hbets & Hwagered
        & _ & _ & _ & Hhistory).
  exists resp, w', tr, row.
  repeat (split; [assumption |]).
  rewrite Hhistory. reflexivity.
Defined.


(** C8 at the store whose history query times out. *)
Lemma C8_witness :
  first_fault Scenario.history_outage = NoFault
  /\ exists stats w' tr,
       serve GET Scenario.history_outage = (inr (JsonStats stats), w', tr)
       /\ (List.length (gameHistory stats) <= 20)%nat
       /\ stats = with_counters (global_stats Scenario.history_outage) [].
Proof.
  split; [reflexivity |].
  destruct (C8_read_never_fails_and_is_bounded Scenario.history_outage)
    as (stats & w' & tr & Hserve & _ & Hlen & _ & _ & _ & _ & Herr & _).
  exists stats, w', tr.
  split; [exact Hserve |]. split; [exact Hlen |].
  exact (Herr _ eq_refl eq_refl).
Defined.

(** C9 at the write of a win of 0.2 into the fresh store: it is
    applied. *)
Lemma C9_witness :
  exists resp w' tr,
    serve (POST (H := Scenario.numeric_runtime)
             (parsed (VObj (Scenario.round "win" (VNum 0.2)))))
          Scenario.fresh_store
    = (inr resp, w', tr)
    /\ status resp = 200%Z
    /\ List.length (game_history w') = 1%nat
    /\ option_map total_bets (global_stats w') = Some 1%float.
Proof.
  destruct (@C9_write_refused_exactly_on_bad_outcome_or_falsy_amount
              Scenario.numeric_runtime
              (Scenario.round "win" (VNum 0.2)) Scenario.fresh_store)
    as (resp & w' & tr & Hserve & H400 & _ & _ & Happlied & _).
  assert (Hne : status resp <> 400%Z).
  { intros Hx. apply H400 in Hx. destruct Hx; discriminate. }
  destruct (Happlied 0.2%float Hne eq_refl eq_refl)
    as (_ & Hok & _ & _ & Hhistory & Hrow).
  exists resp, w', tr.
  split; [exact Hserve |]. split; [exact Hok |].
  rewrite Hhistory, Hrow. split; reflexivity.
Defined.

(** The write of the specification, run. *)
Example first_win_recorded :
  fst (fst (serve (POST (H := Scenario.numeric_runtime)
                     (parsed (VObj (Scenario.round "win" (VNum 0.2)))))
                  Scenario.fresh_store))
  = inr (JsonUpdated
           {| totalBets := 1; totalWagered := 0.2; wins := 1; losses := 0;
              gameHistory :=
                [ {| result := VStr "win"; amount := 0.2;
                     timestamp := 1700000001000;
                     playerWallet := VNull |} ] |}).
Proof. vm_compute. reflexivity. Qed.

(** A write whose amount cannot be read as a number is answered with
    status 500 after the first read. *)
Example unreadable_amount_not_recorded :
  let served :=
    serve (POST (H := Scenario.numeric_runtime)
             (parsed (VObj (Scenario.round "win"
                              Scenario.unreadable_amount))))
          Scenario.fresh_store in
  fst (fst served)
  = inr (JsonError "Cannot convert object to primitive value" 500)
  /\ StoreCalls.inserts (snd served) = 0%nat
  /\ StoreCalls.upserts (snd served) = 0%nat
  /\ game_history (snd (fst served)) = [].
Proof. vm_compute. repeat split. Qed.

(** An empty store is read as the defaults. *)
Example empty_store_reads_defaults :
  fst (fst (serve GET
              {| global_stats := None; game_history := []; faults := [];
                 clock := fun _ => 0%Z; ticks := 0 |}))
  = inr (JsonStats defaultStats).
Proof. vm_compute. reflexivity. Qed.

End StatsFacts.

(* ================================================================== *)
(** * Two statistics writes in flight: every schedule *)
(* ================================================================== *)

Module ConcurrentFacts.
Import JS Eff Stats Concurrent.

Lemma schedules_step (a b : nat) :
  schedules (S a) (S b)
  = map (cons true) (schedules a (S b))
    ++ map (cons false) (schedules (S a) b).
Proof. reflexivity. Qed.

Lemma no_calls_repeat (who : bool) (sched : list bool) :
  calls who sched = 0%nat ->
  sched = repeat (negb who) (calls (negb who) sched).
Proof.
  unfold calls. induction sched as [| x sched IH]; simpl; [reflexivity |].
  destruct who, x; simpl; try discriminate; intros Hz;
    f_equal; exact (IH Hz).
Qed.

(** [schedules] misses no schedule. *)
Lemma schedules_complete (sched : list bool) :
  In sched (schedules (calls true sched) (calls false sched)).
Proof.
  induction sched as [| x sched IH].
  - left. reflexivity.
  - destruct x.
    + change (calls true (true :: sched)) with (S (calls true sched)).
      change (calls false (true :: sched)) with (calls false sched).
      destruct (calls false sched) as [| b] eqn:Hb.
      * left. simpl. f_equal.
        exact (eq_sym (no_calls_repeat false sched Hb)).
      * rewrite schedules_step. apply in_or_app. left.
        apply in_map. exact IH.
    + change (calls true (false :: sched)) with (calls true sched).
      change (calls false (false :: sched)) with (S (calls false sched)).
      destruct (calls true sched) as [| a] eqn:Ha.
      * left. simpl. f_equal.
        exact (eq_sym (no_calls_repeat true sched Ha)).
      * rewrite schedules_step. apply in_or_app. right.
        apply in_map. exact IH.
Qed.

Lemma counters_are_spec (w : World) (bets won lost : float) :
  counters_are w bets won lost = true ->
  exists row,
    global_stats w = Some row
    /\ total_bets row = bets /\ wins_col row = won /\ losses_col row = lost.
Proof.
  unfold counters_are. destruct (global_stats w) as [row |]; [| discriminate].
  intros Hc. apply andb_true_iff in Hc. destruct Hc as [Hc Hl].
  apply andb_true_iff in Hc. destruct Hc as [Hb Hw].
  apply Leibniz.eqb_spec in Hb, Hw, Hl. exists row. auto.
Qed.

Lemma answered_ok_spec (p : Prog Op Response) :
  answered_ok p = true -> exists resp, p = Ret resp /\ status resp = 200%Z.
Proof.
  destruct p as [resp | e | X op k]; simpl; try discriminate.
  intros Hs. apply Z.eqb_eq in Hs. exists resp. auto.
Qed.

(** The calls of a write that meets no fault: the upsert is the sixth,
    and the first is the read of the aggregate. *)
Example calls_of_a_fault_free_write :
  map call_name
      (snd (serve (POST (H := Scenario.numeric_runtime)
                     (parsed (VObj (Scenario.round "win" (VNum 0.2)))))
                  Scenario.fresh_store))
  = [ "select global_stats"; "select game_history";
      "new Date"; "insert game_history";
      "new Date"; "upsert global_stats";
      "select global_stats"; "select game_history" ].
Proof. vm_compute. reflexivity. Qed.

Lemma ends_well_spec (p q : Prog Op Response) (w0 : World)
    (sched : list bool) :
  ends_well p q w0 sched = true ->
  exists resp1 resp2 w' row,
    interleave answer sched p q w0 = (Ret resp1, Ret resp2, w')
    /\ status resp1 = 200%Z /\ status resp2 = 200%Z
    /\ List.length (game_history w') = 2%nat
    /\ global_stats w' = Some row
    /\ (serialized sched = true ->
        total_bets row = 2%float
        /\ wins_col row = 1%float /\ losses_col row = 1%float)
    /\ (serialized sched = false ->
        total_bets row = 1%float
        /\ ((wins_col row = 1%float /\ losses_col row = 0%float)
            \/ (wins_col row = 0%float /\ losses_col row = 1%float))).
Proof.
  unfold ends_well.
  destruct (interleave answer sched p q w0) as [[p' q'] w'].
  intros Hok. apply andb_true_iff in Hok. destruct Hok as [Hok Hcount].
  apply andb_true_iff in Hok. destruct Hok as [Hok Hlen].
  apply andb_true_iff in Hok. destruct Hok as [Hp Hq].
  apply answered_ok_spec in Hp, Hq.
  destruct Hp as (resp1 & -> & Hs1). destruct Hq as (resp2 & -> & Hs2).
  apply Nat.eqb_eq in Hlen.
  destruct (serialized sched).
  - apply counters_are_spec in Hcount.
    destruct Hcount as (row & Hrow & Hb & Hw & Hl).
    exists resp1, resp2, w', row.
    repeat (split; [first [reflexivity | assumption] |]).
    split; [auto | discriminate].
  - apply orb_true_iff in Hcount.
    destruct Hcount as [Hcount | Hcount];
      apply counters_are_spec in Hcount;
      destruct Hcount as (row & Hrow & Hb & Hw & Hl);
      exists resp1, resp2, w', row;
      repeat (split; [first [reflexivity | assumption] |]);
      (split; [discriminate | auto]).
Qed.

Section Writes.
Context `{Runtime}.

(** C10, as the code has it. Two writes, one of a win and one of a loss,
    whose amounts read as numbers, start from the aggregate at zero and
    are served call by call in any order. Both are always answered with status 200 and both history rows
    are appended. The aggregate ends at 2 bets, 1 win and 1 loss when one
    write reads the aggregate after the upsert of the other, which
    includes serving one write after the other, in either order. In every
    other schedule each write has read the aggregate before the other
    wrote it, the later upsert overwrites the earlier one, and the
    aggregate ends at 1 bet. *)
Theorem C10_two_writes_converge_exactly_when_serialized
    (a b : value) (x y : float)
    (updated : Z) (clock : nat -> Z) (ticks : nat) :
  truthy a = true ->
  truthy b = true ->
  ToNumber a = inr x ->
  ToNumber b = inr y ->
  let w0 := zero_store updated clock ticks in
  let p := POST (parsed (VObj [("result", VStr "win"); ("amount", a)])) in
  let q := POST (parsed (VObj [("result", VStr "loss"); ("amount", b)])) in
  serialized (one_after_the_other true) = true
  /\ serialized (one_after_the_other false) = true
  /\ serialized both_read_first = false
  /\ forall sched,
       calls true sched = calls_of_a_write ->
       calls false sched = calls_of_a_write ->
       exists resp1 resp2 w' row,
         interleave answer sched p q w0 = (Ret resp1, Ret resp2, w')
         /\ status resp1 = 200%Z /\ status resp2 = 200%Z
         /\ List.length (game_history w') = 2%nat
         /\ global_stats w' = Some row
         /\ (serialized sched = true ->
             total_bets row = 2%float
             /\ wins_col row = 1%float /\ losses_col row = 1%float)
         /\ (serialized sched = false ->
             total_bets row = 1%float
             /\ ((wins_col row = 1%float /\ losses_col row = 0%float)
                 \/ (wins_col row = 0%float /\ losses_col row = 1%float))).
Proof.
  intros Ha Hb Hx Hy w0 p q.
  split; [reflexivity |]. split; [reflexivity |]. split; [reflexivity |].
  assert (Hall : forallb (ends_well p q w0)
                         (schedules calls_of_a_write calls_of_a_write)
                 = true).
  { assert (Hva : invalid (VStr "win") a = false).
    { unfold invalid. simpl. rewrite Ha. reflexivity. }
    assert (Hvb : invalid (VStr "loss") b = false).
    { unfold invalid. simpl. rewrite Hb. reflexivity. }
    assert (Hp : p = catch (record_round (VStr "win") (VNum x) VUndefined)
                           update_failed).
    { transitivity
        (catch (if invalid (VStr "win") a
                then Ret (JsonError "Invalid request data" 400)
                else record_round (VStr "win") a VUndefined)
               update_failed); [reflexivity |].
      rewrite Hva. unfold record_round. rewrite Hx. reflexivity. }
    assert (Hq : q = catch (record_round (VStr "loss") (VNum y) VUndefined)
                           update_failed).
    { transitivity
        (catch (if invalid (VStr "loss") b
                then Ret (JsonError "Invalid request data" 400)
                else record_round (VStr "loss") b VUndefined)
               update_failed); [reflexivity |].
      rewrite Hvb. unfold record_round. rewrite Hy. reflexivity. }
    rewrite Hp, Hq. vm_compute. reflexivity. }
  intros sched Htrue Hfalse.
  apply ends_well_spec.
  rewrite forallb_forall in Hall. apply Hall.
  pose proof (schedules_complete sched) as Hin.
  rewrite Htrue, Hfalse in Hin. exact Hin.
Qed.

End Writes.

(** C10, as the specification states it, fails: when both writes read the
    aggregate before either writes it, both are answered with status 200
    and the aggregate ends at 1 bet, 0 wins and 1 loss: the win is
    lost. *)
Lemma C10_counterexample :
  calls true both_read_first = 8%nat
  /\ calls false both_read_first = 8%nat
  /\ fst (interleave answer both_read_first
            (POST (H := Scenario.numeric_runtime)
               (parsed (VObj (Scenario.round "win" (VNum 0.1)))))
            (POST (H := Scenario.numeric_runtime)
               (parsed (VObj (Scenario.round "loss" (VNum 0.3)))))
            Scenario.fresh_store)
     = (Ret (JsonUpdated
               {| totalBets := 1; totalWagered := 0.1;
                  wins := 1; losses := 0;
                  gameHistory :=
                    [ {| result := VStr "win"; amount := 0.1;
                         timestamp := 1700000001000;
                         playerWallet := VNull |} ] |}),
        Ret (JsonUpdated
               {| totalBets := 1; totalWagered := 0.3;
                  wins := 0; losses := 1;
                  gameHistory :=
                    [ {| result := VStr "loss"; amount := 0.3;
                         timestamp := 1700000001002;
                         playerWallet := VNull |};
                      {| result := VStr "win"; amount := 0.1;
                         timestamp := 1700000001000;
                         playerWallet := VNull |} ] |}))
  /\ global_stats
       (snd (interleave answer both_read_first
               (POST (H := Scenario.numeric_runtime)
                  (parsed (VObj (Scenario.round "win" (VNum 0.1)))))
               (POST (H := Scenario.numeric_runtime)
                  (parsed (VObj (Scenario.round "loss" (VNum 0.3)))))
               Scenario.fresh_store))
     = Some {| total_bets := 1; total_wagered := 0.3;
               wins_col := 0; losses_col := 1;
               updated_at := 1700000001003 |}.
Proof. repeat split; vm_compute; reflexivity. Qed.

(** C10 at the two writes served one after the other, the loss first. *)
Lemma C10_witness :
  truthy (VNum 0.1) = true
  /\ truthy (VNum 0.3) = true
  /\ calls true (one_after_the_other false) = calls_of_a_write
  /\ exists resp1 resp2 w' row,
       interleave answer (one_after_the_other false)
         (POST (H := Scenario.numeric_runtime)
            (parsed (VObj [("result", VStr "win"); ("amount", VNum 0.1)])))
         (POST (H := Scenario.numeric_runtime)
            (parsed (VObj [("result", VStr "loss"); ("amount", VNum 0.3)])))
         (zero_store 0 (fun n => Z.of_nat n) 0)
       = (Ret resp1, Ret resp2, w')
       /\ global_stats w' = Some row
       /\ total_bets row = 2%float
       /\ wins_col row = 1%float
       /\ losses_col row = 1%float.
Proof.
  split; [reflexivity |]. split; [reflexivity |]. split; [reflexivity |].
  destruct (@C10_two_writes_converge_exactly_when_serialized
              Scenario.numeric_runtime (VNum 0.1) (VNum 0.3)
              0.1%float 0.3%float
              0%Z (fun n => Z.of_nat n) 0%nat
              eq_refl eq_refl eq_refl eq_refl)
    as (_ & Hserial & _ & Hall).
  destruct (Hall (one_after_the_other false) eq_refl eq_refl)
    as (resp1 & resp2 & w' & row & Hrun & _ & _ & _ & Hrow & Hyes & _).
  destruct (Hyes Hserial) as (Hbets & Hwins & Hlosses).
  exists resp1, resp2, w', row. auto.
Defined.

End ConcurrentFacts.

(* ================================================================== *)
(** * The settlement route: its helpers and its other paths *)
(* ================================================================== *)

Module PlayCoverage.
Import JS Eff EffFacts Play Calls.

Lemma count_calls_app (P : forall X, Op X -> bool)
    (tr1 tr2 : list (Event Op)) :
  count_calls P (tr1 ++ tr2) = (count_calls P tr1 + count_calls P tr2)%nat.
Proof.
  induction tr1 as [| [X op x] tr1 IH]; simpl; [reflexivity |].
  destruct (P X op); simpl; rewrite IH; reflexivity.
Qed.

Lemma probed_app (tr1 tr2 : list (Event Op)) :
  probed (tr1 ++ tr2) = probed tr1 ++ probed tr2.
Proof.
  induction tr1 as [| [X op x] tr1 IH]; simpl; [reflexivity |].
  destruct op; simpl; rewrite IH; reflexivity.
Qed.

Lemma built_app (tr1 tr2 : list (Event Op)) :
  built (tr1 ++ tr2) = built tr1 ++ built tr2.
Proof.
  induction tr1 as [| [X op x] tr1 IH]; simpl; [reflexivity |].
  destruct op; simpl; rewrite IH; reflexivity.
Qed.

Lemma decodings_app (tr1 tr2 : list (Event Op)) :
  decodings (tr1 ++ tr2) = decodings tr1 ++ decodings tr2.
Proof.
  induction tr1 as [| [X op x] tr1 IH]; simpl; [reflexivity |].
  destruct op; simpl; rewrite IH; reflexivity.
Qed.

Section Route.
Context `{Runtime}.
Variable penv : ProcessEnv.
Variable env : Env.

(** ** The endpoint candidates *)

(** Between two and five candidates. *)
Lemma RPC_ENDPOINTS_length :
  (2 <= List.length (RPC_ENDPOINTS penv) <= 5)%nat.
Proof.
  unfold RPC_ENDPOINTS, filter_Boolean.
  destruct (SOLANA_RPC_ENDPOINT penv) as [e1 |];
    destruct (SOLANA_RPC_ENDPOINT_2 penv) as [e2 |];
    destruct (SOLANA_RPC_ENDPOINT_3 penv) as [e3 |]; simpl;
    repeat match goal with
           | |- context [String.eqb ?e EmptyString] =>
               destruct (String.eqb e EmptyString)
           end; simpl; lia.
Qed.

Lemma set_value_spec (o : option string) (endpoint : string) :
  In endpoint (set_value o) <-> o = Some endpoint /\ endpoint <> EmptyString.
Proof.
  unfold set_value. destruct o as [s |]; simpl.
  - destruct (String.eqb_spec s EmptyString) as [-> | Hne]; simpl.
    + split; [intros [] | intros ([= <-] & Hne); apply Hne; reflexivity].
    + split.
      * intros [<- | []]. auto.
      * intros ([= ->] & _). auto.
  - split; [intros [] | intros (Hx & _); discriminate].
Qed.

(** X2. The list of endpoint candidates is made of the values of the
    three environment variables that are set and not empty, in the order
    of the variables, followed by the two public endpoints. So every
    configured endpoint is a candidate, and is tried before the public
    ones; the list holds no empty entry; it has between two and five
    entries; and the candidate [getConnection] falls back to, the first
    one, is always there: it is the first configured endpoint, or the
    first public one when none is configured. *)
Theorem X2_candidates_end_with_public_endpoints :
  let configured :=
    set_value (SOLANA_RPC_ENDPOINT penv)
    ++ set_value (SOLANA_RPC_ENDPOINT_2 penv)
    ++ set_value (SOLANA_RPC_ENDPOINT_3 penv) in
  RPC_ENDPOINTS penv
  = configured ++ [ "https://api.mainnet-beta.solana.com";
                    "https://rpc.ankr.com/solana" ]
  /\ (List.length configured <= 3)%nat
  /\ (forall endpoint,
        In endpoint configured
        <-> endpoint <> EmptyString
            /\ (SOLANA_RPC_ENDPOINT penv = Some endpoint
                \/ SOLANA_RPC_ENDPOINT_2 penv = Some endpoint
                \/ SOLANA_RPC_ENDPOINT_3 penv = Some endpoint))
  /\ ~ In EmptyString (RPC_ENDPOINTS penv)
  /\ nth 0 (RPC_ENDPOINTS penv) EmptyString
     = hd "https://api.mainnet-beta.solana.com" configured
  /\ nth 0 (RPC_ENDPOINTS penv) EmptyString <> EmptyString.
Proof.
  intros configured.
  assert (Heq : RPC_ENDPOINTS penv
                = configured ++ [ "https://api.mainnet-beta.solana.com";
                                  "https://rpc.ankr.com/solana" ]).
  { unfold RPC_ENDPOINTS, filter_Boolean, configured. simpl.
    rewrite <- !app_assoc. reflexivity. }
  assert (Hin : forall endpoint,
            In endpoint configured
            <-> endpoint <> EmptyString
                /\ (SOLANA_RPC_ENDPOINT penv = Some endpoint
                    \/ SOLANA_RPC_ENDPOINT_2 penv = Some endpoint
                    \/ SOLANA_RPC_ENDPOINT_3 penv = Some endpoint)).
  { intros endpoint. unfold configured.
    rewrite !in_app_iff, !set_value_spec. tauto. }
  assert (Hempty : ~ In EmptyString (RPC_ENDPOINTS penv)).
  { rewrite Heq, in_app_iff. intros [Hc | Hp].
    - apply Hin in Hc. destruct Hc as (Hne & _). apply Hne. reflexivity.
    - simpl in Hp. intuition discriminate. }
  assert (Hfirst : nth 0 (RPC_ENDPOINTS penv) EmptyString
                   = hd "https://api.mainnet-beta.solana.com" configured).
  { rewrite Heq. destruct configured; reflexivity. }
  split; [exact Heq |].
  split.
  { unfold configured, set_value. rewrite !length_app.
    destruct (SOLANA_RPC_ENDPOINT penv) as [e1 |];
      destruct (SOLANA_RPC_ENDPOINT_2 penv) as [e2 |];
      destruct (SOLANA_RPC_ENDPOINT_3 penv) as [e3 |];
      repeat match goal with
             | |- context [String.eqb ?e EmptyString] =>
                 destruct (String.eqb e EmptyString)
             end; simpl; lia. }
  split; [exact Hin |]. split; [exact Hempty |].
  split; [exact Hfirst |].
  intros Hnth. apply Hempty. rewrite <- Hnth.
  apply nth_In. pose proof RPC_ENDPOINTS_length. lia.
Qed.

(** ** [getConnection] *)

Lemma getConnection_from_probes (endpoints : list string) (t : nat) :
  let first := nth 0 (RPC_ENDPOINTS penv) EmptyString in
  exists tr,
    run (answer env) (getConnection_from penv endpoints) t
    = (match first_live env endpoints with
       | Some conn => inr conn
       | None => new_connection env first
       end, t, tr)
    /\ rpc_calls tr = List.length (probed tr)
    /\ key_loads tr = 0%nat /\ random_calls tr = 0%nat
    /\ lookups tr = 0%nat /\ sends tr = 0%nat
    /\ ((exists conn failed rest,
           first_live env endpoints = Some conn
           /\ endpoints = failed ++ rpcEndpoint conn :: rest
           /\ all_dead env failed = true
           /\ live env (rpcEndpoint conn) = true
           /\ built tr = failed ++ [rpcEndpoint conn]
           /\ probed tr
              = filter (constructible env) failed ++ [rpcEndpoint conn])
        \/ (first_live env endpoints = None
            /\ all_dead env endpoints = true
            /\ built tr = endpoints ++ [first]
            /\ probed tr = filter (constructible env) endpoints)).
Proof.
  intros first.
  induction endpoints as [| endpoint rest IH]; simpl.
  - fold first.
    destruct (new_connection env first) as [e | conn]; simpl;
      (eexists; split; [reflexivity |]);
      repeat (split; [reflexivity |]); right; auto.
  - assert (Hdead_cons : forall l,
              live env endpoint = false ->
              all_dead env l = true -> all_dead env (endpoint :: l) = true).
    { intros l Hlv Hd. unfold all_dead in *. simpl. rewrite Hlv. exact Hd. }
    destruct (new_connection env endpoint) as [e | conn] eqn:Hnc.
    + assert (Hlv : live env endpoint = false)
        by (unfold live; rewrite Hnc; reflexivity).
      assert (Hc : constructible env endpoint = false)
        by (unfold constructible; rewrite Hnc; reflexivity).
      rewrite Hlv, Hc. simpl.
      destruct IH as (tr & -> & Hrpc & Hk & Hr & Hl & Hs & Hcase).
      eexists. split; [reflexivity |].
      unfold rpc_calls, key_loads, random_calls, lookups, sends in *.
      simpl. rewrite Hrpc, Hk, Hr, Hl, Hs.
      repeat (split; [reflexivity |]).
      destruct Hcase
        as [(conn & failed & rest' & Hfl & -> & Hdead & Hlive & Hb & Hp)
           | (Hfl & Hdead & Hb & Hp)].
      * left. exists conn, (endpoint :: failed), rest'.
        split; [exact Hfl |]. split; [reflexivity |].
        split; [apply Hdead_cons; assumption |].
        split; [exact Hlive |].
        split; [rewrite Hb; reflexivity |].
        simpl. rewrite Hc. exact Hp.
      * right. split; [exact Hfl |].
        split; [first [exact Hdead | apply Hdead_cons; assumption] |].
        split; [rewrite Hb; reflexivity | exact Hp].
    + assert (Hconn : conn = {| rpcEndpoint := endpoint |}).
      { unfold new_connection in Hnc.
        destruct (connection_error env endpoint); [discriminate |].
        injection Hnc as <-. reflexivity. }
      subst conn.
      assert (Hc : constructible env endpoint = true)
        by (unfold constructible; rewrite Hnc; reflexivity).
      rewrite Hc. simpl.
      destruct (slot env {| rpcEndpoint := endpoint |}) as [e | n]
        eqn:Hslot.
      * assert (Hlv : live env endpoint = false)
          by (unfold live; rewrite Hnc, Hslot; reflexivity).
        rewrite Hlv. simpl.
        destruct IH as (tr & -> & Hrpc & Hk & Hr & Hl & Hs & Hcase).
        eexists. split; [reflexivity |].
        unfold rpc_calls, key_loads, random_calls, lookups, sends in *.
        simpl. rewrite Hrpc, Hk, Hr, Hl, Hs.
        repeat (split; [reflexivity |]).
        destruct Hcase
          as [(conn & failed & rest' & Hfl & -> & Hdead & Hlive & Hb & Hp)
             | (Hfl & Hdead & Hb & Hp)].
        { left. exists conn, (endpoint :: failed), rest'.
          split; [exact Hfl |]. split; [reflexivity |].
          split; [apply Hdead_cons; assumption |].
          split; [exact Hlive |].
          split; [rewrite Hb; reflexivity |].
          simpl. rewrite Hc, Hp. reflexivity. }
        { right. split; [exact Hfl |].
          split; [first [exact Hdead | apply Hdead_cons; assumption] |].
          split; [rewrite Hb; reflexivity |].
          rewrite Hp. reflexivity. }
      * assert (Hlv : live env endpoint = true)
          by (unfold live; rewrite Hnc, Hslot; reflexivity).
        rewrite Hlv. simpl.
        eexists. split; [reflexivity |].
        repeat (split; [reflexivity |]).
        left. exists {| rpcEndpoint := endpoint |}, [], rest. simpl.
        auto 10.
Qed.

(** X1. [getConnection] tries the candidates in their order and stops
    at the first one that passes its probe, which it returns: the
    candidates before it were tried and failed, those after it are never
    contacted. A candidate whose connection cannot be built is not probed
    with [getSlot]. When no candidate passes, each of them has been tried
    once, and the connection of the first candidate is built once more,
    outside the [try]: [getConnection] returns it, or throws what building
    it throws. So [getConnection] throws exactly when no candidate passes
    its probe and the connection of the first candidate cannot be built.
    It makes no other call to the node. *)
Theorem X1_first_live_endpoint_is_selected (t : nat) :
  let first := nth 0 (RPC_ENDPOINTS penv) EmptyString in
  exists tr,
    run (answer env) (getConnection penv) t = (connection penv env, t, tr)
    /\ rpc_calls tr = List.length (probed tr)
    /\ ((exists conn failed rest,
           connection penv env = inr conn
           /\ RPC_ENDPOINTS penv = failed ++ rpcEndpoint conn :: rest
           /\ all_dead env failed = true
           /\ live env (rpcEndpoint conn) = true
           /\ built tr = failed ++ [rpcEndpoint conn]
           /\ probed tr
              = filter (constructible env) failed ++ [rpcEndpoint conn])
        \/ (all_dead env (RPC_ENDPOINTS penv) = true
            /\ built tr = RPC_ENDPOINTS penv ++ [first]
            /\ probed tr = filter (constructible env) (RPC_ENDPOINTS penv)
            /\ connection penv env = new_connection env first))
    /\ ((exists e, connection penv env = inl e)
        <-> all_dead env (RPC_ENDPOINTS penv) = true
            /\ constructible env first = false).
Proof.
  intros first.
  destruct (getConnection_from_probes (RPC_ENDPOINTS penv) t)
    as (tr & Hrun & Hrpc & _ & _ & _ & _ & Hcase).
  fold first in Hrun, Hcase. cbv zeta in Hrun, Hcase.
  exists tr. split; [exact Hrun |]. split; [exact Hrpc |].
  unfold connection. fold first.
  destruct Hcase
    as [(conn & failed & rest & Hfl & Heq & Hdead & Hlive & Hb & Hp)
       | (Hfl & Hdead & Hb & Hp)]; rewrite Hfl.
  - split.
    { left. exists conn, failed, rest. auto 10. }
    split; [intros (e & He); discriminate |].
    intros (Hall & _). exfalso.
    rewrite Heq in Hall. unfold all_dead in Hall.
    rewrite forallb_app in Hall. simpl in Hall. rewrite Hlive in Hall.
    simpl in Hall. rewrite andb_false_r in Hall. discriminate.
  - split; [right; auto |].
    unfold constructible.
    destruct (new_connection env first) as [e | conn]; split.
    + auto.
    + intros _. eexists. reflexivity.
    + intros (e & He). discriminate.
    + intros (_ & Hx). discriminate.
Qed.

(** ** [getBankKeypair] *)

Lemma getBankKeypair_calls (t : nat) :
  exists tr,
    run (answer env) (getBankKeypair penv) t = (inr (bank_key penv env), t, tr)
    /\ rpc_calls tr = 0%nat /\ random_calls tr = 0%nat
    /\ lookups tr = 0%nat /\ sends tr = 0%nat
    /\ payout_calls tr = 0%nat
    /\ key_loads tr = List.length (decodings tr)
    /\ decodings tr
       = let privateKey := opt_str (BANK_PRIVATE_KEY penv) in
         if privateKey =? EmptyString then []
         else match bs58_keypair env privateKey with
              | inr _ => [Base58]
              | inl _ => [Base58; JsonArray]
              end.
Proof.
  unfold getBankKeypair, bank_key.
  destruct (opt_str (BANK_PRIVATE_KEY penv) =? EmptyString); simpl.
  - eexists. repeat split.
  - destruct (bs58_keypair env _) as [e | kp]; simpl.
    + destruct (json_keypair env _) as [e' | kp]; simpl;
        eexists; repeat split.
    + eexists. repeat split.
Qed.

(** X3. [getBankKeypair] never throws and never contacts the node. It
    returns no key exactly when the variable is unset or empty, or when
    neither format decodes. The base58 format is tried first; the JSON
    array format is tried only when base58 failed, and a key that decodes
    as base58 is returned as such. *)
Theorem X3_signing_key_loaded_base58_first (t : nat) :
  let privateKey := opt_str (BANK_PRIVATE_KEY penv) in
  exists loaded tr,
    run (answer env) (getBankKeypair penv) t = (inr loaded, t, tr)
    /\ rpc_calls tr = 0%nat
    /\ (loaded = None
        <-> privateKey = EmptyString
            \/ ((exists e, bs58_keypair env privateKey = inl e)
                /\ exists e, json_keypair env privateKey = inl e))
    /\ (forall kp, bs58_keypair env privateKey = inr kp ->
        privateKey <> EmptyString ->
        loaded = Some kp /\ decodings tr = [Base58])
    /\ (In JsonArray (decodings tr) ->
        exists e, bs58_keypair env privateKey = inl e).
Proof.
  intros privateKey.
  destruct (getBankKeypair_calls t)
    as (tr & Hrun & Hrpc & _ & _ & _ & _ & _ & Hdec).
  exists (bank_key penv env), tr.
  split; [exact Hrun |]. split; [exact Hrpc |].
  fold privateKey in Hdec. unfold bank_key. fold privateKey.
  cbv zeta in Hdec. rewrite Hdec.
  destruct (String.eqb_spec privateKey EmptyString) as [Hempty | Hset].
  - split; [split; auto |]. split; [intros kp _ Hne; contradiction |].
    intros [].
  - destruct (bs58_keypair env privateKey) as [e | kp] eqn:Hb58.
    + destruct (json_keypair env privateKey) as [e' | kp] eqn:Hjson.
      * split.
        { split; [intros _; right; split; eexists; reflexivity |].
          reflexivity. }
        split; [intros kp Hkp; discriminate |].
        intros _. eexists. reflexivity.
      * split.
        { split; [discriminate |].
          intros [Hempty | (_ & e' & He')]; [contradiction | discriminate]. }
        split; [intros kp' Hkp; discriminate |].
        intros _. eexists. reflexivity.
    + split.
      { split; [discriminate |].
        intros [Hempty | ((e & He) & _)]; [contradiction | discriminate]. }
      split.
      { intros kp' Hkp _. injection Hkp as ->. auto. }
      simpl. intros [Hin | []]. discriminate.
Qed.

(** ** The health and info operation *)

(** The number of candidates is reported as it is. *)
Lemma endpoint_count_on_wire :
  json_number
    (of_uint63 (Uint63.of_Z (Z.of_nat (List.length (RPC_ENDPOINTS penv)))))
  = VNum (of_uint63
            (Uint63.of_Z (Z.of_nat (List.length (RPC_ENDPOINTS penv))))).
Proof.
  pose proof RPC_ENDPOINTS_length as Hlen.
  destruct (List.length (RPC_ENDPOINTS penv)) as [| [| [| [| [| [| n]]]]]];
    try lia; vm_compute; reflexivity.
Qed.

(** X4. The health operation always answers with status 200 without
    contacting the node or drawing a number; it reports the payout as
    enabled exactly when a signing key loads, the number of endpoint
    candidates, which lies between 2 and 5, and the fixed game
    parameters. *)
Theorem X4_health_reports_key_and_candidates (t : nat) :
  exists resp tr,
    run (answer env) (GET penv) t = (inr resp, t, tr)
    /\ status resp = 200%Z
    /\ rpc_calls tr = 0%nat /\ random_calls tr = 0%nat
    /\ (field resp "payoutEnabled" = VBool true
        <-> exists kp, bank_key penv env = Some kp)
    /\ (field resp "payoutEnabled" = VBool false
        <-> bank_key penv env = None)
    /\ field resp "rpcEndpoints"
       = VNum (of_uint63
                 (Uint63.of_Z (Z.of_nat (List.length (RPC_ENDPOINTS penv)))))
    /\ (2 <= List.length (RPC_ENDPOINTS penv) <= 5)%nat
    /\ field resp "fee" = VStr "0%"
    /\ field resp "multiplier" = VStr "2x".
Proof.
  unfold GET. rewrite run_bind.
  destruct (getBankKeypair_calls t)
    as (tr & -> & Hrpc & Hrand & _ & _ & _ & _ & _).
  unfold and_then. simpl.
  do 2 eexists. split; [reflexivity |]. split; [reflexivity |].
  rewrite app_nil_r. split; [exact Hrpc |]. split; [exact Hrand |].
  unfold field. simpl.
  split.
  { destruct (bank_key penv env) as [kp |]; split;
      try discriminate; eauto.
    intros (kp & Hkp). discriminate. }
  split.
  { destruct (bank_key penv env) as [kp |]; split;
      try discriminate; auto. }
  split; [apply endpoint_count_on_wire |].
  split; [| split; reflexivity].
  exact RPC_ENDPOINTS_length.
Qed.

(** ** [verifyTransaction] *)

Lemma verifyTransaction_calls (conn : Connection)
    (signature sender amount : value) (t : nat) :
  exists tr,
    run (answer env) (verifyTransaction conn signature sender amount) t
    = (inr (verdict (signature_status env conn signature) amount), t, tr)
    /\ lookups tr = 1%nat /\ rpc_calls tr = 1%nat
    /\ key_loads tr = 0%nat /\ random_calls tr = 0%nat /\ sends tr = 0%nat
    /\ forall sender' amount',
         exists tr',
           run (answer env)
               (verifyTransaction conn signature sender' amount') t
           = (inr (verdict (signature_status env conn signature) amount'),
              t, tr')
           /\ tr' = tr.
Proof.
  unfold verifyTransaction, verdict. simpl.
  destruct (signature_status env conn signature) as [e | [st |]]; simpl.
  - eexists. repeat split. intros. eexists. split; reflexivity.
  - destruct (err st); simpl.
    + eexists. repeat split. intros. eexists. split; reflexivity.
    + destruct (has_slice signature); simpl; eexists; repeat split;
        intros; eexists; split; reflexivity.
  - eexists. repeat split. intros. eexists. split; reflexivity.
Qed.

(** X5. [verifyTransaction] never throws and asks the node once, for the
    status of the signature. Its verdict is negative exactly when a status
    was found with an error set. Neither the expected sender nor the
    expected amount takes part in it: called with any other sender and
    amount it makes the same calls and gives the same verdict; the amount
    it reports is the one it was given. *)
Theorem X5_verification_ignores_sender_and_amount (conn : Connection)
    (signature sender amount sender' amount' : value) (t : nat) :
  exists v v' tr,
    run (answer env) (verifyTransaction conn signature sender amount) t
    = (inr v, t, tr)
    /\ run (answer env) (verifyTransaction conn signature sender' amount') t
       = (inr v', t, tr)
    /\ valid v = valid v' /\ error v = error v'
    /\ lookups tr = 1%nat /\ rpc_calls tr = 1%nat
    /\ (valid v = false
        <-> marks_failure (signature_status env conn signature) = true)
    /\ (valid v = true -> actualAmount v = Some amount).
Proof.
  destruct (verifyTransaction_calls conn signature sender amount t)
    as (tr & Hrun & Hl & Hrpc & _ & _ & _ & Hother).
  destruct (Hother sender' amount') as (tr' & Hrun' & ->).
  do 3 eexists. split; [exact Hrun |]. split; [exact Hrun' |].
  unfold verdict.
  destruct (marks_failure (signature_status env conn signature)); simpl;
    repeat split; auto; discriminate.
Qed.

(** ** [sendPayout] *)

Lemma str_or_not_empty (a b : string) :
  b <> EmptyString -> str_or a b <> EmptyString.
Proof.
  unfold str_or. destruct (String.eqb_spec a EmptyString); auto.
Qed.

Lemma sendPayout_calls (conn : Connection) (kp : Keypair) (winner : value)
    (amount : float) (t : nat) :
  exists tr,
    run (answer env) (sendPayout conn kp winner amount) t
    = (inr (payout_of (broadcast env conn kp winner amount)), t, tr)
    /\ key_loads tr = 0%nat /\ random_calls tr = 0%nat /\ lookups tr = 0%nat
    /\ (sends tr <= 1)%nat
    /\ (sends tr = 1%nat
        <-> exists pk bh,
              public_key env winner = inr pk
              /\ system_transfer env (payout_transfer kp pk amount) = inr tt
              /\ latest_blockhash env conn = inr bh
              /\ sign env (payout_transaction kp pk amount bh) kp = inr tt
              /\ serialize env (payout_transaction kp pk amount bh)
                 = inr tt)
    /\ ((exists e, public_key env winner = inl e) ->
        rpc_calls tr = 0%nat /\ transfers tr = []).
Proof.
  unfold sendPayout, broadcast, payout_transaction, payout_transfer. simpl.
  destruct (public_key env winner) as [e | pk]; simpl;
    [| destruct (system_transfer env _) as [e | []] eqn:Hbuild; simpl;
       [| destruct (latest_blockhash env conn) as [e | bh]; simpl;
          [| destruct (sign env _ kp) as [e | []] eqn:Hsign; simpl;
             [| destruct (serialize env _) as [e | []] eqn:Hser; simpl;
                [| destruct (send_raw env conn _) as [e | sig]; simpl]]]]];
    (eexists; split; [reflexivity |]);
    repeat split; simpl; auto; try lia; try discriminate;
    try (intros _; exists pk, bh; auto; fail);
    intros;
    repeat match goal with
           | Hx : exists _, _ |- _ => destruct Hx
           | Hx : _ /\ _ |- _ => destruct Hx
           end;
    congruence.
Qed.

(** X6. [sendPayout] never throws. It reports success exactly when the
    address parses, the transfer is built, a blockhash is fetched, the
    transaction is signed and serialized and the node accepts it, and
    then carries the signature and no error; otherwise it carries a
    non-empty error message and no signature. It hands at most one
    transaction to the node, and only after the five earlier steps
    returned; an address that does not parse stops it before any call to
    the node. *)
Theorem X6_payout_sent_at_most_once (conn : Connection) (kp : Keypair)
    (winner : value) (amount : float) (t : nat) :
  exists p tr,
    run (answer env) (sendPayout conn kp winner amount) t = (inr p, t, tr)
    /\ (success p = true
        <-> exists sig, broadcast env conn kp winner amount = inr sig)
    /\ (success p = true ->
        payout_error p = None /\ exists sig, signature p = Some sig)
    /\ (success p = false ->
        signature p = None
        /\ exists msg, payout_error p = Some msg /\ msg <> EmptyString)
    /\ (sends tr <= 1)%nat
    /\ (sends tr = 1%nat
        <-> exists pk bh,
              public_key env winner = inr pk
              /\ system_transfer env (payout_transfer kp pk amount) = inr tt
              /\ latest_blockhash env conn = inr bh
              /\ sign env (payout_transaction kp pk amount bh) kp = inr tt
              /\ serialize env (payout_transaction kp pk amount bh)
                 = inr tt)
    /\ ((exists sig, broadcast env conn kp winner amount = inr sig) ->
        sends tr = 1%nat)
    /\ ((exists e, public_key env winner = inl e) ->
        rpc_calls tr = 0%nat /\ transfers tr = []).
Proof.
  destruct (sendPayout_calls conn kp winner amount t)
    as (tr & Hrun & _ & _ & _ & Hle & Hone & Hbad).
  do 2 eexists. split; [exact Hrun |].
  assert (Hsent : (exists sig, broadcast env conn kp winner amount = inr sig)
                  -> sends tr = 1%nat).
  { intros (sig & Hsig). apply Hone. revert Hsig.
    unfold broadcast. fold (payout_transfer kp).
    destruct (public_key env winner) as [e | pk]; [discriminate |].
    destruct (system_transfer env _) as [e | []] eqn:Hbuild;
      [discriminate |].
    destruct (latest_blockhash env conn) as [e | bh]; [discriminate |].
    fold (payout_transaction kp pk amount bh).
    destruct (sign env _ kp) as [e | []] eqn:Hsign; [discriminate |].
    destruct (serialize env _) as [e | []] eqn:Hser; [discriminate |].
    intros _. exists pk, bh. auto. }
  unfold payout_of.
  destruct (broadcast env conn kp winner amount) as [e | sig]; simpl.
  - split; [split; [discriminate | intros (sig & Hsig); discriminate] |].
    split; [discriminate |].
    split.
    { intros _. split; [reflexivity |]. eexists. split; [reflexivity |].
      apply str_or_not_empty. discriminate. }
    auto.
  - split; [split; eauto |].
    split; [intros _; split; eauto |].
    split; [discriminate |]. auto.
Qed.

(** ** The whole handler *)

Lemma getConnection_calls (t : nat) :
  exists tr,
    run (answer env) (getConnection penv) t = (connection penv env, t, tr)
    /\ key_loads tr = 0%nat /\ random_calls tr = 0%nat
    /\ lookups tr = 0%nat /\ sends tr = 0%nat.
Proof.
  destruct (getConnection_from_probes (RPC_ENDPOINTS penv) t)
    as (tr & Hrun & _ & Hk & Hr & Hl & Hs & _).
  exists tr. auto.
Qed.

#[local] Opaque getBankKeypair sendPayout getConnection verifyTransaction.
#[local] Opaque Math_floor.

Lemma settle_calls (start : float) (conn : Connection)
    (wallet amount : value) (p : float) (t : nat) :
  times_two amount = inr p ->
  exists resp tr t',
    run (answer env) (settle penv start conn wallet amount) t
    = (inr resp, t', tr)
    /\ status resp = 200%Z
    /\ random_calls tr = 1%nat /\ lookups tr = 0%nat
    /\ (sends tr <= 1)%nat /\ (key_loads tr <= 2)%nat
    /\ (if (random env <? 0.5)%float then field resp "result" = VStr "win"
        else field resp "result" = VStr "loss"
             /\ key_loads tr = 0%nat /\ sends tr = 0%nat
             /\ rpc_calls tr = 0%nat).
Proof.
  intros Hp.
  unfold settle, determineResult. rewrite Hp. simpl.
  destruct (random env <? 0.5)%float; simpl.
  - rewrite run_bind.
    destruct (getBankKeypair_calls t)
      as (tr1 & -> & _ & Hr1 & Hl1 & Hs1 & _ & Hk1 & Hdec).
    assert (Hk1' : (key_loads tr1 <= 2)%nat).
    { rewrite Hk1, Hdec. cbv zeta.
      destruct (_ =? _); [simpl; lia |].
      destruct (bs58_keypair env _); simpl; lia. }
    unfold and_then.
    destruct (bank_key penv env) as [kp |]; simpl.
    + rewrite run_bind.
      destruct (sendPayout_calls conn kp wallet p t)
        as (tr2 & -> & Hk2 & Hr2 & Hl2 & Hs2 & _).
      unfold and_then.
      destruct (broadcast env conn kp wallet p)
        as [e | sig]; simpl;
        (do 3 eexists; split; [reflexivity |]);
        unfold random_calls, lookups, sends, key_loads in *; simpl;
        rewrite !count_calls_app; simpl; rewrite !count_calls_app; simpl;
        rewrite ?Hr1, ?Hl1, ?Hs1, ?Hk2, ?Hr2, ?Hl2;
        repeat split; try reflexivity; lia.
    + do 3 eexists. split; [reflexivity |].
      unfold random_calls, lookups, sends, key_loads in *; simpl.
      rewrite !count_calls_app; simpl.
      rewrite ?Hr1, ?Hl1, ?Hs1.
      repeat split; try reflexivity; lia.
  - do 3 eexists. split; [reflexivity |].
    unfold random_calls, lookups, sends, key_loads, rpc_calls.
    repeat split; simpl; try reflexivity; lia.
Qed.

#[local] Opaque settle.

(** Every request, followed to its answer. *)
Lemma serve_all (request : NextRequest) :
  exists resp tr,
    serve penv env request = (inr resp, tr)
    /\ (status resp = 200%Z \/ status resp = 400%Z \/ status resp = 500%Z)
    /\ (status resp = 500%Z
        <-> checked request = None
            \/ (exists e, checked request = Some (inl e))
            \/ (checked request = Some (inr None)
                /\ connectable penv env = false))
    /\ (random_calls tr <= 1)%nat /\ (lookups tr <= 1)%nat
    /\ (sends tr <= 1)%nat /\ (key_loads tr <= 2)%nat
    /\ (status resp = 200%Z ->
        random_calls tr = 1%nat /\ lookups tr = 1%nat
        /\ (field resp "result" = VStr "win"
            \/ field resp "result" = VStr "loss"
               /\ key_loads tr = 0%nat /\ sends tr = 0%nat))
    /\ (status resp <> 200%Z ->
        random_calls tr = 0%nat /\ key_loads tr = 0%nat
        /\ sends tr = 0%nat /\ field resp "result" = VUndefined)
    /\ (checked request <> Some (inr None) -> rpc_calls tr = 0%nat).
Proof.
  unfold serve, POST, checked. simpl.
  destruct (json request) as [e | body]; simpl.
  { do 2 eexists. split; [reflexivity |]. simpl.
    repeat split; auto; try lia; try discriminate. }
  unfold destructure. destruct (nullish body) eqn:Hnull; simpl.
  { do 2 eexists. split; [reflexivity |]. simpl.
    repeat split; auto; try lia; try discriminate. }
  destruct (validate (get body "signature") (get body "playerWallet")
                     (get body "betAmount")) as [e | [rejection |]] eqn:Hval.
  { simpl. do 2 eexists. split; [reflexivity |]. simpl.
    repeat split; eauto; try lia; try discriminate. }
  { simpl. do 2 eexists. split; [reflexivity |].
    destruct (PlayFacts.validate_rejection _ _ _ _ Hval) as (Hst & Hfield).
    rewrite Hst. simpl.
    repeat split; auto; try lia; try discriminate.
    intros [Hx | [(e & Hx) | (Hx & _)]]; discriminate. }
  destruct (PlayFacts.validate_passed _ _ _ Hval)
    as (_ & _ & _ & n & _ & _ & Htwo).
  simpl. rewrite run_catch, run_bind.
  destruct (getConnection_calls 1)
    as (tr0 & -> & Hk0 & Hr0 & Hl0 & Hs0).
  unfold and_then, connectable.
  destruct (connection penv env) as [e | conn]; simpl.
  { do 2 eexists. split; [reflexivity |].
    unfold random_calls, lookups, sends, key_loads, rpc_calls in *; simpl.
    repeat (progress (simpl; rewrite ?count_calls_app)).
    rewrite Hk0, Hr0, Hl0, Hs0.
    repeat split; auto; try lia; try discriminate.
    intros Hx. exfalso. apply Hx. reflexivity. }
  rewrite run_bind.
  destruct (verifyTransaction_calls conn (get body "signature")
              (get body "playerWallet") (get body "betAmount") 1)
    as (tr1 & -> & Hl1 & _ & Hk1 & Hr1 & Hs1 & _).
  unfold and_then, verdict.
  destruct (marks_failure _); simpl.
  - do 2 eexists. split; [reflexivity |].
    unfold random_calls, lookups, sends, key_loads, rpc_calls in *; simpl.
    repeat (progress (simpl; rewrite ?count_calls_app)).
    rewrite Hk0, Hr0, Hl0, Hs0, Hl1, Hk1, Hr1, Hs1.
    repeat split; auto; try lia; try discriminate.
    + intros [Hx | [(e & Hx) | (_ & Hx)]]; discriminate.
    + intros Hx. exfalso. apply Hx. reflexivity.
  - destruct (settle_calls (clock env 0) conn (get body "playerWallet")
                (get body "betAmount") _ 1 Htwo)
      as (resp & tr & t' & -> & Hstatus & Hr & Hl & Hs & Hk & Hres).
    simpl. do 2 eexists. split; [reflexivity |].
    rewrite Hstatus.
    unfold random_calls, lookups, sends, key_loads, rpc_calls in *; simpl.
    repeat (progress (simpl; rewrite ?count_calls_app)).
    rewrite Hk0, Hr0, Hl0, Hs0, Hl1, Hk1, Hr1, Hs1, Hr, Hl.
    split; [auto |].
    split.
    { split; [discriminate |].
      intros [Hx | [(e & Hx) | (_ & Hx)]]; discriminate. }
    split; [lia |]. split; [lia |]. split; [lia |]. split; [lia |].
    split.
    { intros _. split; [lia |]. split; [lia |].
      destruct (random env <? 0.5)%float; [left; exact Hres |].
      right. destruct Hres as (Hloss & Hk' & Hs' & _).
      split; [exact Hloss |]. lia. }
    split; [intros Hne; exfalso; apply Hne; reflexivity |].
    intros Hx. exfalso. apply Hx. reflexivity.
Qed.

(** X7. The settlement handler answers every request: it never lets an
    exception out, and its status is 200, 400 or 500. It answers 500
    exactly when the body cannot be parsed or is [null], when comparing
    the amount with zero throws, or when the request passed the input
    checks and [getConnection] throws. A request that did not pass the
    input checks has not contacted the node. A request that is not
    answered with status 200 has drawn no number, loaded no key and sent
    nothing, and its answer carries no outcome. *)
Theorem X7_every_request_is_answered (request : NextRequest) :
  exists resp tr,
    serve penv env request = (inr resp, tr)
    /\ (status resp = 200%Z \/ status resp = 400%Z \/ status resp = 500%Z)
    /\ (status resp = 500%Z
        <-> checked request = None
            \/ (exists e, checked request = Some (inl e))
            \/ (checked request = Some (inr None)
                /\ connectable penv env = false))
    /\ (checked request = None <-> readable request = false)
    /\ (checked request <> Some (inr None) -> rpc_calls tr = 0%nat)
    /\ (status resp <> 200%Z ->
        random_calls tr = 0%nat /\ key_loads tr = 0%nat
        /\ sends tr = 0%nat /\ field resp "result" = VUndefined).
Proof.
  destruct (serve_all request)
    as (resp & tr & Hserve & Hst & H500 & _ & _ & _ & _ & _ & Hno & Hrpc).
  exists resp, tr.
  split; [exact Hserve |]. split; [exact Hst |]. split; [exact H500 |].
  split; [| auto].
  unfold checked, readable.
  destruct (json request) as [e | body]; [split; reflexivity |].
  destruct (nullish body); simpl; split; try reflexivity; discriminate.
Qed.

(** X8. Whatever the request and the environment, one settlement request
    looks up the transfer status at most once, draws at most one number
    and hands at most one transaction to the node. A transaction is sent
    only in a round answered as a win, and a round answered as a loss
    has not even tried to load the signing key. *)
Theorem X8_at_most_one_payout_and_only_on_a_win (request : NextRequest) :
  exists resp tr,
    serve penv env request = (inr resp, tr)
    /\ (lookups tr <= 1)%nat /\ (random_calls tr <= 1)%nat
    /\ (sends tr <= 1)%nat
    /\ (sends tr = 1%nat ->
        status resp = 200%Z /\ field resp "result" = VStr "win")
    /\ (field resp "result" = VStr "loss" ->
        key_loads tr = 0%nat /\ sends tr = 0%nat).
Proof.
  destruct (serve_all request)
    as (resp & tr & Hserve & Hst & _ & Hr & Hl & Hs & _ & H200 & Hno & _).
  exists resp, tr. split; [exact Hserve |].
  split; [exact Hl |]. split; [exact Hr |]. split; [exact Hs |].
  assert (Hcases : status resp = 200%Z \/ status resp <> 200%Z).
  { destruct Hst as [-> | [-> | ->]]; [left; reflexivity | right | right];
      discriminate. }
  split.
  - intros Hone. destruct Hcases as [Hok | Hne].
    + split; [exact Hok |].
      destruct (H200 Hok) as (_ & _ & [Hwin | (_ & _ & Hzero)]);
        [exact Hwin | lia].
    + destruct (Hno Hne) as (_ & _ & Hzero & _). lia.
  - intros Hloss. destruct Hcases as [Hok | Hne].
    + destruct (H200 Hok) as (_ & _ & [Hwin | (_ & Hk & Hz)]);
        [congruence | auto].
    + destruct (Hno Hne) as (_ & _ & _ & Hund). congruence.
Qed.

(** ** The input checks on the amount *)

Lemma not_le_zero_is_positive (n : float) :
  is_zero n = false -> is_nan n = false -> (n <=? 0)%float = false ->
  (0 <? n)%float = true.
Proof.
  unfold is_zero, is_nan.
  rewrite ltb_spec, leb_spec, !eqb_spec.
  replace (Prim2SF 0) with (S754_zero false) by reflexivity.
  replace (Prim2SF zero) with (S754_zero false) by reflexivity.
  unfold SFltb, SFleb, SFeqb.
  destruct (Prim2SF n) as [s | s | | s m e]; simpl;
    try destruct s; simpl; try discriminate; auto.
Qed.

(** X9. With a transfer reference and a bettor address present, a
    numeric wager amount passes the input checks exactly when it is above
    zero: NaN, zero, minus zero and every negative number are refused with
    status 400 and the message "Invalid bet amount". *)
Theorem X9_numeric_amount_accepted_iff_positive
    (signature playerWallet : value) (n : float) :
  truthy signature = true ->
  truthy playerWallet = true ->
  (validate signature playerWallet (VNum n) = inr None
   <-> (0 <? n)%float = true)
  /\ ((0 <? n)%float = false ->
      validate signature playerWallet (VNum n)
      = inr (Some (NextResponse_json_status
                     [("error", VStr "Invalid bet amount")] 400))).
Proof.
  intros Hs Hw. unfold validate, le_zero, ToNumber. rewrite Hs, Hw. simpl.
  destruct (is_zero n || is_nan n) eqn:Hzn; simpl.
  - assert (Hnot : (0 <? n)%float = false).
    { destruct (0 <? n)%float eqn:Hpos; [| reflexivity].
      destruct (NumFacts.positive_number n Hpos) as (Hz & Hnan & _).
      rewrite Hz, Hnan in Hzn. discriminate. }
    rewrite Hnot. split; [split; discriminate | reflexivity].
  - apply orb_false_iff in Hzn. destruct Hzn as [Hz Hnan].
    destruct (n <=? 0)%float eqn:Hle.
    + assert (Hnot : (0 <? n)%float = false).
      { destruct (0 <? n)%float eqn:Hpos; [| reflexivity].
        destruct (NumFacts.positive_number n Hpos) as (_ & _ & Hle').
        congruence. }
      rewrite Hnot. split; [split; discriminate | reflexivity].
    + rewrite (not_le_zero_is_positive n Hz Hnan Hle).
      split; [split; reflexivity | discriminate].
Qed.

(** X10. The input checks do not ask the wager amount to be a number.
    An amount that is a JSON object without a property [toString] passes
    them, since as a number it is NaN and NaN is not [<= 0]; the round is
    settled, and on a win the payout is NaN, which the caller receives
    as [null], and the transfers built and sent carry NaN lamports. An
    amount that is a JSON object with a property [toString] cannot be
    compared with zero: the comparison throws, and the request is
    answered with status 500 before any call to the node. *)
Theorem X10_object_amount_is_settled_as_NaN
    (fields obj : list (string * value)) :
  truthy (assoc "signature" fields) = true ->
  truthy (assoc "playerWallet" fields) = true ->
  assoc "betAmount" fields = VObj obj ->
  (has_own "toString" obj = false ->
   validate (assoc "signature" fields) (assoc "playerWallet" fields)
            (assoc "betAmount" fields) = inr None
   /\ (connectable penv env = true ->
       marks_failure (lookup penv env (assoc "signature" fields)) = false ->
       exists resp tr,
         serve penv env (parsed (VObj fields)) = (inr resp, tr)
         /\ status resp = 200%Z
         /\ (field resp "result" = VStr "win" ->
             field resp "potentialWin" = VNull)
         /\ Forall (fun x => lamports x = nan) (transfers tr)))
  /\ (has_own "toString" obj = true ->
      serve penv env (parsed (VObj fields))
      = (inr (server_error not_primitive),
         [Ev DateNow (clock env 0); Ev (ConsoleError "API error:") tt])).
Proof.
  intros Hs Hw Hb. split; intros Hown.
  - assert (Hval : validate (assoc "signature" fields)
                            (assoc "playerWallet" fields)
                            (assoc "betAmount" fields) = inr None).
    { unfold validate, le_zero, ToNumber. rewrite Hs, Hw, Hb. simpl.
      rewrite Hown. reflexivity. }
    split; [exact Hval |]. intros Hconn Hok.
    destruct (PlayFacts.serve_settled penv env (VObj fields) eq_refl Hval
                Hconn Hok)
      as (resp & tr & p & Hserve & Hp & Hstatus & _ & _ & _ & _ & Hpay
          & Hres).
    simpl get in *. rewrite Hb in *.
    unfold times_two, ToNumber in Hp. rewrite Hown in Hp.
    injection Hp as <-.
    exists resp, tr. split; [exact Hserve |]. split; [exact Hstatus |].
    split.
    + intros Hwin. destruct (random env <? 0.5)%float.
      * destruct Hres as (_ & Hpot & _). rewrite Hpot. reflexivity.
      * destruct Hres as (Hloss & _). congruence.
    + unfold pays_only in Hpay.
      replace (Math_floor (nan * 2 * LAMPORTS_PER_SOL)) with nan in Hpay
        by (vm_compute; reflexivity).
      exact Hpay.
  - apply PlayFacts.serve_check_threw; [reflexivity |].
    simpl get. unfold validate, le_zero, ToNumber. rewrite Hs, Hw, Hb.
    simpl. rewrite Hown. reflexivity.
Qed.

End Route.

(** X9 at a wager of 0.1. *)
Lemma X9_witness :
  truthy (VStr "5VERv8") = true
  /\ truthy (VStr "Player") = true
  /\ (validate (H := Scenario.numeric_runtime)
        (VStr "5VERv8") (VStr "Player") (VNum 0.1) = inr None
      <-> (0 <? 0.1)%float = true).
Proof.
  split; [reflexivity |]. split; [reflexivity |].
  exact (proj1 (@X9_numeric_amount_accepted_iff_positive
                  Scenario.numeric_runtime (VStr "5VERv8") (VStr "Player")
                  0.1%float eq_refl eq_refl)).
Defined.

(** X10 at a wager whose amount is the empty object. *)
Lemma X10_witness :
  assoc "betAmount" (Scenario.wager (VObj [])) = VObj []
  /\ exists resp tr,
       serve (H := Scenario.numeric_runtime) Scenario.configured
             (Scenario.healthy 0.25)
             (parsed (VObj (Scenario.wager (VObj []))))
       = (inr resp, tr)
       /\ status resp = 200%Z
       /\ (field resp "result" = VStr "win" ->
           field resp "potentialWin" = VNull)
       /\ Forall (fun x => lamports x = nan) (transfers tr).
Proof.
  split; [reflexivity |].
  destruct (proj1 (@X10_object_amount_is_settled_as_NaN
                     Scenario.numeric_runtime Scenario.configured
                     (Scenario.healthy 0.25) (Scenario.wager (VObj [])) []
                     eq_refl eq_refl eq_refl) eq_refl)
    as (_ & Hsettled).
  exact (Hsettled eq_refl eq_refl).
Defined.

(** An amount with a property [toString] is answered with status 500. *)
Example unreadable_amount_is_a_server_error :
  serve (H := Scenario.numeric_runtime) Scenario.configured
        (Scenario.healthy 0.25)
        (parsed (VObj (Scenario.wager Scenario.unreadable_amount)))
  = (inr {| status := 500;
            payload :=
              [("error",
                VStr "Cannot convert object to primitive value")] |},
     [Ev DateNow 1000%float; Ev (ConsoleError "API error:") tt]).
Proof. vm_compute. reflexivity. Qed.

(** With no node in reach and a first endpoint that is no URL,
    [getConnection] throws after the probes. *)
Example no_endpoint_to_fall_back_to :
  connectable Scenario.misconfigured (Scenario.offline 0.25) = false
  /\ fst (serve (H := Scenario.numeric_runtime) Scenario.misconfigured
                (Scenario.offline 0.25)
                (parsed (VObj (Scenario.wager (VNum 0.2)))))
     = inr (server_error Scenario.no_scheme)
  /\ probed (snd (serve (H := Scenario.numeric_runtime)
                    Scenario.misconfigured (Scenario.offline 0.25)
                    (parsed (VObj (Scenario.wager (VNum 0.2))))))
     = [ "https://api.mainnet-beta.solana.com";
         "https://rpc.ankr.com/solana" ].
Proof. vm_compute. repeat split. Qed.

End PlayCoverage.
(* ================================================================== *)
(** * The statistics route: what it does to the store *)
(* ================================================================== *)

Module StatsCoverage.
Import JS Eff EffFacts Stats StoreCalls StatsFacts.

(** ** The order of the history query *)

Lemma insert_desc_perm (r : HistoryRow) (l : list HistoryRow) :
  Permutation (r :: l) (insert_desc r l).
Proof.
  induction l as [| x l IH]; simpl; [apply Permutation_refl |].
  destruct (timestamp_col x <? timestamp_col r)%Z.
  - apply Permutation_refl.
  - eapply Permutation_trans; [apply perm_swap |].
    apply perm_skip. exact IH.
Qed.

Lemma order_desc_perm (l : list HistoryRow) :
  Permutation l (order_desc l).
Proof.
  induction l as [| r l IH]; simpl; [constructor |].
  eapply Permutation_trans; [| apply insert_desc_perm].
  apply perm_skip. exact IH.
Qed.

Lemma sorted_app_cross {A} (R : A -> A -> Prop) (a b : list A) :
  StronglySorted R (a ++ b) ->
  forall x y, In x a -> In y b -> R x y.
Proof.
  induction a as [| z a IH]; simpl; intros Hs x y Hx Hy; [destruct Hx |].
  apply StronglySorted_inv in Hs. destruct Hs as [Hs Hall].
  destruct Hx as [<- | Hx].
  - rewrite Forall_forall in Hall. apply Hall.
    apply in_or_app. right. exact Hy.
  - exact (IH Hs x y Hx Hy).
Qed.

(** A row newer than every stored one is the first of the query after it
    is appended. *)
Lemma order_desc_newest (r : HistoryRow) (l : list HistoryRow) :
  Forall (fun x => (timestamp_col x < timestamp_col r)%Z) l ->
  order_desc (l ++ [r]) = r :: order_desc l.
Proof.
  unfold order_desc. rewrite fold_right_app. simpl.
  induction 1 as [| x l Hx Hall IH]; simpl; [reflexivity |].
  rewrite IH. simpl.
  destruct (Z.ltb_spec (timestamp_col r) (timestamp_col x)); [lia |].
  reflexivity.
Qed.

(** ** Not a number *)

Lemma is_nan_spec (x : float) :
  is_nan x = true <-> Prim2SF x = S754_nan.
Proof.
  unfold is_nan. rewrite eqb_spec. unfold SFeqb, SFcompare.
  destruct (Prim2SF x) as [s | s | | s m e].
  - split; discriminate.
  - destruct s; split; discriminate.
  - split; reflexivity.
  - destruct s; rewrite Z.compare_refl, Pos.compare_cont_refl;
      split; discriminate.
Qed.

(** A sum with NaN is NaN. *)
Lemma is_nan_add_r (x y : float) :
  is_nan y = true -> is_nan (x + y) = true.
Proof.
  rewrite !is_nan_spec, add_spec. intros ->.
  unfold SF64add, SFadd. destruct (Prim2SF x) as [s | s | | s m e];
    reflexivity.
Qed.

(** [NaN || b] is [b]. *)
Lemma num_or_nan (a b : float) : is_nan a = true -> num_or a b = b.
Proof.
  intros Hnan. unfold num_or. rewrite Hnan, orb_true_r. reflexivity.
Qed.

Lemma history_view_firstn (w : World) :
  firstn 20 (history_view w)
  = map item_of_row (firstn 20 (order_desc (game_history w))).
Proof.
  unfold history_view. rewrite firstn_map, firstn_firstn. reflexivity.
Qed.

Lemma history_view_newest (w : World) (r : HistoryRow)
    (l : list HistoryRow) :
  game_history w = l ++ [r] ->
  Forall (fun x => (timestamp_col x < timestamp_col r)%Z) l ->
  history_view w
  = item_of_row r :: map item_of_row (firstn 99 (order_desc l)).
Proof.
  intros Hgh Hall. unfold history_view.
  rewrite Hgh, (order_desc_newest r l Hall). reflexivity.
Qed.

Section Route.
Context `{Runtime}.

#[local] Opaque readStats writeStats history_view num_or.

(** ** Reading *)

(** X11. The statistics read changes nothing: whatever the two queries
    meet, the aggregate row, the history rows and the clock are as before,
    no insert or upsert is issued and the clock is not read. It issues one
    query when the aggregate query fails and two otherwise. *)
Theorem X11_read_leaves_the_store_untouched (w : World) :
  exists stats w' tr,
    serve GET w = (inr (JsonStats stats), w', tr)
    /\ global_stats w' = global_stats w
    /\ game_history w' = game_history w
    /\ clock w' = clock w
    /\ ticks w' = ticks w
    /\ inserts tr = 0%nat
    /\ upserts tr = 0%nat
    /\ clock_reads tr = 0%nat
    /\ selects tr = (if stats_read_fails (first_fault w) then 1 else 2)%nat.
Proof.
  unfold serve, GET. rewrite run_catch, run_bind.
  destruct (readStats_calls w) as (tr1 & -> & _ & Hi & Hu & Hc & Hs & _).
  unfold and_then, or_else. simpl.
  do 3 eexists. split; [reflexivity |].
  unfold inserts, upserts, clock_reads, selects in *.
  rewrite !count_store_app, Hi, Hu, Hc, Hs. simpl.
  repeat split; try reflexivity.
  destruct (stats_read_fails (first_fault w)); reflexivity.
Qed.

(** X14. When both queries of a read are answered, the history returned
    consists of stored rows, each counted once, min(20, number of stored
    rows) of them, and no stored row left out is newer than a row
    returned. *)
Theorem X14_read_returns_the_newest_rows (w : World) :
  first_fault w = NoFault ->
  second_fault w = NoFault ->
  exists stats w' tr shown rest,
    serve GET w = (inr (JsonStats stats), w', tr)
    /\ gameHistory stats = map item_of_row shown
    /\ Permutation (game_history w) (shown ++ rest)
    /\ List.length shown = Nat.min 20 (List.length (game_history w))
    /\ forall old new,
         In old rest -> In new shown ->
         (timestamp_col old <= timestamp_col new)%Z.
Proof.
  intros Hf1 Hf2.
  unfold serve, GET. rewrite run_catch, run_bind.
  destruct (readStats_calls w) as (tr1 & -> & _).
  unfold and_then, or_else. simpl.
  exists (let stats := read_with (first_fault w) (second_fault w) w in
          {| totalBets := totalBets stats;
             totalWagered := totalWagered stats;
             wins := wins stats;
             losses := losses stats;
             gameHistory := firstn 20 (gameHistory stats) |}),
         (after_read w), (tr1 ++ []),
         (firstn 20 (order_desc (game_history w))),
         (skipn 20 (order_desc (game_history w))).
  split; [reflexivity |]. cbv zeta. cbn [gameHistory].
  split.
  { rewrite Hf1, Hf2. unfold read_with. simpl.
    destruct (global_stats w); simpl; apply history_view_firstn. }
  rewrite firstn_skipn.
  split; [apply order_desc_perm |].
  split.
  { rewrite length_firstn.
    rewrite (Permutation_length (order_desc_perm (game_history w))).
    reflexivity. }
  intros old new Hold Hnew.
  pose proof (order_desc_sorted (game_history w)) as Hs.
  rewrite <- (firstn_skipn 20 (order_desc (game_history w))) in Hs.
  exact (sorted_app_cross desc _ _ Hs new old Hnew Hold).
Qed.

(** ** Writing *)

(** X12. Whatever the request and whatever the store does, a statistics
    write is answered with status 200, 400 or 500, appends at most one row
    to the history and removes none, and issues at most one insert and one
    upsert. The aggregate row is replaced when the answer is 200 and is
    untouched otherwise. A body that cannot be parsed, or is [null], is
    answered with 500 before any query. *)
Theorem X12_write_appends_at_most_one_row
    (request : NextRequest) (w : World) :
  exists resp w' tr,
    serve (POST request) w = (inr resp, w', tr)
    /\ (status resp = 200%Z \/ status resp = 400%Z \/ status resp = 500%Z)
    /\ (exists suffix,
          game_history w' = game_history w ++ suffix
          /\ (List.length suffix <= 1)%nat)
    /\ (inserts tr <= 1)%nat
    /\ (upserts tr <= 1)%nat
    /\ (status resp = 200%Z ->
        upserts tr = 1%nat /\ exists row, global_stats w' = Some row)
    /\ (status resp <> 200%Z -> global_stats w' = global_stats w)
    /\ (body_readable request = false ->
        status resp = 500%Z /\ selects tr = 0%nat
        /\ inserts tr = 0%nat /\ upserts tr = 0%nat)
    /\ clock w' = clock w.
Proof.
  unfold serve, POST, body_readable.
  destruct request as [[e | body]]; simpl.
  { do 3 eexists. split; [reflexivity |]. simpl.
    split; [auto |]. split; [exists []; rewrite app_nil_r; auto |].
    repeat split; auto; discriminate. }
  unfold destructure. destruct (nullish body) eqn:Hnull; simpl.
  { do 3 eexists. split; [reflexivity |]. simpl.
    split; [auto |]. split; [exists []; rewrite app_nil_r; auto |].
    repeat split; auto; discriminate. }
  destruct (invalid (get body "result") (get body "amount")); simpl.
  { do 3 eexists. split; [reflexivity |]. simpl.
    split; [auto |]. split; [exists []; rewrite app_nil_r; auto |].
    repeat split; auto; discriminate. }
  rewrite run_catch.
  destruct (run_record_round (get body "result") (get body "amount")
              (get body "playerWallet") w) as (tr & Hrun & _ & Hi & Hu & _).
  cbv zeta in Hrun.
  destruct (ToNumber (get body "amount")) as [thrown | n].
  { rewrite Hrun. unfold or_else. simpl. do 3 eexists.
    split; [reflexivity |].
    unfold upserts, inserts in *.
    rewrite ?count_store_app, Hi, Hu. simpl.
    split; [auto |]. split; [exists []; rewrite app_nil_r; auto |].
    split; [lia |]. split; [lia |].
    split; [discriminate |].
    split; [intros _; reflexivity |].
    split; [discriminate | reflexivity]. }
  assert (Hu' : (upserts tr <= 1)%nat)
    by (rewrite Hu; destruct (insert_returns _); lia).
  assert (Hsuffix :
    forall row,
      exists suffix,
        game_history (after_insert row (after_read w))
        = game_history w ++ suffix
        /\ (List.length suffix <= 1)%nat).
  { intros row. unfold after_insert. simpl.
    destruct (first_fault (after_read w));
      [exists [row] | exists [] | exists []];
      rewrite ?app_nil_r; simpl; auto. }
  destruct (first_fault (after_read w)) as [| e1 | e1] eqn:Hf1.
  - destruct (first_fault (after_insert _ (after_read w)))
      as [| e2 | e2] eqn:Hf2; simpl in Hrun, Hf2, Hu; rewrite Hrun;
      unfold or_else; simpl; do 3 eexists; (split; [reflexivity |]);
      unfold upserts, inserts in *;
      rewrite ?count_store_app; simpl; rewrite ?Nat.add_0_r, ?Hf2;
      (split; [auto |]); (split; [apply Hsuffix |]);
      (split; [lia |]); (split; [lia |]);
      (split; [first [ discriminate
                     | intros _; split;
                         [assumption | eexists; reflexivity] ] |]);
      (split; [first [ intros Hne; exfalso; apply Hne; reflexivity
                     | intros _; reflexivity ] |]);
      (split; [discriminate | reflexivity]).
  - destruct (first_fault (after_insert _ (after_read w)))
      as [| e2 | e2] eqn:Hf2; simpl in Hrun, Hf2, Hu; rewrite Hrun;
      unfold or_else; simpl; do 3 eexists; (split; [reflexivity |]);
      unfold upserts, inserts in *;
      rewrite ?count_store_app; simpl; rewrite ?Nat.add_0_r, ?Hf2;
      (split; [auto |]); (split; [apply Hsuffix |]);
      (split; [lia |]); (split; [lia |]);
      (split; [first [ discriminate
                     | intros _; split;
                         [assumption | eexists; reflexivity] ] |]);
      (split; [first [ intros Hne; exfalso; apply Hne; reflexivity
                     | intros _; reflexivity ] |]);
      (split; [discriminate | reflexivity]).
  - rewrite Hrun. unfold or_else. simpl. do 3 eexists.
    split; [reflexivity |].
    unfold upserts, inserts in *.
    rewrite ?count_store_app. simpl. rewrite ?Nat.add_0_r.
    split; [auto |]. split; [apply Hsuffix |].
    split; [lia |]. split; [lia |].
    split; [discriminate |].
    split; [intros _; reflexivity |].
    split; [discriminate | reflexivity].
Qed.

(** X13. A write whose amount reads as the number [n], whose first read
    comes back with the defaults, because the aggregate query failed or
    the history query threw, and whose insert returns and upsert is
    carried out, is answered with status 200
    and replaces the aggregate row with the counters of one round: 1 bet,
    [n] wagered, and 1 for the outcome. What the row held before is
    gone. *)
Theorem X13_failed_read_resets_the_aggregate
    (fields : list (string * value)) (w : World) (n : float) :
  invalid (assoc "result" fields) (assoc "amount" fields) = false ->
  ToNumber (assoc "amount" fields) = inr n ->
  (stats_read_fails (first_fault w) = true
   \/ exists e, second_fault w = Throws e) ->
  insert_returns (first_fault (after_read w)) = true ->
  carried_out (second_fault (after_read w)) = true ->
  exists resp w' tr row,
    serve (POST (parsed (VObj fields))) w = (inr resp, w', tr)
    /\ status resp = 200%Z
    /\ global_stats w' = Some row
    /\ total_bets row = 1%float
    /\ total_wagered row = (0 + n)%float
    /\ wins_col row
       = (if is_str (assoc "result" fields) "win" then 1 else 0)%float
    /\ losses_col row
       = (if is_str (assoc "result" fields) "loss" then 1 else 0)%float.
Proof.
  intros Hinv Hn Hread Hins Hups.
  unfold serve, POST, parsed, destructure. simpl. rewrite Hinv.
  rewrite run_catch.
  destruct (run_record_round (assoc "result" fields) (assoc "amount" fields)
              (assoc "playerWallet" fields) w) as (tr & Hrun & _).
  cbv zeta in Hrun. rewrite Hn in Hrun.
  assert (Hdef : read_with (first_fault w) (second_fault w) w
                 = defaultStats).
  { unfold read_with. destruct Hread as [-> | [e ->]]; [reflexivity |].
    destruct (stats_read_fails (first_fault w)); reflexivity. }
  rewrite Hdef in Hrun.
  assert (Hf2 : forall row,
            first_fault (after_insert row (after_read w)) = NoFault).
  { intros row.
    change (first_fault (after_insert row (after_read w)))
      with (second_fault (after_read w)).
    destruct (second_fault (after_read w));
      [reflexivity | discriminate | discriminate]. }
  rewrite Hf2 in Hrun.
  assert (Hrun' :
    run answer
      (record_round (assoc "result" fields) (assoc "amount" fields)
         (assoc "playerWallet" fields)) w
    = (let w2 := after_insert
                   (history_row (assoc "result" fields) n
                      (assoc "playerWallet" fields)
                      (clock (after_read w) (ticks (after_read w))))
                   (after_read w) in
       let w3 := after_write
                   (updated_row defaultStats (assoc "result" fields) n
                      (clock w2 (ticks w2))) w2 in
       (inr (JsonUpdated
               (read_with (first_fault w3) (second_fault w3) w3)),
        after_read w3, tr))).
  { rewrite Hrun.
    destruct (first_fault (after_read w)); [reflexivity | reflexivity |].
    discriminate. }
  rewrite Hrun'. unfold or_else. cbv zeta.
  do 4 eexists. split; [reflexivity |]. split; [reflexivity |].
  split.
  { unfold after_read at 1. unfold set_faults. cbn [global_stats].
    unfold after_write at 1. cbn [global_stats]. rewrite Hf2.
    reflexivity. }
  simpl.
  destruct (is_str (assoc "result" fields) "win"),
    (is_str (assoc "result" fields) "loss"); repeat split; reflexivity.
Qed.

(** X17. The statistics in the answer to a write are those of a second
    read. When that read's aggregate query fails, a write whose amount
    reads as a number and that went through is answered with status 200 and the zero-valued defaults,
    while the store holds the row it wrote and the history row it
    appended. *)
Theorem X17_answer_shows_the_second_read
    (fields : list (string * value)) (w : World) (f : Fault)
    (rest : list Fault) (n : float) :
  invalid (assoc "result" fields) (assoc "amount" fields) = false ->
  ToNumber (assoc "amount" fields) = inr n ->
  faults w = NoFault :: NoFault :: NoFault :: NoFault :: f :: rest ->
  stats_read_fails f = true ->
  exists w' tr,
    serve (POST (parsed (VObj fields))) w
    = (inr (JsonUpdated defaultStats), w', tr)
    /\ global_stats w'
       = Some (updated_row (snapshot w) (assoc "result" fields) n
                 (clock w (S (ticks w))))
    /\ game_history w'
       = game_history w
         ++ [history_row (assoc "result" fields) n
               (assoc "playerWallet" fields) (clock w (ticks w))].
Proof.
  intros Hinv Hn Hfaults Hfail.
  unfold serve, POST, parsed, destructure. simpl. rewrite Hinv.
  rewrite run_catch.
  destruct (run_record_round (assoc "result" fields) (assoc "amount" fields)
              (assoc "playerWallet" fields) w) as (tr & Hrun & _).
  cbv zeta in Hrun. rewrite Hn in Hrun.
  destruct w as [gs gh fl ck tk]. simpl in Hfaults. subst fl.
  unfold after_read, after_insert, after_write, first_fault, second_fault,
    set_faults, read_with in Hrun. simpl in Hrun.
  rewrite Hfail in Hrun. rewrite Hrun. unfold or_else.
  do 2 eexists. split; [reflexivity |].
  unfold snapshot. simpl. split; reflexivity.
Qed.

(** X15. After a write whose amount reads as a number, against a store
    that answers every query, with the clock ahead of every stored
    timestamp, the round just written is the
    first entry of the history in the answer, and that history has
    min(100, stored rows + 1) entries: the answer to a write is not cut to
    20 entries. *)
Theorem X15_written_round_comes_first
    (fields : list (string * value)) (w : World) (n : float) :
  invalid (assoc "result" fields) (assoc "amount" fields) = false ->
  ToNumber (assoc "amount" fields) = inr n ->
  faults w = [] ->
  Forall (fun r => (timestamp_col r < clock w (ticks w))%Z)
         (game_history w) ->
  exists stats w' tr older,
    serve (POST (parsed (VObj fields))) w = (inr (JsonUpdated stats), w', tr)
    /\ gameHistory stats
       = item_of_row
           (history_row (assoc "result" fields) n
              (assoc "playerWallet" fields) (clock w (ticks w)))
         :: older
    /\ List.length (gameHistory stats)
       = Nat.min 100 (S (List.length (game_history w))).
Proof.
  intros Hinv Hn Hfaults Hnew.
  unfold serve, POST, parsed, destructure. simpl. rewrite Hinv.
  rewrite run_catch.
  destruct (run_record_round (assoc "result" fields) (assoc "amount" fields)
              (assoc "playerWallet" fields) w) as (tr & Hrun & _).
  cbv zeta in Hrun. rewrite Hn in Hrun.
  destruct w as [gs gh fl ck tk]. simpl in Hfaults, Hnew. subst fl.
  unfold after_read, after_insert, after_write, first_fault, second_fault,
    set_faults, read_with in Hrun. simpl in Hrun.
  rewrite Hrun. unfold or_else.
  match goal with
  | |- context [history_view ?w3] =>
      rewrite (history_view_newest w3 _ gh eq_refl Hnew)
  end.
  do 4 eexists. split; [reflexivity |].
  unfold with_counters. cbn [gameHistory]. split; [reflexivity |].
  cbn [game_history].
  change (List.length (?x :: ?l)) with (S (List.length l)).
  rewrite length_map, length_firstn.
  rewrite <- (Permutation_length (order_desc_perm gh)).
  rewrite Nat.succ_min_distr. reflexivity.
Qed.

(** X20. The input check of a write does not ask the amount to be a
    number. A write whose amount is truthy but reads as NaN, such as an
    object without a property [toString] or a string that is no number,
    is accepted. When its queries
    are answered, whether its insert is carried out or returns an error,
    the wagered total it sends to the store is NaN, and the statistics it
    answers with show a wagered total of 0: what had been wagered before
    is gone, while the bet is counted. *)
Theorem X20_non_numeric_amount_loses_the_wagered_total
    (fields : list (string * value)) (w : World) (f : Fault) (n : float) :
  invalid (assoc "result" fields) (assoc "amount" fields) = false ->
  ToNumber (assoc "amount" fields) = inr n ->
  is_nan n = true ->
  faults w = [NoFault; NoFault; f] ->
  insert_returns f = true ->
  exists stats w' tr row,
    serve (POST (parsed (VObj fields))) w = (inr (JsonUpdated stats), w', tr)
    /\ global_stats w' = Some row
    /\ is_nan (total_wagered row) = true
    /\ total_bets row = (totalBets (snapshot w) + 1)%float
    /\ totalWagered stats = 0%float.
Proof.
  intros Hinv Hn Hnan Hfaults Hins.
  unfold serve, POST, parsed, destructure. simpl. rewrite Hinv.
  rewrite run_catch.
  destruct (run_record_round (assoc "result" fields) (assoc "amount" fields)
              (assoc "playerWallet" fields) w) as (tr & Hrun & _).
  cbv zeta in Hrun. rewrite Hn in Hrun.
  destruct w as [gs gh fl ck tk]. simpl in Hfaults. subst fl.
  unfold after_read, after_insert, after_write, first_fault, second_fault,
    set_faults, read_with in Hrun. simpl in Hrun.
  destruct f as [| e | e]; [| | discriminate]; simpl in Hrun;
    rewrite Hrun; unfold or_else;
    (do 4 eexists; split; [reflexivity |]; split; [reflexivity |]);
    unfold snapshot; simpl;
    (split; [apply is_nan_add_r; exact Hnan |]);
    (split; [reflexivity |]);
    apply num_or_nan, is_nan_add_r; exact Hnan.
Qed.

End Route.

(** X20 at a win whose amount is the empty object, against the store of
    five rounds, the insert being refused. *)
Lemma X20_witness :
  ToNumber (H := Scenario.numeric_runtime)
    (assoc "amount" (Scenario.round "win" (VObj []))) = inr nan
  /\ is_nan nan = true
  /\ insert_returns (ReturnsError Scenario.insert_refused) = true
  /\ exists stats w' tr,
       serve (POST (H := Scenario.numeric_runtime)
                (parsed (VObj (Scenario.round "win" (VObj [])))))
             Scenario.amount_refused
       = (inr (JsonUpdated stats), w', tr)
       /\ totalWagered stats = 0%float.
Proof.
  split; [reflexivity |]. split; [reflexivity |]. split; [reflexivity |].
  destruct (@X20_non_numeric_amount_loses_the_wagered_total
              Scenario.numeric_runtime (Scenario.round "win" (VObj []))
              Scenario.amount_refused
              (ReturnsError Scenario.insert_refused) nan
              eq_refl eq_refl eq_refl eq_refl eq_refl)
    as (stats & w' & tr & row & Hrun & _ & _ & _ & Hzero).
  exists stats, w', tr. auto.
Defined.

(** X13 at a win of 0.2 against the store of five rounds, the first
    query failing to reach it: the aggregate ends at one bet. *)
Lemma X13_witness :
  invalid (assoc "result" (Scenario.round "win" (VNum 0.2)))
          (assoc "amount" (Scenario.round "win" (VNum 0.2))) = false
  /\ exists resp w' tr row,
       serve (POST (H := Scenario.numeric_runtime)
                (parsed (VObj (Scenario.round "win" (VNum 0.2)))))
             Scenario.read_outage
       = (inr resp, w', tr)
       /\ status resp = 200%Z
       /\ global_stats w' = Some row
       /\ total_bets row = 1%float.
Proof.
  split; [reflexivity |].
  destruct (@X13_failed_read_resets_the_aggregate
              Scenario.numeric_runtime (Scenario.round "win" (VNum 0.2))
              Scenario.read_outage 0.2%float eq_refl eq_refl
              (or_introl eq_refl) eq_refl eq_refl)
    as (resp & w' & tr & row & Hrun & Hstatus & Hrow & Hbets & _).
  exists resp, w', tr, row. auto.
Defined.

(** X17 at a win of 0.2 against the store of five rounds, the fifth
    query failing to reach it. *)
Lemma X17_witness :
  stats_read_fails (Throws (mkThrown "fetch failed")) = true
  /\ exists w' tr,
       serve (POST (H := Scenario.numeric_runtime)
                (parsed (VObj (Scenario.round "win" (VNum 0.2)))))
             Scenario.last_read_outage
       = (inr (JsonUpdated defaultStats), w', tr)
       /\ List.length (game_history w') = 2%nat.
Proof.
  split; [reflexivity |].
  destruct (@X17_answer_shows_the_second_read
              Scenario.numeric_runtime (Scenario.round "win" (VNum 0.2))
              Scenario.last_read_outage (Throws (mkThrown "fetch failed"))
              [] 0.2%float eq_refl eq_refl eq_refl eq_refl)
    as (w' & tr & Hrun & _ & Hhistory).
  exists w', tr. split; [exact Hrun |]. rewrite Hhistory. reflexivity.
Defined.

(** X15 at a loss of 0.3 against the store of five rounds. *)
Lemma X15_witness :
  Forall (fun r => (timestamp_col r
                    < clock Scenario.five_rounds
                        (ticks Scenario.five_rounds))%Z)
         (game_history Scenario.five_rounds)
  /\ exists stats w' tr older,
       serve (POST (H := Scenario.numeric_runtime)
                (parsed (VObj (Scenario.round "loss" (VNum 0.3)))))
             Scenario.five_rounds
       = (inr (JsonUpdated stats), w', tr)
       /\ gameHistory stats
          = {| result := VStr "loss"; amount := 0.3;
               timestamp := 1700000001000; playerWallet := VNull |}
            :: older.
Proof.
  assert (Hnew : Forall (fun r => (timestamp_col r
                                   < clock Scenario.five_rounds
                                       (ticks Scenario.five_rounds))%Z)
                        (game_history Scenario.five_rounds)).
  { repeat constructor. }
  split; [exact Hnew |].
  destruct (@X15_written_round_comes_first
              Scenario.numeric_runtime (Scenario.round "loss" (VNum 0.3))
              Scenario.five_rounds 0.3%float eq_refl eq_refl eq_refl Hnew)
    as (stats & w' & tr & older & Hrun & Hfirst & _).
  exists stats, w', tr, older. split; [exact Hrun | exact Hfirst].
Defined.

(** X14 at the store of five rounds. *)
Lemma X14_witness :
  first_fault Scenario.five_rounds = NoFault
  /\ second_fault Scenario.five_rounds = NoFault
  /\ exists stats w' tr shown rest,
       serve GET Scenario.five_rounds
       = (inr (JsonStats stats), w', tr)
       /\ gameHistory stats = map item_of_row shown
       /\ Permutation (game_history Scenario.five_rounds) (shown ++ rest).
Proof.
  split; [reflexivity |]. split; [reflexivity |].
  destruct (X14_read_returns_the_newest_rows Scenario.five_rounds
              eq_refl eq_refl)
    as (stats & w' & tr & shown & rest & Hrun & Hshown & Hperm & _).
  exists stats, w', tr, shown, rest. auto.
Defined.

End StatsCoverage.

(* ================================================================== *)
(** * A read served while a write is in flight: what it can show *)
(* ================================================================== *)

Module ReadDuringWriteFacts.
Import JS Eff Stats Concurrent ReadDuringWrite.

Lemma reads_as_spec (p : Prog Op Response) (bets : float) (rows : nat) :
  reads_as p bets rows = true ->
  exists stats,
    p = Ret (JsonStats stats)
    /\ totalBets stats = bets
    /\ List.length (gameHistory stats) = rows.
Proof.
  destruct p as [[stats | stats | msg code] | e | X op k]; simpl;
    try discriminate.
  intros Hr. apply andb_true_iff in Hr. destruct Hr as [Hb Hn].
  apply Leibniz.eqb_spec in Hb. apply Nat.eqb_eq in Hn.
  exists stats. auto.
Qed.

Lemma zero_is_not_one : 0%float <> 1%float.
Proof.
  intros Heq.
  apply (f_equal (fun x => Leibniz.eqb x 1%float)) in Heq.
  vm_compute in Heq. discriminate.
Qed.

Section ReadAndWrite.
Context `{Runtime}.

(** X16. A read is served call by call while a write of a win, whose
    amount reads as a number, is in flight, in any order, from the
    aggregate at zero and an empty history, against a store that answers
    every query. The write is answered with status 200. The read shows 1 bet when its aggregate
    query is served after the upsert of the write and 0 bets otherwise,
    and one history entry when its history query is served after the
    insert of the write and none otherwise. So, from that store, a read
    can show the history row of a round that its counters do not count
    yet, and it never shows counters that count a round whose history row
    is missing. *)
Theorem X16_read_during_write_never_counts_an_unlisted_round
    (a : value) (x : float)
    (updated : Z) (clock : nat -> Z) (ticks : nat) :
  truthy a = true ->
  ToNumber a = inr x ->
  let w0 := zero_store updated clock ticks in
  let q := POST (parsed (VObj [("result", VStr "win"); ("amount", a)])) in
  (calls true torn_read = calls_of_a_read
   /\ calls false torn_read = calls_of_a_write
   /\ write_call_precedes upsert_call first_read_call torn_read = false
   /\ write_call_precedes insert_call history_read_call torn_read = true)
  /\ forall sched,
       calls true sched = calls_of_a_read ->
       calls false sched = calls_of_a_write ->
       exists stats resp w',
         interleave answer sched GET q w0
         = (Ret (JsonStats stats), Ret resp, w')
         /\ status resp = 200%Z
         /\ totalBets stats
            = (if write_call_precedes upsert_call first_read_call sched
               then 1%float else 0%float)
         /\ List.length (gameHistory stats)
            = (if write_call_precedes insert_call history_read_call sched
               then 1%nat else 0%nat)
         /\ (totalBets stats = 1%float ->
             List.length (gameHistory stats) = 1%nat).
Proof.
  intros Ha Hx w0 q.
  split; [repeat split; reflexivity |].
  assert (Hall : forallb (read_sees GET q w0)
                         (schedules calls_of_a_read calls_of_a_write)
                 = true).
  { assert (Hva : invalid (VStr "win") a = false).
    { unfold invalid. simpl. rewrite Ha. reflexivity. }
    assert (Hq : q = catch (record_round (VStr "win") (VNum x) VUndefined)
                           update_failed).
    { transitivity
        (catch (if invalid (VStr "win") a
                then Ret (JsonError "Invalid request data" 400)
                else record_round (VStr "win") a VUndefined)
               update_failed); [reflexivity |].
      rewrite Hva. unfold record_round. rewrite Hx. reflexivity. }
    rewrite Hq. vm_compute. reflexivity. }
  intros sched Htrue Hfalse.
  rewrite forallb_forall in Hall.
  pose proof (ConcurrentFacts.schedules_complete sched) as Hin.
  rewrite Htrue, Hfalse in Hin.
  specialize (Hall sched Hin). unfold read_sees in Hall.
  destruct (interleave answer sched GET q w0) as [[p' q'] w'].
  apply andb_true_iff in Hall. destruct Hall as [Hall Himp].
  apply andb_true_iff in Hall. destruct Hall as [Hq' Hp'].
  apply ConcurrentFacts.answered_ok_spec in Hq'.
  destruct Hq' as (resp & -> & Hstatus).
  apply reads_as_spec in Hp'. destruct Hp' as (stats & -> & Hbets & Hrows).
  exists stats, resp, w'.
  split; [reflexivity |]. split; [exact Hstatus |].
  split; [exact Hbets |]. split; [exact Hrows |].
  rewrite Hbets, Hrows.
  destruct (write_call_precedes upsert_call first_read_call sched).
  - simpl in Himp. rewrite Himp. reflexivity.
  - intros Hone. destruct (zero_is_not_one Hone).
Qed.

End ReadAndWrite.

(** X16 at the read whose two queries fall on either side of the
    insert: it shows 0 bets and one history entry. *)
Lemma X16_witness :
  truthy (VNum 0.2) = true
  /\ calls true torn_read = calls_of_a_read
  /\ calls false torn_read = calls_of_a_write
  /\ exists stats resp w',
       interleave answer torn_read GET
         (POST (H := Scenario.numeric_runtime)
            (parsed (VObj [("result", VStr "win"); ("amount", VNum 0.2)])))
         (zero_store 0 (fun n => Z.of_nat n) 0)
       = (Ret (JsonStats stats), Ret resp, w')
       /\ totalBets stats = 0%float
       /\ List.length (gameHistory stats) = 1%nat.
Proof.
  split; [reflexivity |]. split; [reflexivity |]. split; [reflexivity |].
  destruct (@X16_read_during_write_never_counts_an_unlisted_round
              Scenario.numeric_runtime (VNum 0.2) 0.2%float
              0%Z (fun n => Z.of_nat n) 0%nat eq_refl eq_refl)
    as (_ & Hall).
  destruct (Hall torn_read eq_refl eq_refl)
    as (stats & resp & w' & Hrun & _ & Hbets & Hrows & _).
  exists stats, resp, w'. auto.
Defined.

End ReadDuringWriteFacts.

(* ================================================================== *)
(** * The settlement route: who pays whom *)
(* ================================================================== *)

Module PlayParties.
Import JS Eff EffFacts Play Calls.

Section Route.
Context `{Runtime}.
Variable penv : ProcessEnv.
Variable env : Env.

(** The handler reads the endpoints and the signing key of the
    configuration, and nothing else of it. *)
Lemma POST_ignores_bank_address (public plain : option string)
    (request : NextRequest) :
  POST (with_bank_address penv public plain) request = POST penv request.
Proof. reflexivity. Qed.

Lemma sendPayout_parties (conn : Connection) (kp : Keypair) (winner : value)
    (amount : float) (t : nat) :
  exists tr,
    run (answer env) (sendPayout conn kp winner amount) t
    = (inr (payout_of (broadcast env conn kp winner amount)), t, tr)
    /\ paid_by env kp winner tr.
Proof.
  unfold sendPayout, broadcast, payout_transfer, paid_by. simpl.
  destruct (public_key env winner) as [e | pk]; simpl.
  { eexists. split; [reflexivity |]. constructor. }
  destruct (system_transfer env _) as [e | []]; simpl.
  { eexists. split; [reflexivity |]. repeat constructor. }
  destruct (latest_blockhash env conn) as [e | bh]; simpl.
  { eexists. split; [reflexivity |]. repeat constructor. }
  destruct (sign env _ kp) as [e | []]; simpl.
  { eexists. split; [reflexivity |]. repeat constructor. }
  destruct (serialize env _) as [e | []]; simpl.
  { eexists. split; [reflexivity |]. repeat constructor. }
  destruct (send_raw env conn _) as [e | sig]; simpl;
    eexists; (split; [reflexivity |]); repeat constructor.
Qed.

#[local] Opaque getBankKeypair sendPayout getConnection verifyTransaction.
#[local] Opaque Math_floor.

Lemma settle_parties (start : float) (conn : Connection)
    (wallet amount : value) (p : float) (t : nat) :
  times_two amount = inr p ->
  exists resp tr t',
    run (answer env) (settle penv start conn wallet amount) t
    = (inr resp, t', tr)
    /\ match bank_key penv env with
       | Some kp => paid_by env kp wallet tr
       | None => transfers tr = []
       end.
Proof.
  intros Hp.
  unfold settle, determineResult. rewrite Hp. simpl.
  destruct (random env <? 0.5)%float; simpl.
  - rewrite run_bind.
    destruct (PlayFacts.run_getBankKeypair penv env t) as (tr1 & -> & Hc1).
    destruct (PlayFacts.calm_quiet _ Hc1) as (_ & _ & Ht1 & _).
    unfold and_then.
    destruct (bank_key penv env) as [kp |]; simpl.
    + rewrite run_bind.
      destruct (sendPayout_parties conn kp wallet p t)
        as (tr2 & -> & Hpaid).
      unfold and_then, paid_by in *.
      destruct (broadcast env conn kp wallet p)
        as [e | sig]; simpl;
        (do 3 eexists; split; [reflexivity |]);
        repeat (progress (simpl; rewrite ?PlayFacts.transfers_app));
        rewrite Ht1; simpl; rewrite ?app_nil_r; exact Hpaid.
    + do 3 eexists. split; [reflexivity |].
      repeat (progress (simpl; rewrite ?PlayFacts.transfers_app)).
      rewrite Ht1. reflexivity.
  - do 3 eexists. split; [reflexivity |].
    destruct (bank_key penv env); [constructor | reflexivity].
Qed.

(** X19. Every transfer the settlement handler builds or sends is paid
    from the address of the signing key it loaded to the address the
    request's [playerWallet] parses to. The bank wallet address of the
    configuration, which the health check reports, plays no part: with any
    other address configured the handler is the same program. *)
Theorem X19_payout_goes_from_the_key_to_the_player
    (request : NextRequest) :
  (exists resp tr,
     serve penv env request = (inr resp, tr)
     /\ forall x,
          In x (transfers tr) ->
          exists body kp,
            json request = inr body
            /\ bank_key penv env = Some kp
            /\ fromPubkey x = publicKey kp
            /\ public_key env (get body "playerWallet") = inr (toPubkey x))
  /\ forall public plain,
       serve (with_bank_address penv public plain) env request
       = serve penv env request.
Proof.
  split.
  2: { intros public plain. unfold serve.
       rewrite POST_ignores_bank_address. reflexivity. }
  destruct request as [[e | body]].
  { unfold serve, POST. simpl. do 2 eexists. split; [reflexivity |].
    simpl. intros x []. }
  change {| json := inr body |} with (parsed body).
  destruct (nullish body) eqn:Hnull.
  { unfold serve, POST, parsed, destructure. simpl. rewrite Hnull. simpl.
    do 2 eexists. split; [reflexivity |]. simpl. intros x []. }
  destruct (validate (get body "signature") (get body "playerWallet")
                     (get body "betAmount")) as [e | [rejection |]]
    eqn:Hval.
  { rewrite (PlayFacts.serve_check_threw penv env body e Hnull Hval).
    do 2 eexists. split; [reflexivity |]. simpl. intros x []. }
  { rewrite (PlayFacts.serve_rejected penv env body rejection Hnull Hval).
    do 2 eexists. split; [reflexivity |]. simpl. intros x []. }
  destruct (PlayFacts.validate_passed _ _ _ Hval)
    as (_ & _ & _ & n & _ & _ & Htwo).
  destruct (PlayFacts.serve_accepted penv env body Hnull Hval)
    as (before & Hcalm & Hserve).
  destruct (PlayFacts.calm_quiet _ Hcalm) as (_ & _ & Ht0 & _).
  destruct (connection penv env) as [e | conn].
  { rewrite Hserve. do 2 eexists. split; [reflexivity |].
    simpl. rewrite PlayFacts.transfers_app, Ht0. simpl. intros x []. }
  destruct (marks_failure _).
  { rewrite Hserve. do 2 eexists. split; [reflexivity |].
    simpl. rewrite Ht0. intros x []. }
  destruct Hserve as (resp & tr & t' & Hrun & ->).
  destruct (settle_parties (clock env 0) conn
              (get body "playerWallet") (get body "betAmount") _ 1 Htwo)
    as (resp' & tr' & t'' & Hrun' & Hpaid).
  rewrite Hrun in Hrun'. injection Hrun' as <- <- <-.
  do 2 eexists. split; [reflexivity |].
  simpl. rewrite PlayFacts.transfers_app, Ht0. simpl.
  intros x Hx. exists body.
  destruct (bank_key penv env) as [kp |].
  - exists kp. unfold paid_by in Hpaid. rewrite Forall_forall in Hpaid.
    destruct (Hpaid x Hx) as [Hfrom Hto]. auto.
  - rewrite Hpaid in Hx. destruct Hx.
Qed.

End Route.
End PlayParties.

(* ================================================================== *)
(** * From a settled round to the statistics *)
(* ================================================================== *)

Module RoundReport.
Import JS Eff EffFacts.

Section Routes.
Context `{Runtime}.
Variable penv : Play.ProcessEnv.
Variable env : Play.Env.

(** An amount that passed the input checks of the settlement route is
    truthy. *)
Lemma validate_truthy_amount (signature playerWallet betAmount : value) :
  Play.validate signature playerWallet betAmount = inr None ->
  truthy betAmount = true.
Proof.
  intros Hval. apply (PlayFacts.validate_passed _ _ _ Hval).
Qed.

(** A truthy value stays truthy on its way to the caller, unless it is an
    infinite number, which arrives as [null]. *)
Lemma truthy_wire (v : value) :
  truthy v = true ->
  truthy (wire v) = negb (unbounded v)
  /\ (unbounded v = true -> wire v = VNull).
Proof.
  destruct v as [| | b | n | s | items | fields]; simpl;
    try discriminate; try (intros Ht; split; [exact Ht | discriminate]);
    try (intros _; split; [reflexivity | discriminate]).
  intros Ht. apply negb_true_iff, orb_false_iff in Ht.
  destruct Ht as [Hz Hnan].
  rewrite (NumFacts.json_number_clean n Hz Hnan).
  destruct (is_infinity n); simpl; [auto |].
  rewrite Hz, Hnan. split; [reflexivity | discriminate].
Qed.

#[local] Opaque Stats.readStats Stats.writeStats Stats.record_round.

(** X18. The outcome and the amount in the answer to a settled round
    pass the input check of the statistics write exactly when the amount
    is not an infinite number. Reported as they are, they are then never
    answered with status 400, and the write goes on to query the store. A
    wager whose amount is infinite is settled, but its amount reaches the
    caller as [null], and the statistics write refuses it with status 400
    without a call to the store. *)
Theorem X18_settled_round_passes_the_statistics_check
    (fields : list (string * value)) :
  Play.validate (assoc "signature" fields) (assoc "playerWallet" fields)
                (assoc "betAmount" fields) = inr None ->
  Play.connectable penv env = true ->
  Play.marks_failure (Play.lookup penv env (assoc "signature" fields))
  = false ->
  exists resp tr,
    Play.serve penv env (Play.parsed (VObj fields)) = (inr resp, tr)
    /\ Play.status resp = 200%Z
    /\ (Stats.invalid (Play.field resp "result")
                      (Play.field resp "betAmount") = false
        <-> unbounded (assoc "betAmount" fields) = false)
    /\ (unbounded (assoc "betAmount" fields) = true ->
        Play.field resp "betAmount" = VNull)
    /\ forall w,
         exists answer w' calls,
           Stats.serve
             (Stats.POST
                (Stats.parsed
                   (VObj [("result", Play.field resp "result");
                          ("amount", Play.field resp "betAmount");
                          ("playerWallet", assoc "playerWallet" fields)])))
             w
           = (inr answer, w', calls)
           /\ (unbounded (assoc "betAmount" fields) = false ->
               Stats.status answer <> 400%Z
               /\ Stats.starts_with_read calls = true)
           /\ (unbounded (assoc "betAmount" fields) = true ->
               answer = Stats.JsonError "Invalid request data" 400
               /\ w' = w /\ calls = []).
Proof.
  intros Hval Hconn Hok.
  destruct (PlayFacts.serve_settled penv env (VObj fields) eq_refl Hval
              Hconn Hok)
    as (resp & tr & p & Hserve & _ & Hstatus & _ & Hbet & _ & _ & _ & Hres).
  simpl get in *.
  exists resp, tr. split; [exact Hserve |]. split; [exact Hstatus |].
  pose proof (validate_truthy_amount _ _ _ Hval) as Htruthy.
  destruct (truthy_wire _ Htruthy) as (Hwire & Hnull).
  assert (Hinv : Stats.invalid (Play.field resp "result")
                               (Play.field resp "betAmount")
                 = unbounded (assoc "betAmount" fields)).
  { rewrite Hbet. unfold Stats.invalid. rewrite Hwire.
    destruct (Play.random env <? 0.5)%float;
      destruct Hres as (-> & _);
      destruct (unbounded (assoc "betAmount" fields)); reflexivity. }
  split; [rewrite Hinv; tauto |].
  split; [intros Hinf; rewrite Hbet; exact (Hnull Hinf) |].
  intros w. unfold Stats.serve, Stats.POST, Stats.parsed, Stats.destructure.
  simpl. rewrite Hinv.
  destruct (unbounded (assoc "betAmount" fields)).
  { simpl. do 3 eexists. split; [reflexivity |].
    split; [discriminate | auto]. }
  rewrite run_catch.
  destruct (StatsFacts.record_round_shape (Play.field resp "result")
              (Play.field resp "betAmount") (assoc "playerWallet" fields) w)
    as (out & w' & calls & -> & Hstart & Hout).
  assert (Hhead : forall rest,
            Stats.starts_with_read (calls ++ rest) = true).
  { intros rest. destruct calls; [discriminate | exact Hstart]. }
  unfold or_else. destruct out as [e | answer]; simpl.
  - do 3 eexists. split; [reflexivity |]. simpl.
    split; [intros _; split; [discriminate | apply Hhead] | discriminate].
  - do 3 eexists. split; [reflexivity |]. rewrite Hout.
    split; [intros _; split; [discriminate | exact Hstart] | discriminate].
Qed.

End Routes.

(** X18 at a wager of 0.1 settled as a win. *)
Lemma X18_witness :
  Play.validate (H := Scenario.numeric_runtime)
    (assoc "signature" (Scenario.wager (VNum 0.1)))
    (assoc "playerWallet" (Scenario.wager (VNum 0.1)))
    (assoc "betAmount" (Scenario.wager (VNum 0.1))) = inr None
  /\ Play.connectable Scenario.configured (Scenario.healthy 0.25) = true
  /\ exists resp tr,
       Play.serve (H := Scenario.numeric_runtime) Scenario.configured
         (Scenario.healthy 0.25)
         (Play.parsed (VObj (Scenario.wager (VNum 0.1))))
       = (inr resp, tr)
       /\ Stats.invalid (Play.field resp "result")
                        (Play.field resp "betAmount") = false.
Proof.
  split; [reflexivity |]. split; [reflexivity |].
  destruct (@X18_settled_round_passes_the_statistics_check
              Scenario.numeric_runtime Scenario.configured
              (Scenario.healthy 0.25) (Scenario.wager (VNum 0.1))
              eq_refl eq_refl eq_refl)
    as (resp & tr & Hserve & _ & Hinv & _).
  exists resp, tr. split; [exact Hserve |]. apply Hinv. reflexivity.
Defined.

(** A wager of infinity is settled, and its report is refused by the
    statistics write. *)
Example infinite_wager_is_not_recorded :
  let settled :=
    Play.serve (H := Scenario.numeric_runtime) Scenario.configured
      (Scenario.healthy 0.25)
      (Play.parsed (VObj (Scenario.wager (VNum infinity)))) in
  let resp := match fst settled with
              | inr resp => resp
              | inl e => Play.server_error e
              end in
  Play.status resp = 200%Z
  /\ Play.field resp "result" = VStr "win"
  /\ Play.field resp "betAmount" = VNull
  /\ (let recorded :=
        Stats.serve
          (Stats.POST (H := Scenario.numeric_runtime)
             (Stats.parsed
                (VObj [("result", Play.field resp "result");
                       ("amount", Play.field resp "betAmount")])))
          Scenario.fresh_store in
      fst (fst recorded) = inr (Stats.JsonError "Invalid request data" 400)
      /\ snd recorded = []).
Proof. repeat split; vm_compute; reflexivity. Qed.

End RoundReport.
(* ================================================================== *)
(** * The endpoint in the log *)
(* ================================================================== *)

Module LoggingFacts.
Import Ascii Logging.

Lemma split_first_app (c : Ascii.ascii) (before after : string) :
  holds c before = false ->
  split_first c (String.append before (String c after)) = before.
Proof.
  induction before as [| a before IH]; simpl.
  - intros _. rewrite Ascii.eqb_refl. reflexivity.
  - intros Hno. apply orb_false_iff in Hno. destruct Hno as [Ha Hrest].
    rewrite Ha, (IH Hrest). reflexivity.
Qed.

Lemma split_first_holds (c : Ascii.ascii) (s : string) :
  holds c (split_first c s) = false.
Proof.
  induction s as [| a s IH]; simpl; [reflexivity |].
  destruct (Ascii.eqb a c) eqn:Ha; simpl; [reflexivity |].
  rewrite Ha, IH. reflexivity.
Qed.

Lemma split_first_whole (c : Ascii.ascii) (s : string) :
  holds c s = false -> split_first c s = s.
Proof.
  induction s as [| a s IH]; simpl; [reflexivity |].
  intros Hno. apply orb_false_iff in Hno. destruct Hno as [Ha Hrest].
  rewrite Ha, (IH Hrest). reflexivity.
Qed.

(** X21. What [getConnection] logs about an endpoint that contains
    "api-key" is cut at the first question mark: two endpoints that agree
    up to it are logged alike, as the part before it, followed by the
    mask on success. So a key in the query never reaches the log. The cut
    is made at the question mark only: an endpoint that contains "api-key"
    and no question mark is logged whole. *)
Theorem X21_query_of_a_keyed_endpoint_is_not_logged
    (base query query' : string) :
  holds "?"%char base = false ->
  includes "api-key" (String.append base (String "?"%char query)) = true ->
  includes "api-key" (String.append base (String "?"%char query')) = true ->
  using_rpc (String.append base (String "?"%char query))
  = String.append base "?api-key=***"
  /\ rpc_failed (String.append base (String "?"%char query)) = base
  /\ using_rpc (String.append base (String "?"%char query))
     = using_rpc (String.append base (String "?"%char query'))
  /\ rpc_failed (String.append base (String "?"%char query))
     = rpc_failed (String.append base (String "?"%char query'))
  /\ (includes "api-key" base = true ->
      rpc_failed base = base
      /\ using_rpc base = String.append base "?api-key=***").
Proof.
  intros Hbase Hq Hq'. unfold using_rpc, rpc_failed.
  rewrite Hq, Hq', !(split_first_app _ _ _ Hbase).
  repeat (split; [reflexivity |]).
  intros ->. rewrite (split_first_whole _ _ Hbase). split; reflexivity.
Qed.

(** X21 at an endpoint with its key in the query. *)
Lemma X21_witness :
  holds "?"%char "https://rpc.example.org/" = false
  /\ using_rpc "https://rpc.example.org/?api-key=4f1c9a"
     = "https://rpc.example.org/?api-key=***"
  /\ rpc_failed "https://rpc.example.org/?api-key=4f1c9a"
     = "https://rpc.example.org/".
Proof.
  split; [reflexivity |].
  destruct (X21_query_of_a_keyed_endpoint_is_not_logged
              "https://rpc.example.org/" "api-key=4f1c9a" "api-key=0"
              eq_refl eq_refl eq_refl)
    as (Husing & Hfailed & _).
  split; [exact Husing | exact Hfailed].
Defined.

End LoggingFacts.
